(** * Science-bowl buzzer server: a shallow embedding of [server/index.js]

    The server keeps a registry of rooms (a JavaScript [Map] from room code to
    room object), reacts to socket messages, and arms one deferred
    "toss-up end" callback per room.  Every handler of the source is embedded
    as a function from the server state, the wall-clock time of the call and
    the message to a new state, the effects sent to the transport layer and a
    verdict telling which branch of the handler was taken.

    Modelling choices:
    - JavaScript numbers that count milliseconds are integers ([Z]).  Scores
      and the point values of payloads are binary64 numbers, represented by
      the rational they denote ([Q]); every sum the handlers form is rounded
      to the nearest binary64 number, ties to even ([jsAdd]).
    - Strings are sequences of ASCII characters.  On these [toUpperCase] and
      [trim] are the functions of JavaScript; characters outside ASCII are
      left alone by both.
    - [Map] and [Set] keep insertion order, so they are association lists and
      duplicate-free lists.  A plain object used as a dictionary (the
      [teams] of a ledger row) lists its array-index keys first, in
      ascending numeric order, and then its other keys in creation order
      ([JsObject]).
    - [Date.now()] is read once per handler call and passed as [now].
    - [Math.random] and [nanoid] are inputs of [create_room]: the message
      carries the draws the handler will read. *)

From Stdlib Require Import ZArith NArith QArith Qround Qpower Bool List String
  Ascii Lia Lqa.
Import ListNotations.
Local Open Scope string_scope.
Local Open Scope Z_scope.

Set Implicit Arguments.

(** ** JavaScript strings *)

Module JsString.

(** The blanks [trim] strips among the ASCII characters: tab, line feed,
    vertical tab, form feed, carriage return and space. *)
Definition isSpace (c : ascii) : bool :=
  let n := nat_of_ascii c in
  ((9 <=? n)%nat && (n <=? 13)%nat) || (n =? 32)%nat.

(** [toUpperCase] on one ASCII character: the letters a to z move to A to
    Z. *)
Definition upperChar (c : ascii) : ascii :=
  let n := nat_of_ascii c in
  if ((97 <=? n)%nat && (n <=? 122)%nat)%bool then ascii_of_nat (n - 32) else c.

Fixpoint toUpperCase (s : string) : string :=
  match s with
  | EmptyString => EmptyString
  | String c rest => String (upperChar c) (toUpperCase rest)
  end.

Fixpoint dropSpaces (l : list ascii) : list ascii :=
  match l with
  | [] => []
  | c :: rest => if isSpace c then dropSpaces rest else l
  end.

Definition trim (s : string) : string :=
  string_of_list_ascii
    (rev (dropSpaces (rev (dropSpaces (list_ascii_of_string s))))).

(** [s.slice(0, n)] *)
Definition slice0 (n : nat) (s : string) : string := substring 0 n s.

(** [s || d] on strings: the empty string is falsy. *)
Definition orElse (s d : string) : string :=
  if String.eqb s "" then d else s.

Definition truthy (s : string) : bool := negb (String.eqb s "").

(** [String.fromCharCode(n)] *)
Definition fromCharCode (n : nat) : string :=
  String (ascii_of_nat n) EmptyString.

End JsString.

(** ** JavaScript numbers received in payloads *)

Inductive JsNumber :=
| JNaN
| JPosInf
| JNegInf
| JFin (q : Q).

Definition isFinite (n : JsNumber) : bool :=
  match n with JFin _ => true | _ => false end.

(** [Math.round]: nearest integer, ties towards plus infinity. *)
Definition mathRound (q : Q) : Z := Qfloor (q + (1 # 2)).

(** ** Binary64 arithmetic

    A finite JavaScript number is the rational it denotes.  [toDouble]
    rounds a rational to the nearest binary64 number, ties to even: the
    significand has 53 bits and the exponent of the last bit is at least
    -1074.  The sums formed by the handlers add at most 20 to a score, which
    never reaches the overflow threshold, so no infinity arises. *)

(** The nearest integer, ties to even. *)
Definition roundHalfEven (q : Q) : Z :=
  let f := Qfloor q in
  match (q - inject_Z f ?= 1 # 2)%Q with
  | Lt => f
  | Gt => f + 1
  | Eq => if Z.even f then f else f + 1
  end.

Definition pow2 (e : Z) : Q := (2 ^ e)%Q.

(** [floor (log2 q)] for a positive [q]. *)
Definition ilog2 (q : Q) : Z :=
  let a := Z.log2 (Qnum q) - Z.log2 (Zpos (Qden q)) in
  if Qle_bool (pow2 a) q then a else a - 1.

(** The exponent of the last significand bit of the double nearest to a
    positive [q]. *)
Definition expo (q : Q) : Z := Z.max (ilog2 q - 52) (-1074).

Definition roundPos (q : Q) : Q :=
  Qred (inject_Z (roundHalfEven (q / pow2 (expo q))) * pow2 (expo q)).

Definition toDouble (q : Q) : Q :=
  match Qnum q with
  | Z0 => 0%Q
  | Zpos _ => roundPos q
  | Zneg _ => (- roundPos (- q))%Q
  end.

(** [x + y] on JavaScript numbers. *)
Definition jsAdd (x y : Q) : Q := toDouble (x + y).

(** ** Insertion-ordered maps and sets *)

Module JsMap.
Section Defs.
Variable V : Type.

Definition t := list (string * V).

Fixpoint get (m : t) (k : string) : option V :=
  match m with
  | [] => None
  | (k', v) :: rest => if String.eqb k' k then Some v else get rest k
  end.

Definition has (m : t) (k : string) : bool :=
  match get m k with Some _ => true | None => false end.

(** [m.set(k, v)]: an existing key keeps its position. *)
Fixpoint set (m : t) (k : string) (v : V) : t :=
  match m with
  | [] => [(k, v)]
  | (k', v') :: rest =>
      if String.eqb k' k then (k', v) :: rest else (k', v') :: set rest k v
  end.

Fixpoint delete (m : t) (k : string) : t :=
  match m with
  | [] => []
  | (k', v') :: rest =>
      if String.eqb k' k then rest else (k', v') :: delete rest k
  end.

Definition keys (m : t) : list string := map fst m.
Definition values (m : t) : list V := map snd m.
End Defs.

Arguments get {V} m k.
Arguments has {V} m k.
Arguments set {V} m k v.
Arguments delete {V} m k.
Arguments keys {V} m.
Arguments values {V} m.
End JsMap.

(** ** Plain objects used as dictionaries

    An object is the list of its own properties in the order [Object.keys],
    [JSON.stringify] and [for ... in] enumerate them: the keys that are
    array indices (canonical decimal numerals below 2^32 - 1) come first, in
    ascending numeric order, the other keys follow in the order they were
    created.  A property is read with [JsMap.get]; writing to an existing
    property keeps its place.  The keys used here are team ids, none of
    which names a property inherited from [Object.prototype]. *)

Module JsObject.

Definition digit (c : ascii) : option N :=
  let n := N_of_ascii c in
  if ((48 <=? n) && (n <=? 57))%N then Some (n - 48)%N else None.

Fixpoint digits (s : string) (acc : N) : option N :=
  match s with
  | EmptyString => Some acc
  | String c rest =>
      match digit c with
      | Some d => digits rest (acc * 10 + d)%N
      | None => None
      end
  end.

(** The index a key denotes when it is an array index: decimal digits only,
    no leading zero, below 2^32 - 1. *)
Definition arrayIndex (k : string) : option N :=
  match k with
  | EmptyString => None
  | String c rest =>
      if Ascii.eqb c "0" && negb (String.eqb rest "") then None
      else
        match digits k 0 with
        | Some n => if (n <? 4294967295)%N then Some n else None
        | None => None
        end
  end.

Section Defs.
Variable V : Type.

Definition t := list (string * V).

(** A new array-index key goes before the first key that is not a smaller
    array index. *)
Fixpoint insertIndex (m : t) (n : N) (k : string) (v : V) : t :=
  match m with
  | [] => [(k, v)]
  | (k', v') :: rest =>
      match arrayIndex k' with
      | Some n' =>
          if (n' <? n)%N then (k', v') :: insertIndex rest n k v
          else (k, v) :: m
      | None => (k, v) :: m
      end
  end.

(** [o[k] = v] *)
Definition set (m : t) (k : string) (v : V) : t :=
  if JsMap.has m k then JsMap.set m k v
  else
    match arrayIndex k with
    | Some n => insertIndex m n k v
    | None => (m ++ [(k, v)])%list
    end.
End Defs.

Arguments insertIndex {V} m n k v.
Arguments set {V} m k v.
End JsObject.

Module JsSet.
Definition t := list string.

Definition has (s : t) (k : string) : bool := existsb (String.eqb k) s.

Definition add (s : t) (k : string) : t := if has s k then s else (s ++ [k])%list.
End JsSet.

(** ** Data model *)

Inductive Phase :=
| Lobby
| TossupReading
| TossupLive
| TossupClosed
| BonusReading
| BonusLive.

Definition phase_eqb (a b : Phase) : bool :=
  match a, b with
  | Lobby, Lobby | TossupReading, TossupReading | TossupLive, TossupLive
  | TossupClosed, TossupClosed | BonusReading, BonusReading
  | BonusLive, BonusLive => true
  | _, _ => false
  end.

(** [phase.startsWith("bonus")] *)
Definition startsWithBonus (p : Phase) : bool :=
  match p with BonusReading | BonusLive => true | _ => false end.

Inductive TimerMode := TossupMode | BonusMode.

Record Timer := mkTimer {
  mode : TimerMode;
  running : bool;
  remainingMs : Z;
  endsAtMs : Z
}.

Record Settings := mkSettings {
  tossupSeconds : Z;
  bonusSeconds : Z
}.

Record Team := mkTeam {
  teamKey : string;
  teamName : string;
  score : Q
}.

Record Player := mkPlayer {
  socketId : string;
  playerName : string;
  teamId : option string;
  isHost : bool;
  isSpectator : bool
}.

(** [room.buzz] is either [{locked: false}] or the record written by the
    buzz handler. *)
Inductive Buzz :=
| Unlocked
| Locked (winnerSocketId winnerName winnerTeamId : string) (at_ : Z)
         (interruptChoice : option bool).

Definition locked (b : Buzz) : bool :=
  match b with Unlocked => false | Locked _ _ _ _ _ => true end.

Record RowEntry := mkRowEntry {
  rowP : Q;
  rowTU : Q;
  rowB : Q;
  rowScore : Q
}.

Inductive RowField := FieldP | FieldTU | FieldB.

Record Row := mkRow {
  num : Z;
  rowTeams : JsObject.t RowEntry
}.

Record Match := mkMatch {
  tossupNumber : Z;
  rows : list Row
}.

Record Room := mkRoom {
  code : string;
  roomName : string;
  hostSocketId : string;
  settings : Settings;
  teams : JsMap.t Team;
  players : JsMap.t Player;
  phase : Phase;
  activeBonusTeamId : option string;
  tossupLockedTeams : JsSet.t;
  buzz : Buzz;
  timer : Timer;
  tossupEndTimeout : option nat;
  matchLog : Match
}.

Definition DEFAULT_TOSSUP_SECONDS : Z := 5.
Definition DEFAULT_BONUS_SECONDS : Z := 20.

(** Field updates of a room object. *)
Definition withRoomName (r : Room) (x : string) : Room :=
  mkRoom (code r) x (hostSocketId r) (settings r) (teams r) (players r)
    (phase r) (activeBonusTeamId r) (tossupLockedTeams r) (buzz r) (timer r)
    (tossupEndTimeout r) (matchLog r).
Definition withTeams (r : Room) (x : JsMap.t Team) : Room :=
  mkRoom (code r) (roomName r) (hostSocketId r) (settings r) x (players r)
    (phase r) (activeBonusTeamId r) (tossupLockedTeams r) (buzz r) (timer r)
    (tossupEndTimeout r) (matchLog r).
Definition withPlayers (r : Room) (x : JsMap.t Player) : Room :=
  mkRoom (code r) (roomName r) (hostSocketId r) (settings r) (teams r) x
    (phase r) (activeBonusTeamId r) (tossupLockedTeams r) (buzz r) (timer r)
    (tossupEndTimeout r) (matchLog r).
Definition withPhase (r : Room) (x : Phase) : Room :=
  mkRoom (code r) (roomName r) (hostSocketId r) (settings r) (teams r)
    (players r) x (activeBonusTeamId r) (tossupLockedTeams r) (buzz r)
    (timer r) (tossupEndTimeout r) (matchLog r).
Definition withActiveBonusTeamId (r : Room) (x : option string) : Room :=
  mkRoom (code r) (roomName r) (hostSocketId r) (settings r) (teams r)
    (players r) (phase r) x (tossupLockedTeams r) (buzz r) (timer r)
    (tossupEndTimeout r) (matchLog r).
Definition withTossupLockedTeams (r : Room) (x : JsSet.t) : Room :=
  mkRoom (code r) (roomName r) (hostSocketId r) (settings r) (teams r)
    (players r) (phase r) (activeBonusTeamId r) x (buzz r) (timer r)
    (tossupEndTimeout r) (matchLog r).
Definition withBuzz (r : Room) (x : Buzz) : Room :=
  mkRoom (code r) (roomName r) (hostSocketId r) (settings r) (teams r)
    (players r) (phase r) (activeBonusTeamId r) (tossupLockedTeams r) x
    (timer r) (tossupEndTimeout r) (matchLog r).
Definition withTimer (r : Room) (x : Timer) : Room :=
  mkRoom (code r) (roomName r) (hostSocketId r) (settings r) (teams r)
    (players r) (phase r) (activeBonusTeamId r) (tossupLockedTeams r) (buzz r)
    x (tossupEndTimeout r) (matchLog r).
Definition withTossupEndTimeout (r : Room) (x : option nat) : Room :=
  mkRoom (code r) (roomName r) (hostSocketId r) (settings r) (teams r)
    (players r) (phase r) (activeBonusTeamId r) (tossupLockedTeams r) (buzz r)
    (timer r) x (matchLog r).
Definition withMatchLog (r : Room) (x : Match) : Room :=
  mkRoom (code r) (roomName r) (hostSocketId r) (settings r) (teams r)
    (players r) (phase r) (activeBonusTeamId r) (tossupLockedTeams r) (buzz r)
    (timer r) (tossupEndTimeout r) x.

(** ** Snapshots sent to clients *)

Record TimerSnapshot := mkTimerSnapshot {
  snapMode : TimerMode;
  snapRunning : bool;
  snapRemainingMs : Z;
  snapEndsAtMs : Z
}.

Record PublicState := mkPublicState {
  psCode : string;
  psRoomName : string;
  psHostSocketId : string;
  psSettings : Settings;
  psTeams : list Team;
  psPlayers : list Player;
  psPhase : Phase;
  psActiveBonusTeamId : option string;
  psBuzz : Buzz;
  psTimer : TimerSnapshot;
  psTossupLockedTeams : list string;
  psMatch : Match
}.

Inductive ServerEvent :=
| ErrorMsg (msg : string)
| RoomCreated (roomCode : string)
| StateMsg (ps : PublicState).

(** What a handler asks of the transport layer. *)
Inductive Effect :=
| EmitSocket (sock : string) (ev : ServerEvent)
| EmitRoom (roomCode : string) (ev : ServerEvent)
| SocketJoin (sock : string) (roomCode : string).

(** ** Server state: the registry and the pending deferred callbacks *)

Record PendingTimeout := mkPending {
  handle : nat;
  capturedCode : string;
  dueAt : Z
}.

Record Server := mkServer {
  rooms : JsMap.t Room;
  pending : list PendingTimeout;
  nextHandle : nat
}.

Definition initServer : Server := mkServer [] [] 0.

Definition withRooms (s : Server) (x : JsMap.t Room) : Server :=
  mkServer x (pending s) (nextHandle s).

(** ** Timer helpers *)

Definition computeTimerSnapshot (room : Room) (now : Z) : TimerSnapshot :=
  let t := timer room in
  if negb (running t) then mkTimerSnapshot (mode t) false (remainingMs t) 0
  else
    let remaining := Z.max 0 (endsAtMs t - now) in
    let running' := 0 <? remaining in
    mkTimerSnapshot (mode t) running' remaining
      (if running' then endsAtMs t else 0).

(** [seconds] is an integer here, so [Math.round(seconds * 1000)] is the
    product itself. *)
Definition setTimer (room : Room) (now : Z) (m : TimerMode) (seconds : Z)
    (run : bool) : Room :=
  let remaining := seconds * 1000 in
  if run then withTimer room (mkTimer m true remaining (now + remaining))
  else withTimer room (mkTimer m false remaining 0).

Definition resetTimerFull (room : Room) (now : Z) (m : TimerMode)
    (run : bool) : Room :=
  let seconds :=
    match m with
    | TossupMode => tossupSeconds (settings room)
    | BonusMode => bonusSeconds (settings room)
    end in
  setTimer room now m seconds run.

Definition stopTimer (room : Room) (now : Z) : Room :=
  let t := timer room in
  if negb (running t) then room
  else withTimer room (mkTimer (mode t) false (Z.max 0 (endsAtMs t - now)) 0).

(** ** Toss-up end timeout

    [setTimeout] hands out a fresh handle and records the callback, here the
    room code its closure reads and the time it is due; [clearTimeout]
    forgets it. *)

Definition clearTimeout (s : Server) (h : nat) : Server :=
  mkServer (rooms s)
    (filter (fun pt => negb (Nat.eqb (handle pt) h)) (pending s))
    (nextHandle s).

Definition setTimeout (s : Server) (c : string) (now delay : Z)
    : Server * nat :=
  let h := nextHandle s in
  (mkServer (rooms s) (mkPending h c (now + delay) :: pending s) (S h), h).

Definition clearTossupEndTimeout (s : Server) (room : Room) : Server * Room :=
  match tossupEndTimeout room with
  | Some h => (clearTimeout s h, withTossupEndTimeout room None)
  | None => (s, room)
  end.

Definition scheduleTossupEnd (s : Server) (room : Room) (now : Z)
    : Server * Room :=
  let '(s1, r1) := clearTossupEndTimeout s room in
  let ms := remainingMs (timer r1) in
  let '(s2, h) := setTimeout s1 (code r1) now (ms + 15) in
  (s2, withTossupEndTimeout r1 (Some h)).

(** ** Match log (per toss-up deltas) *)

(** [room.match] is set when the room is created and never cleared, so the
    guard of [ensureMatch] always returns at once. *)
Definition ensureMatch (room : Room) : Room := room.

Definition startNewTossupRow (room : Room) : Room :=
  let room := ensureMatch room in
  let n := tossupNumber (matchLog room) + 1 in
  let entries :=
    fold_left
      (fun acc (kt : string * Team) =>
         JsObject.set acc (fst kt) (mkRowEntry 0 0 0 (score (snd kt))))
      (teams room) [] in
  withMatchLog room
    (mkMatch n (rows (matchLog room) ++ [mkRow n entries])%list).

Definition currentRow (room : Room) : option Row :=
  last (map Some (rows (matchLog (ensureMatch room)))) None.

(** Overwrites the last element of the ledger, the row [currentRow] reads. *)
Definition setCurrentRow (room : Room) (row : Row) : Room :=
  let m := matchLog room in
  withMatchLog room
    (mkMatch (tossupNumber m) (removelast (rows m) ++ [row])%list).

(** [entry[field] += points] *)
Definition addToField (e : RowEntry) (f : RowField) (points : Q) : RowEntry :=
  match f with
  | FieldP => mkRowEntry (jsAdd (rowP e) points) (rowTU e) (rowB e) (rowScore e)
  | FieldTU => mkRowEntry (rowP e) (jsAdd (rowTU e) points) (rowB e) (rowScore e)
  | FieldB => mkRowEntry (rowP e) (rowTU e) (jsAdd (rowB e) points) (rowScore e)
  end.

Definition addRowDelta (room : Room) (tid : string) (f : RowField)
    (points : Q) : Room :=
  match currentRow room with
  | None => room
  | Some row =>
      match JsMap.get (rowTeams row) tid with
      | None => room
      | Some e =>
          setCurrentRow room
            (mkRow (num row) (JsMap.set (rowTeams row) tid (addToField e f points)))
      end
  end.

(** [if (row.teams[id]) row.teams[id].score = t.score]: the entry keeps its
    place among the properties of the row. *)
Definition refreshEntry (entries : JsObject.t RowEntry) (kt : string * Team)
    : JsObject.t RowEntry :=
  match JsMap.get entries (fst kt) with
  | Some e =>
      JsMap.set entries (fst kt)
        (mkRowEntry (rowP e) (rowTU e) (rowB e) (score (snd kt)))
  | None => entries
  end.

Definition refreshRowScores (room : Room) : Room :=
  match currentRow room with
  | None => room
  | Some row =>
      setCurrentRow room
        (mkRow (num row) (fold_left refreshEntry (teams room) (rowTeams row)))
  end.

(** ** Buzz helpers *)

Definition clearBuzz (room : Room) : Room := withBuzz room Unlocked.

(** [[...room.teams.keys()].find((id) => id !== teamId) || null] *)
Definition otherTeamId (room : Room) (tid : string) : option string :=
  match find (fun id => negb (String.eqb id tid)) (JsMap.keys (teams room)) with
  | Some id => if JsString.truthy id then Some id else None
  | None => None
  end.

(** ** State and broadcast *)

Definition publicState (room : Room) (now : Z) : PublicState :=
  mkPublicState (code room) (roomName room) (hostSocketId room)
    (settings room) (JsMap.values (teams room)) (JsMap.values (players room))
    (phase room) (activeBonusTeamId room) (buzz room)
    (computeTimerSnapshot room now) (tossupLockedTeams room) (matchLog room).

Definition broadcast (room : Room) (now : Z) : Effect :=
  EmitRoom (code room) (StateMsg (publicState room now)).

(** The callback armed by [scheduleTossupEnd]; [c] is the code of the room
    object the closure captured. *)
Definition tossupEndCallback (s : Server) (now : Z) (c : string)
    : Server * list Effect :=
  match JsMap.get (rooms s) c with
  | None => (s, [])
  | Some r =>
      let remaining := Z.max 0 (endsAtMs (timer r) - now) in
      if phase_eqb (phase r) TossupLive && (remaining =? 0)
         && negb (locked (buzz r))
      then
        let r1 := withPhase r TossupClosed in
        let r2 := withTimer r1 (mkTimer (mode (timer r1)) false 0 0) in
        let r3 := clearBuzz r2 in
        (withRooms s (JsMap.set (rooms s) c r3), [broadcast r3 now])
      else (s, [])
  end.

(** The event loop runs the callback of a pending handle and drops it. *)
Definition fireTimeout (s : Server) (now : Z) (h : nat)
    : Server * list Effect :=
  match find (fun pt => Nat.eqb (handle pt) h) (pending s) with
  | None => (s, [])
  | Some pt => tossupEndCallback (clearTimeout s h) now (capturedCode pt)
  end.

(** ** Socket handlers *)

(** The branch on which a handler returned without a broadcast. *)
Inductive Reject :=
| RoomNotFound
| HostOnly
| ChooseTeam
| PhaseNotAllowed
| EmptyName
| UnknownTeam
| PointsOutOfRange
| NotAParticipant
| NoTeam
| TeamLockedOut
| AlreadyLocked
| BuzzNotLocked
| InterruptUnset
| Ignored.

Inductive Verdict :=
| Accepted
| Rejected (why : Reject).

Record Result := mkResult {
  server : Server;
  effects : list Effect;
  verdict : Verdict
}.

Definition reject (s : Server) (effs : list Effect) (why : Reject) : Result :=
  mkResult s effs (Rejected why).

(** Writes the mutated room object back under its registry key and
    broadcasts it. *)
Definition commit (s : Server) (c : string) (room : Room) (now : Z)
    (before : list Effect) : Result :=
  mkResult (withRooms s (JsMap.set (rooms s) c room))
    (before ++ [broadcast room now]) Accepted.

(** [String(code || "").toUpperCase().trim()] applied to the string value of
    the payload's code. *)
Definition normCode (c : string) : string :=
  JsString.trim (JsString.toUpperCase c).

Definition requireRoom (s : Server) (sock c : string) (k : Room -> Result)
    : Result :=
  match JsMap.get (rooms s) c with
  | Some room => k room
  | None => reject s [EmitSocket sock (ErrorMsg "Room not found.")] RoomNotFound
  end.

Definition requireHost (s : Server) (sock : string) (room : Room)
    (k : Result) : Result :=
  if String.eqb (hostSocketId room) sock then k
  else reject s [EmitSocket sock (ErrorMsg "Host only.")] HostOnly.

Definition alphabet : string := "ABCDEFGHJKLMNPQRSTUVWXYZ23456789".

(** [alphabet[i]] appended to a string: a missing index reads [undefined]. *)
Definition alphabetAt (i : Z) : string :=
  match (if i <? 0 then None else String.get (Z.to_nat i) alphabet) with
  | Some ch => String ch EmptyString
  | None => "undefined"
  end.

Fixpoint genCodeLoop (random : nat -> Q) (i n : nat) (acc : string) : string :=
  match n with
  | O => acc
  | S n' =>
      genCodeLoop random (S i) n'
        (acc ++ alphabetAt (Qfloor (random i * inject_Z (Z.of_nat (String.length alphabet)))))
  end.

(** [random i] is the value of the [i]-th call of [Math.random]. *)
Definition genCode (random : nat -> Q) : string := genCodeLoop random 0 6 "".

Definition teamCountOf (numTeams : JsNumber) : Z :=
  match numTeams with
  | JFin n => Z.min 8 (Z.max 2 (mathRound n))
  | _ => 2
  end.

(** The loop that fills [room.teams]; [nanoid i] is the id drawn in
    iteration [i]. *)
Fixpoint createTeams (nanoid : nat -> string) (i n : nat)
    (acc : JsMap.t Team) : JsMap.t Team :=
  match n with
  | O => acc
  | S n' =>
      let id := nanoid i in
      createTeams nanoid (S i) n'
        (JsMap.set acc id
           (mkTeam id ("Team " ++ JsString.fromCharCode (65 + i)) 0))
  end.

(** [hostName] is [None] for a missing name; [roomName] is the string
    [String(roomName || "")]; [numTeams] is [Number(numTeams)]. *)
Definition create_room (s : Server) (sock : string) (now : Z)
    (hostName : option string) (roomNameArg : string) (numTeams : JsNumber)
    (random : nat -> Q) (nanoid : nat -> string) : Result :=
  let c := genCode random in
  let rn :=
    JsString.orElse (JsString.slice0 40 (JsString.trim roomNameArg))
      ("Room " ++ c) in
  let teamCount := teamCountOf numTeams in
  let host :=
    mkPlayer sock
      (JsString.slice0 24
         (JsString.orElse
            (match hostName with Some h => JsString.trim h | None => "" end)
            "Host"))
      None true false in
  let room :=
    mkRoom c rn sock
      (mkSettings DEFAULT_TOSSUP_SECONDS DEFAULT_BONUS_SECONDS)
      (createTeams nanoid 0 (Z.to_nat teamCount) [])
      (JsMap.set [] sock host)
      Lobby None [] Unlocked
      (mkTimer TossupMode false (DEFAULT_TOSSUP_SECONDS * 1000) 0)
      None (mkMatch 0 []) in
  mkResult (withRooms s (JsMap.set (rooms s) c room))
    [SocketJoin sock c; EmitSocket sock (RoomCreated c); broadcast room now]
    Accepted.

Definition host_set_room_name (s : Server) (sock : string) (now : Z)
    (codeArg roomNameArg : string) : Result :=
  let c := normCode codeArg in
  requireRoom s sock c (fun room =>
  requireHost s sock room (
    let rn := JsString.slice0 40 (JsString.trim roomNameArg) in
    if negb (JsString.truthy rn) then reject s [] EmptyName
    else commit s c (withRoomName room rn) now [])).

Definition host_set_team_name (s : Server) (sock : string) (now : Z)
    (codeArg : string) (tid : option string) (nameArg : string) : Result :=
  let c := normCode codeArg in
  requireRoom s sock c (fun room =>
  requireHost s sock room (
    match match tid with Some k => JsMap.get (teams room) k | None => None end with
    | None => reject s [] UnknownTeam
    | Some t =>
        let nm := JsString.slice0 24 (JsString.trim nameArg) in
        if negb (JsString.truthy nm) then reject s [] EmptyName
        else
          commit s c
            (withTeams room
               (JsMap.set (teams room)
                  (match tid with Some k => k | None => "" end)
                  (mkTeam (teamKey t) nm (score t))))
            now []
    end)).

(** [nameArg] is the string value of a truthy [name], the empty string
    otherwise; [tid] is [None] when [teamId] is not a string. *)
Definition join_room (s : Server) (sock : string) (now : Z)
    (codeArg nameArg : string) (tid : option string) (spectate : bool)
    : Result :=
  let c := normCode codeArg in
  requireRoom s sock c (fun room =>
    let nm :=
      JsString.slice0 24
        (JsString.orElse (JsString.trim (JsString.orElse nameArg "Player"))
           "Player") in
    if spectate then
      commit s c
        (withPlayers room
           (JsMap.set (players room) sock (mkPlayer sock nm None false true)))
        now [SocketJoin sock c]
    else
      match tid with
      | Some k =>
          if JsString.truthy k && JsMap.has (teams room) k then
            commit s c
              (withPlayers room
                 (JsMap.set (players room) sock
                    (mkPlayer sock nm (Some k) false false)))
              now [SocketJoin sock c]
          else
            reject s
              [SocketJoin sock c;
               EmitSocket sock (ErrorMsg "Choose a team before joining.")]
              ChooseTeam
      | None =>
          reject s
            [SocketJoin sock c;
             EmitSocket sock (ErrorMsg "Choose a team before joining.")]
            ChooseTeam
      end).

(** [socket.on("set_team", () => {})] *)
Definition set_team (s : Server) : Result := reject s [] Ignored.

Definition host_start_tossup_reading (s : Server) (sock : string) (now : Z)
    (codeArg : string) : Result :=
  let c := normCode codeArg in
  requireRoom s sock c (fun room =>
  requireHost s sock room (
    if startsWithBonus (phase room) then reject s [] PhaseNotAllowed
    else
      let '(s1, r1) := clearTossupEndTimeout s room in
      let r2 := withPhase r1 TossupReading in
      let r3 := withActiveBonusTeamId r2 None in
      let r4 := withTossupLockedTeams r3 [] in
      let r5 := clearBuzz r4 in
      let r6 := resetTimerFull r5 now TossupMode false in
      let r7 := startNewTossupRow r6 in
      let r8 := refreshRowScores r7 in
      commit s1 c r8 now [])).

Definition host_done_reading_tossup (s : Server) (sock : string) (now : Z)
    (codeArg : string) : Result :=
  let c := normCode codeArg in
  requireRoom s sock c (fun room =>
  requireHost s sock room (
    if startsWithBonus (phase room) then reject s [] PhaseNotAllowed
    else
      let r1 := withPhase room TossupLive in
      let r2 := clearBuzz r1 in
      let r3 := resetTimerFull r2 now TossupMode true in
      let '(s1, r4) := scheduleTossupEnd s r3 now in
      commit s1 c r4 now [])).

Definition buzz_handler (s : Server) (sock : string) (now : Z)
    (codeArg : string) : Result :=
  let c := normCode codeArg in
  requireRoom s sock c (fun room =>
    match JsMap.get (players room) sock with
    | None => reject s [] NotAParticipant
    | Some pl =>
        if isHost pl || isSpectator pl then reject s [] NotAParticipant
        else if negb (phase_eqb (phase room) TossupReading)
                && negb (phase_eqb (phase room) TossupLive)
        then reject s [] PhaseNotAllowed
        else
          match teamId pl with
          | None => reject s [] NoTeam
          | Some tid =>
              if negb (JsString.truthy tid) then reject s [] NoTeam
              else if JsSet.has (tossupLockedTeams room) tid
              then reject s [] TeamLockedOut
              else if locked (buzz room) then reject s [] AlreadyLocked
              else
                let '(s1, r1) :=
                  if phase_eqb (phase room) TossupLive
                  then clearTossupEndTimeout s (stopTimer room now)
                  else (s, room) in
                let r2 :=
                  withBuzz r1 (Locked sock (playerName pl) tid now None) in
                commit s1 c r2 now []
          end
    end).

Definition host_clear_buzz (s : Server) (sock : string) (now : Z)
    (codeArg : string) : Result :=
  let c := normCode codeArg in
  requireRoom s sock c (fun room =>
  requireHost s sock room (
    let r1 := clearBuzz room in
    let '(s1, r2) :=
      if phase_eqb (phase r1) TossupLive && running (timer r1)
      then scheduleTossupEnd s r1 now
      else (s, r1) in
    commit s1 c r2 now [])).

Definition host_set_interrupt_choice (s : Server) (sock : string) (now : Z)
    (codeArg : string) (interrupt : bool) : Result :=
  let c := normCode codeArg in
  requireRoom s sock c (fun room =>
  requireHost s sock room (
    match buzz room with
    | Unlocked => reject s [] BuzzNotLocked
    | Locked ws wn wt at_ _ =>
        commit s c (withBuzz room (Locked ws wn wt at_ (Some interrupt))) now []
    end)).

(** [team.score += points] on the team object stored under [tid]. *)
Definition addScore (room : Room) (tid : string) (t : Team) (points : Q)
    : Room :=
  withTeams room
    (JsMap.set (teams room) tid
       (mkTeam (teamKey t) (teamName t) (jsAdd (score t) points))).

Definition host_mark_answer (s : Server) (sock : string) (now : Z)
    (codeArg : string) (correct : bool) : Result :=
  let c := normCode codeArg in
  requireRoom s sock c (fun room =>
  requireHost s sock room (
    match buzz room with
    | Unlocked => reject s [] BuzzNotLocked
    | Locked _ _ tid _ interrupt =>
        match (if JsString.truthy tid then JsMap.get (teams room) tid else None) with
        | None => reject s [] UnknownTeam
        | Some team =>
            match interrupt with
            | None => reject s [] InterruptUnset
            | Some interrupt =>
                if correct then
                  let r1 := addScore room tid team 4 in
                  let r2 := addRowDelta r1 tid FieldTU 4 in
                  let r3 := refreshRowScores r2 in
                  let '(s1, r4) := clearTossupEndTimeout s r3 in
                  let r5 := withPhase r4 BonusReading in
                  let r6 := withActiveBonusTeamId r5 (Some tid) in
                  let r7 := clearBuzz r6 in
                  let r8 := resetTimerFull r7 now BonusMode false in
                  commit s1 c r8 now []
                else
                  let r1 :=
                    withTossupLockedTeams room
                      (JsSet.add (tossupLockedTeams room) tid) in
                  let r2 := clearBuzz r1 in
                  if interrupt then
                    let r3 :=
                      match otherTeamId r2 tid with
                      | Some otherId =>
                          match JsMap.get (teams r2) otherId with
                          | Some other =>
                              refreshRowScores
                                (addRowDelta (addScore r2 otherId other 4)
                                   otherId FieldP 4)
                          | None => r2
                          end
                      | None => r2
                      end in
                    let '(s1, r4) := clearTossupEndTimeout s r3 in
                    let r5 := withPhase r4 TossupReading in
                    let r6 := resetTimerFull r5 now TossupMode false in
                    commit s1 c r6 now []
                  else
                    let r3 := withPhase r2 TossupLive in
                    let r4 := resetTimerFull r3 now TossupMode true in
                    let '(s1, r5) := scheduleTossupEnd s r4 now in
                    commit s1 c r5 now []
            end
        end
    end)).

Definition host_done_reading_bonus (s : Server) (sock : string) (now : Z)
    (codeArg : string) : Result :=
  let c := normCode codeArg in
  requireRoom s sock c (fun room =>
  requireHost s sock room (
    if negb (phase_eqb (phase room) BonusReading)
       && negb (phase_eqb (phase room) BonusLive)
    then reject s [] PhaseNotAllowed
    else
      let r1 := withPhase room BonusLive in
      let r2 := resetTimerFull r1 now BonusMode true in
      commit s c r2 now [])).

(** The tail shared by [host_award_bonus] and [host_skip_bonus]. *)
Definition backToLobby (room : Room) (now : Z) : Room :=
  let r1 := withPhase room Lobby in
  let r2 := withActiveBonusTeamId r1 None in
  let r3 := withTossupLockedTeams r2 [] in
  let r4 := clearBuzz r3 in
  resetTimerFull r4 now TossupMode false.

(** [Number(points)] when it passes the guard
    [Number.isFinite(p) && p >= 0 && p <= 20]: the payload's numeral is read
    as the nearest binary64 number. *)
Definition pointsInRange (points : JsNumber) : option Q :=
  match points with
  | JFin q =>
      let p := toDouble q in
      if Qle_bool 0 p && Qle_bool p 20 then Some p else None
  | _ => None
  end.

Definition host_award_bonus (s : Server) (sock : string) (now : Z)
    (codeArg : string) (points : JsNumber) : Result :=
  let c := normCode codeArg in
  requireRoom s sock c (fun room =>
  requireHost s sock room (
    if negb (startsWithBonus (phase room)) then reject s [] PhaseNotAllowed
    else
      match activeBonusTeamId room with
      | None => reject s [] UnknownTeam
      | Some tid =>
          match (if JsString.truthy tid then JsMap.get (teams room) tid else None) with
          | None => reject s [] UnknownTeam
          | Some team =>
              match pointsInRange points with
              | None => reject s [] PointsOutOfRange
              | Some q =>
                  let r1 := addScore room tid team q in
                  let r2 := addRowDelta r1 tid FieldB q in
                  let r3 := refreshRowScores r2 in
                  commit s c (backToLobby r3 now) now []
              end
          end
      end)).

Definition host_skip_bonus (s : Server) (sock : string) (now : Z)
    (codeArg : string) : Result :=
  let c := normCode codeArg in
  requireRoom s sock c (fun room =>
  requireHost s sock room (
    if negb (startsWithBonus (phase room)) then reject s [] PhaseNotAllowed
    else commit s c (backToLobby room now) now [])).

(** One iteration of the loop of the [disconnect] handler.  The registry
    stores every room under its own code, so the loop visits the entries the
    map had when the handler started. *)
Definition disconnectRoom (sock : string) (now : Z)
    (acc : Server * list Effect) (entry : string * Room)
    : Server * list Effect :=
  let '(s, effs) := acc in
  let room := snd entry in
  if negb (JsMap.has (players room) sock) then acc
  else
    let wasHost := String.eqb (hostSocketId room) sock in
    let r1 := withPlayers room (JsMap.delete (players room) sock) in
    if wasHost then
      let '(s1, r2) := clearTossupEndTimeout s r1 in
      (withRooms s1 (JsMap.delete (rooms s1) (code r2)),
       (effs ++ [EmitRoom (code r2) (ErrorMsg "Host disconnected. Room closed.")])%list)
    else
      (withRooms s (JsMap.set (rooms s) (fst entry) r1),
       (effs ++ [broadcast r1 now])%list).

Definition disconnect (s : Server) (sock : string) (now : Z) : Result :=
  let '(s', effs) := fold_left (disconnectRoom sock now) (rooms s) (s, []) in
  mkResult s' effs Accepted.

(** ** Messages and the event loop *)

Inductive Message :=
| CreateRoom (hostName : option string) (roomNameArg : string)
    (numTeams : JsNumber) (random : nat -> Q) (nanoid : nat -> string)
| HostSetRoomName (codeArg roomNameArg : string)
| HostSetTeamName (codeArg : string) (tid : option string) (nameArg : string)
| JoinRoom (codeArg nameArg : string) (tid : option string) (spectate : bool)
| SetTeam
| HostStartTossupReading (codeArg : string)
| HostDoneReadingTossup (codeArg : string)
| BuzzMsg (codeArg : string)
| HostClearBuzz (codeArg : string)
| HostSetInterruptChoice (codeArg : string) (interrupt : bool)
| HostMarkAnswer (codeArg : string) (correct : bool)
| HostDoneReadingBonus (codeArg : string)
| HostAwardBonus (codeArg : string) (points : JsNumber)
| HostSkipBonus (codeArg : string)
| Disconnect.

Definition handle_message (s : Server) (sock : string) (now : Z)
    (m : Message) : Result :=
  match m with
  | CreateRoom hn rn n random nanoid => create_room s sock now hn rn n random nanoid
  | HostSetRoomName c rn => host_set_room_name s sock now c rn
  | HostSetTeamName c tid nm => host_set_team_name s sock now c tid nm
  | JoinRoom c nm tid sp => join_room s sock now c nm tid sp
  | SetTeam => set_team s
  | HostStartTossupReading c => host_start_tossup_reading s sock now c
  | HostDoneReadingTossup c => host_done_reading_tossup s sock now c
  | BuzzMsg c => buzz_handler s sock now c
  | HostClearBuzz c => host_clear_buzz s sock now c
  | HostSetInterruptChoice c i => host_set_interrupt_choice s sock now c i
  | HostMarkAnswer c ok => host_mark_answer s sock now c ok
  | HostDoneReadingBonus c => host_done_reading_bonus s sock now c
  | HostAwardBonus c pts => host_award_bonus s sock now c pts
  | HostSkipBonus c => host_skip_bonus s sock now c
  | Disconnect => disconnect s sock now
  end.

(** What the event loop delivers: a message of a socket, or a timeout that
    has come due. *)
Inductive Event :=
| FromSocket (sock : string) (m : Message)
| TimeoutFires (h : nat).

Definition step (s : Server) (now : Z) (e : Event) : Server :=
  match e with
  | FromSocket sock m => server (handle_message s sock now m)
  | TimeoutFires h => fst (fireTimeout s now h)
  end.

(** Runs the events in order, each at its own clock reading. *)
Fixpoint run (s : Server) (evs : list (Z * Event)) : Server :=
  match evs with
  | [] => s
  | (now, e) :: rest => run (step s now e) rest
  end.

Inductive reachable : Server -> Prop :=
| reachable_init : reachable initServer
| reachable_step s now e : reachable s -> reachable (step s now e).


(** ** Invariants of the states the server can reach *)

(** A player's team, when set, is a team of the room. *)
Definition player_ok (ts : JsMap.t Team) (kp : string * Player) : Prop :=
  forall tid, teamId (snd kp) = Some tid -> JsMap.has ts tid = true.

Record room_ok (r : Room) : Prop := mkRoomOk {
  ok_team_keys : NoDup (JsMap.keys (teams r));
  ok_remaining : 0 <= remainingMs (timer r);
  ok_settings :
    0 <= tossupSeconds (settings r) /\ 0 <= bonusSeconds (settings r);
  ok_players : Forall (player_ok (teams r)) (players r);
  ok_winner :
    forall ws wn wt a ic,
      buzz r = Locked ws wn wt a ic ->
      JsString.truthy wt = true /\ JsMap.has (teams r) wt = true;
  ok_live_lock :
    locked (buzz r) = true -> phase r = TossupLive ->
    running (timer r) = false
}.

Definition entry_ok (kr : string * Room) : Prop :=
  code (snd kr) = fst kr /\ room_ok (snd kr).

Definition server_ok (s : Server) : Prop :=
  NoDup (JsMap.keys (rooms s)) /\ Forall entry_ok (rooms s).

(** An entry of a ledger row with its running score replaced. *)
Definition withRowScore (e : RowEntry) (q : Q) : RowEntry :=
  mkRowEntry (rowP e) (rowTU e) (rowB e) q.

(** ** Sample sessions

    Concrete runs of the server used to exercise the statements below.  The
    host is socket "h", the players "a" and "b"; [Math.random] always
    returns 0, so the room code is "AAAAAA". *)

Definition sampleIds (i : nat) : string :=
  nth i ["t1"; "t2"; "t3"; "t4"; "t5"; "t6"; "t7"; "t8"] "".

Definition zeroDraws (i : nat) : Q := 0.

Definition sessionJoined : list (Z * Event) :=
  [ (1000, FromSocket "h" (CreateRoom (Some "Ann") "" (JFin 2) zeroDraws sampleIds));
    (1100, FromSocket "a" (JoinRoom "aaaaaa" "Al" (Some "t1") false));
    (1150, FromSocket "b" (JoinRoom "aaaaaa" "Bo" (Some "t2") false)) ].

Definition sessionLive : list (Z * Event) :=
  (sessionJoined
   ++ [ (1200, FromSocket "h" (HostStartTossupReading "AAAAAA"));
        (1300, FromSocket "h" (HostDoneReadingTossup "AAAAAA")) ])%list.

Definition sessionBuzzed : list (Z * Event) :=
  (sessionLive ++ [ (3300, FromSocket "a" (BuzzMsg "AAAAAA")) ])%list.

Definition sessionClassified (interrupt : bool) : list (Z * Event) :=
  (sessionBuzzed
   ++ [ (3400, FromSocket "h" (HostSetInterruptChoice "AAAAAA" interrupt)) ])%list.

(** ** Statements checked against the handlers *)

(** Clear-buzz read as re-arming the toss-up end whenever the live toss-up
    clock still shows time: after the command the room holds a pending end
    callback. *)
Definition clear_buzz_rearms (s : Server) (sock : string) (now : Z)
    (codeArg : string) : Prop :=
  forall room,
    JsMap.get (rooms s) (normCode codeArg) = Some room ->
    hostSocketId room = sock ->
    locked (buzz room) = true ->
    phase room = TossupLive ->
    0 < snapRemainingMs (computeTimerSnapshot room now) ->
    exists room' h,
      JsMap.get (rooms (server (host_clear_buzz s sock now codeArg)))
        (normCode codeArg) = Some room'
      /\ buzz room' = Unlocked
      /\ phase room' = TossupLive
      /\ tossupEndTimeout room' = Some h
      /\ In h (map handle (pending (server (host_clear_buzz s sock now codeArg)))).

(** Every rejection answered with an error notice to its sender, the state
    untouched and nothing sent to a room. *)
Definition rejection_notifies_sender (s : Server) (sock : string) (now : Z)
    (m : Message) : Prop :=
  forall why,
    verdict (handle_message s sock now m) = Rejected why ->
    (exists msg,
        In (EmitSocket sock (ErrorMsg msg))
           (effects (handle_message s sock now m)))
    /\ server (handle_message s sock now m) = s
    /\ (forall c ev,
          ~ In (EmitRoom c ev) (effects (handle_message s sock now m))).

(** The number of teams [create_room] is asked for: the rounded count kept
    within 2 and 8, and 2 for a count that is not finite. *)
Definition requestedTeams (numTeams : JsNumber) : nat :=
  Z.to_nat
    (match numTeams with
     | JFin n => Z.min 8 (Z.max 2 (mathRound n))
     | _ => 2
     end).

(** The room a [create_room] call registers has as many teams as requested. *)
Definition creates_requested_teams (s : Server) (sock : string) (now : Z)
    (hostName : option string) (roomNameArg : string) (numTeams : JsNumber)
    (random : nat -> Q) (nanoid : nat -> string) : Prop :=
  exists room,
    JsMap.get
      (rooms (server (create_room s sock now hostName roomNameArg numTeams
                        random nanoid)))
      (genCode random) = Some room
    /\ List.length (teams room) = requestedTeams numTeams.

(** The code a [create_room] call generates belongs to no registered room,
    and every registered room is still there afterwards. *)
Definition creates_fresh_code (s : Server) (sock : string) (now : Z)
    (hostName : option string) (roomNameArg : string) (numTeams : JsNumber)
    (random : nat -> Q) (nanoid : nat -> string) : Prop :=
  JsMap.get (rooms s) (genCode random) = None
  /\ forall c r,
       JsMap.get (rooms s) c = Some r ->
       JsMap.get
         (rooms (server (create_room s sock now hostName roomNameArg numTeams
                           random nanoid))) c = Some r.

Definition sameId (i : nat) : string := "t1".

(** The team recorded for a socket in a room, if the socket is a player
    there and has one. *)
Definition teamOf (s : Server) (c sock : string) : option string :=
  match JsMap.get (rooms s) c with
  | Some room =>
      match JsMap.get (players room) sock with
      | Some pl => teamId pl
      | None => None
      end
  | None => None
  end.

(** ** Buzz arbitration along a run *)

(** The buzz of room [c] is locked to team [tid]. *)
Definition holdsLock (s : Server) (c tid : string) : bool :=
  match JsMap.get (rooms s) c with
  | Some room =>
      match buzz room with
      | Locked _ _ wt _ _ => String.eqb wt tid
      | Unlocked => false
      end
  | None => false
  end.

Definition lockedOut (s : Server) (c tid : string) : bool :=
  match JsMap.get (rooms s) c with
  | Some room => JsSet.has (tossupLockedTeams room) tid
  | None => false
  end.

(** The event hands the lock of room [c] to team [tid]. *)
Definition acquires (s : Server) (c tid : string) (now : Z) (e : Event)
    : bool :=
  negb (holdsLock s c tid) && holdsLock (step s now e) c tid.

Fixpoint neverAcquires (s : Server) (c tid : string)
    (evs : list (Z * Event)) : Prop :=
  match evs with
  | [] => True
  | (now, e) :: rest =>
      acquires s c tid now e = false /\ neverAcquires (step s now e) c tid rest
  end.

Definition startsTossupReading (c : string) (e : Event) : bool :=
  match e with
  | FromSocket _ (HostStartTossupReading codeArg) =>
      String.eqb (normCode codeArg) c
  | _ => false
  end.

(** The messages whose handler empties [tossupLockedTeams] of room [c], or
    puts a new room under that code. *)
Definition resetsLockout (c : string) (e : Event) : bool :=
  match e with
  | FromSocket _ (HostStartTossupReading codeArg)
  | FromSocket _ (HostAwardBonus codeArg _)
  | FromSocket _ (HostSkipBonus codeArg) => String.eqb (normCode codeArg) c
  | FromSocket _ (CreateRoom _ _ _ random _) => String.eqb (genCode random) c
  | _ => false
  end.

(** A locked-out team stays away from the lock until the next
    start-tossup-reading. *)
Definition lockout_until_next_reading (s : Server) (c tid : string)
    (evs : list (Z * Event)) : Prop :=
  lockedOut s c tid = true ->
  forallb (fun ne => negb (startsTossupReading c (snd ne))) evs = true ->
  neverAcquires s c tid evs.

(** How one event may change the lockout set and the buzz of a room: no team
    leaves the set, and a locked buzz either was locked to the same winner
    or was taken from an unlocked buzz by a team outside the set. *)
Definition lock_step (room room' : Room) : Prop :=
  (forall t,
      JsSet.has (tossupLockedTeams room) t = true ->
      JsSet.has (tossupLockedTeams room') t = true)
  /\ (forall ws wn wt a ic,
        buzz room' = Locked ws wn wt a ic ->
        (exists ic0, buzz room = Locked ws wn wt a ic0)
        \/ (buzz room = Unlocked
            /\ JsSet.has (tossupLockedTeams room) wt = false)).

Definition lock_evolves (s s' : Server) (c : string) : Prop :=
  match JsMap.get (rooms s') c with
  | None => True
  | Some room' =>
      exists room, JsMap.get (rooms s) c = Some room /\ lock_step room room'
  end.

(** After a wrong answer of team "t1" in the sample session: the team is
    locked out and the toss-up is live again. *)
Definition sessionLockedOut : list (Z * Event) :=
  (sessionClassified false
   ++ [ (3500, FromSocket "h" (HostMarkAnswer "AAAAAA" false)) ])%list.

(** Team "t2" answers correctly, the bonus is skipped, and the host goes
    live again without a start-tossup-reading; then "a" of team "t1"
    buzzes. *)
Definition sessionSkipBonus : list (Z * Event) :=
  [ (4000, FromSocket "b" (BuzzMsg "AAAAAA"));
    (4100, FromSocket "h" (HostSetInterruptChoice "AAAAAA" false));
    (4200, FromSocket "h" (HostMarkAnswer "AAAAAA" true));
    (4300, FromSocket "h" (HostSkipBonus "AAAAAA"));
    (4400, FromSocket "h" (HostDoneReadingTossup "AAAAAA"));
    (4500, FromSocket "a" (BuzzMsg "AAAAAA")) ].

(** Team [tid] cannot buzz in room [c]: it is locked out there, or there is
    no such room. *)
Definition barred (s : Server) (c tid : string) : Prop :=
  match JsMap.get (rooms s) c with
  | Some room => JsSet.has (tossupLockedTeams room) tid = true
  | None => True
  end.

(** Events that leave the lockout of team "t1" in place: its own buzz, the
    buzz of the other team, the host clearing it, a re-read, and the end of
    the clock. *)
Definition sessionNoReset : list (Z * Event) :=
  [ (3600, FromSocket "a" (BuzzMsg "AAAAAA"));
    (3700, FromSocket "b" (BuzzMsg "AAAAAA"));
    (3800, FromSocket "h" (HostClearBuzz "AAAAAA"));
    (3900, FromSocket "h" (HostDoneReadingTossup "AAAAAA"));
    (4000, FromSocket "a" (BuzzMsg "AAAAAA"));
    (9000, TimeoutFires 2);
    (9100, FromSocket "a" (BuzzMsg "AAAAAA")) ].

(** ** Further statements about the server code *)

(** A string made of characters that are neither blank nor lower-case
    letters. *)
Fixpoint isCode (s : string) : bool :=
  match s with
  | EmptyString => true
  | String c rest =>
      negb (JsString.isSpace c)
      && Ascii.eqb (JsString.upperChar c) c
      && isCode rest
  end.

Definition seventhDraws (i : nat) : Q := Z.of_nat i # 7.

(** How phase, bonus team, timer, lockouts and membership of a room fit
    together. *)
Record room_coherent (r : Room) : Prop := mkRoomCoherent {
  coh_bonus_team :
    match activeBonusTeamId r with
    | Some tid =>
        startsWithBonus (phase r) = true
        /\ JsString.truthy tid = true
        /\ JsMap.has (teams r) tid = true
    | None => startsWithBonus (phase r) = false
    end;
  coh_bonus_unlocked : startsWithBonus (phase r) = true -> buzz r = Unlocked;
  coh_mode :
    mode (timer r)
    = if startsWithBonus (phase r) then BonusMode else TossupMode;
  coh_running :
    running (timer r) = true -> phase r = TossupLive \/ phase r = BonusLive;
  coh_paused : running (timer r) = false -> endsAtMs (timer r) = 0;
  coh_locked_teams :
    forall t,
      JsSet.has (tossupLockedTeams r) t = true -> JsMap.has (teams r) t = true;
  coh_locked_nodup : NoDup (tossupLockedTeams r);
  coh_host_player : JsMap.has (players r) (hostSocketId r) = true;
  coh_players_nodup : NoDup (JsMap.keys (players r));
  coh_team_keys : Forall (fun kt => teamKey (snd kt) = fst kt) (teams r);
  coh_player_keys : Forall (fun kp => socketId (snd kp) = fst kp) (players r);
  coh_winner_free :
    forall ws wn wt a ic,
      buzz r = Locked ws wn wt a ic ->
      JsSet.has (tossupLockedTeams r) wt = false
}.

Definition server_coherent (s : Server) : Prop :=
  Forall (fun kr => room_coherent (snd kr)) (rooms s).

(** What a disconnecting socket leaves of a room: nothing when it is the
    host, the room without that player when it is another member, the room
    itself otherwise. *)
Definition afterDisconnect (sock : string) (room : Room) : option Room :=
  if JsMap.has (players room) sock then
    if String.eqb (hostSocketId room) sock then None
    else Some (withPlayers room (JsMap.delete (players room) sock))
  else Some room.

Definition sessionBonus : list (Z * Event) :=
  (sessionClassified false
   ++ [ (3500, FromSocket "h" (HostMarkAnswer "AAAAAA" true)) ])%list.

(** The entries of a row are keyed by the ids of the teams: no key twice,
    and a key is present exactly when it is the id of a team. *)
Definition row_keyed (ts : JsMap.t Team) (row : Row) : Prop :=
  NoDup (JsMap.keys (rowTeams row))
  /\ forall k, JsMap.has (rowTeams row) k = JsMap.has ts k.

(** The shape of a ledger for a room's teams: the counter equals the number
    of rows, the rows are numbered 1, 2, ... in order, and every row has one
    entry per team, under the team's id. *)
Definition ledger_shape (ts : JsMap.t Team) (m : Match) : Prop :=
  tossupNumber m = Z.of_nat (List.length (rows m))
  /\ (forall i row, nth_error (rows m) i = Some row -> num row = Z.of_nat i + 1)
  /\ Forall (row_keyed ts) (rows m).

(** The running scores of the last row are the scores of the teams. *)
Definition ledger_scores (ts : JsMap.t Team) (m : Match) : Prop :=
  forall row k t e,
    last (map Some (rows m)) None = Some row ->
    JsMap.get ts k = Some t ->
    JsMap.get (rowTeams row) k = Some e ->
    rowScore e = score t.

Definition room_ledger (r : Room) : Prop :=
  ledger_shape (teams r) (matchLog r) /\ ledger_scores (teams r) (matchLog r).

Definition server_ledger (s : Server) : Prop :=
  Forall (fun kr => room_ledger (snd kr)) (rooms s).

(** A score is a binary64 number that is not negative. *)
Definition score_ok (kt : string * Team) : Prop :=
  (0 <= score (snd kt))%Q /\ toDouble (score (snd kt)) = score (snd kt).

Definition room_scores (r : Room) : Prop := Forall score_ok (teams r).

Definition server_scores (s : Server) : Prop :=
  Forall (fun kr => room_scores (snd kr)) (rooms s).

(** What stays and what only grows in a room from one state to a later
    one: code, host and settings stay; the teams stay, in order, with their
    keys, and no score goes down; the ledger loses no row. *)
Definition room_grows (room room' : Room) : Prop :=
  code room' = code room
  /\ hostSocketId room' = hostSocketId room
  /\ settings room' = settings room
  /\ JsMap.keys (teams room') = JsMap.keys (teams room)
  /\ (forall k t,
        JsMap.get (teams room) k = Some t ->
        exists t',
          JsMap.get (teams room') k = Some t'
          /\ teamKey t' = teamKey t /\ (score t <= score t')%Q)
  /\ (List.length (rows (matchLog room))
      <= List.length (rows (matchLog room')))%nat.

Definition grows_at (s s' : Server) (c : string) : Prop :=
  match JsMap.get (rooms s') c with
  | None => True
  | Some room' =>
      exists room, JsMap.get (rooms s) c = Some room /\ room_grows room room'
  end.

Definition createsCode (c : string) (e : Event) : bool :=
  match e with
  | FromSocket _ (CreateRoom _ _ _ random _) => String.eqb (genCode random) c
  | _ => false
  end.

(** The sample session continued through a bonus: the bonus is read and ten
    points are awarded. *)
Definition sessionAwarded : list (Z * Event) :=
  (sessionBonus
   ++ [ (4000, FromSocket "h" (HostDoneReadingBonus "AAAAAA"));
        (9000, FromSocket "h" (HostAwardBonus "AAAAAA" (JFin 10))) ])%list.

(** The room code carried by a message that only the host may send. *)
Definition hostOnlyCode (m : Message) : option string :=
  match m with
  | HostSetRoomName c _ | HostSetTeamName c _ _ | HostStartTossupReading c
  | HostDoneReadingTossup c | HostClearBuzz c | HostSetInterruptChoice c _
  | HostMarkAnswer c _ | HostDoneReadingBonus c | HostAwardBonus c _
  | HostSkipBonus c => Some c
  | _ => None
  end.

(** The room code carried by any message that names a room. *)
Definition messageCode (m : Message) : option string :=
  match m with
  | JoinRoom c _ _ _ | BuzzMsg c => Some c
  | _ => hostOnlyCode m
  end.

(** A create-room whose generated code is already registered. *)
Definition collides (s : Server) (e : Event) : bool :=
  match e with
  | FromSocket _ (CreateRoom _ _ _ random _) =>
      JsMap.has (rooms s) (genCode random)
  | _ => false
  end.

(** No create-room of the run generates a code that is registered at that
    moment. *)
Fixpoint collision_free (s : Server) (evs : list (Z * Event)) : bool :=
  match evs with
  | [] => true
  | (now, e) :: rest =>
      negb (collides s e) && collision_free (step s now e) rest
  end.

(** The pending callback is the one remembered by the room registered under
    the code it captured. *)
Definition callback_owned (rs : JsMap.t Room) (pt : PendingTimeout) : Prop :=
  exists r,
    JsMap.get rs (capturedCode pt) = Some r
    /\ tossupEndTimeout r = Some (handle pt).

Definition timeouts_owned (s : Server) : Prop :=
  NoDup (map handle (pending s))
  /\ Forall (fun pt => (handle pt < nextHandle s)%nat) (pending s)
  /\ Forall (callback_owned (rooms s)) (pending s).

(** Two rooms are created under the same code while the first has a toss-up
    live: [Math.random] returns 0 for both. *)
Definition sessionCollision : list (Z * Event) :=
  (sessionLive
   ++ [ (1400, FromSocket "g" (CreateRoom (Some "Gus") "" (JFin 2) zeroDraws sampleIds));
        (1500, FromSocket "g" (HostDoneReadingTossup "AAAAAA")) ])%list.

(** The phase changes one event can make: a toss-up is read or goes live
    from any phase outside a bonus, closes only from live, turns into a bonus
    only while it is read or live; a bonus goes from reading to live and ends
    in the lobby. *)
Definition phase_next (p p' : Phase) : bool :=
  match p, p' with
  | Lobby, (Lobby | TossupReading | TossupLive) => true
  | TossupReading, (TossupReading | TossupLive | BonusReading) => true
  | TossupLive, (TossupLive | TossupReading | TossupClosed | BonusReading) =>
      true
  | TossupClosed, (TossupClosed | TossupReading | TossupLive) => true
  | BonusReading, (BonusReading | BonusLive | Lobby) => true
  | BonusLive, (BonusLive | Lobby) => true
  | _, _ => false
  end.

(** A buzz is locked only while a toss-up is read or live. *)
Definition lock_phase (r : Room) : Prop :=
  locked (buzz r) = true -> phase r = TossupReading \/ phase r = TossupLive.

Definition phase_step (room room' : Room) : Prop :=
  lock_phase room ->
  lock_phase room' /\ phase_next (phase room) (phase room') = true.

Definition moves_at (s s' : Server) (c : string) : Prop :=
  match JsMap.get (rooms s') c with
  | None => True
  | Some room' =>
      exists room, JsMap.get (rooms s) c = Some room /\ phase_step room room'
  end.

(** The sample session after a full round: the bonus was awarded and the
    next toss-up is read and live. *)
Definition sessionSecondLive : list (Z * Event) :=
  (sessionAwarded
   ++ [ (9100, FromSocket "h" (HostStartTossupReading "AAAAAA"));
        (9200, FromSocket "h" (HostDoneReadingTossup "AAAAAA")) ])%list.

(** ** Marking an answer in a room whose ledger has no row *)

(** The host goes live without having started the reading of a toss-up, so
    the ledger of the room is still empty when player "a" buzzes and the
    host classifies the buzz. *)
Definition sessionNoRow (interrupt : bool) : list (Z * Event) :=
  (sessionJoined
   ++ [ (1300, FromSocket "h" (HostDoneReadingTossup "AAAAAA"));
        (3300, FromSocket "a" (BuzzMsg "AAAAAA"));
        (3400, FromSocket "h" (HostSetInterruptChoice "AAAAAA" interrupt)) ])%list.

(** The field of a team's entry in the current row, zero when the row or
    the entry is missing. *)
Definition currentDelta (room : Room) (tid : string) (f : RowEntry -> Q) : Q :=
  match currentRow room with
  | Some row =>
      match JsMap.get (rowTeams row) tid with
      | Some e => f e
      | None => 0%Q
      end
  | None => 0%Q
  end.

(** Mark-correct read as recording the four points in the current ledger
    row of every room: after the command the buzzing team has four more
    points and the room has a current row whose entry for the team carries
    four more under [tu] and the team's new score. *)
Definition correct_recorded_in_row (s : Server) (sock : string) (now : Z)
    (codeArg : string) : Prop :=
  forall room ws wn tid a interrupt team,
    JsMap.get (rooms s) (normCode codeArg) = Some room ->
    hostSocketId room = sock ->
    buzz room = Locked ws wn tid a (Some interrupt) ->
    JsMap.get (teams room) tid = Some team ->
    exists room' row' e',
      JsMap.get (rooms (server (host_mark_answer s sock now codeArg true)))
        (normCode codeArg) = Some room'
      /\ JsMap.get (teams room') tid
         = Some (mkTeam (teamKey team) (teamName team) (jsAdd (score team) 4))
      /\ currentRow room' = Some row'
      /\ JsMap.get (rowTeams row') tid = Some e'
      /\ rowTU e' = jsAdd (currentDelta room tid rowTU) 4
      /\ rowScore e' = jsAdd (score team) 4.

(** Mark-incorrect on an interrupt read as recording the four points of the
    other team in the current ledger row of every room. *)
Definition interrupt_recorded_in_row (s : Server) (sock : string) (now : Z)
    (codeArg : string) : Prop :=
  forall room ws wn tid a otherId other,
    JsMap.get (rooms s) (normCode codeArg) = Some room ->
    hostSocketId room = sock ->
    buzz room = Locked ws wn tid a (Some true) ->
    otherTeamId room tid = Some otherId ->
    JsMap.get (teams room) otherId = Some other ->
    exists room' row' e',
      JsMap.get (rooms (server (host_mark_answer s sock now codeArg false)))
        (normCode codeArg) = Some room'
      /\ JsMap.get (teams room') otherId
         = Some (mkTeam (teamKey other) (teamName other)
                   (jsAdd (score other) 4))
      /\ currentRow room' = Some row'
      /\ JsMap.get (rowTeams row') otherId = Some e'
      /\ rowP e' = jsAdd (currentDelta room otherId rowP) 4
      /\ rowScore e' = jsAdd (score other) 4.

(** A room whose second team drew an id made of digits only, with a toss-up
    being read. *)
Definition digitIds (i : nat) : string :=
  nth i ["Vx3k_a"; "482913"] "".

Definition sessionDigitIds : list (Z * Event) :=
  [ (1000, FromSocket "h" (CreateRoom (Some "Ann") "" (JFin 2) zeroDraws digitIds));
    (1200, FromSocket "h" (HostStartTossupReading "AAAAAA")) ].
(** * Properties *)

(** ** Insertion-ordered maps *)

Section JsMapFacts.
Variable V : Type.
Implicit Types (m : JsMap.t V) (k : string) (v : V).

Lemma get_set_eq m k v : JsMap.get (JsMap.set m k v) k = Some v.
Proof.
  induction m as [|[k' v'] m IH]; simpl.
  - now rewrite String.eqb_refl.
  - destruct (String.eqb k' k) eqn:E; simpl; rewrite E; auto.
Qed.

Lemma get_set_ne m k k' v :
  k <> k' -> JsMap.get (JsMap.set m k v) k' = JsMap.get m k'.
Proof.
  intros Hne. induction m as [|[k0 v0] m IH]; simpl.
  - apply String.eqb_neq in Hne. now rewrite Hne.
  - destruct (String.eqb k0 k) eqn:E; simpl.
    + apply String.eqb_eq in E. subst k0.
      apply String.eqb_neq in Hne. now rewrite Hne.
    + destruct (String.eqb k0 k'); auto.
Qed.

Lemma get_In m k v : JsMap.get m k = Some v -> In (k, v) m.
Proof.
  induction m as [|[k' v'] m IH]; simpl; [discriminate|].
  destruct (String.eqb k' k) eqn:E.
  - apply String.eqb_eq in E. intros [= ->]. subst. now left.
  - intros H. right. auto.
Qed.

Lemma get_None_keys m k : JsMap.get m k = None -> ~ In k (JsMap.keys m).
Proof.
  induction m as [|[k' v'] m IH]; simpl; [tauto|].
  destruct (String.eqb k' k) eqn:E; [discriminate|].
  apply String.eqb_neq in E. intros H [Hk|Hk]; [congruence|]. now apply IH.
Qed.

Lemma In_keys_get m k : In k (JsMap.keys m) -> exists v, JsMap.get m k = Some v.
Proof.
  induction m as [|[k' v'] m IH]; simpl; [tauto|].
  destruct (String.eqb k' k) eqn:E; [eauto|].
  apply String.eqb_neq in E. intros [Hk|Hk]; [congruence|auto].
Qed.

Lemma In_get m k v :
  NoDup (JsMap.keys m) -> In (k, v) m -> JsMap.get m k = Some v.
Proof.
  induction m as [|[k' v'] m IH]; simpl; [tauto|].
  intros Hnd [Hin|Hin].
  - injection Hin as -> ->. now rewrite String.eqb_refl.
  - inversion Hnd as [|? ? Hnot Hnd']; subst.
    destruct (String.eqb k' k) eqn:E.
    + apply String.eqb_eq in E. subst k'. exfalso. apply Hnot.
      change k with (fst (k, v)). now apply in_map.
    + auto.
Qed.

Lemma keys_set m k v :
  JsMap.keys (JsMap.set m k v)
  = if JsMap.has m k then JsMap.keys m else (JsMap.keys m ++ [k])%list.
Proof.
  unfold JsMap.has.
  induction m as [|[k' v'] m IH]; simpl; auto.
  destruct (String.eqb k' k) eqn:E; simpl; auto.
  rewrite IH. now destruct (JsMap.get m k).
Qed.

Lemma has_true_keys m k : JsMap.has m k = true <-> In k (JsMap.keys m).
Proof.
  unfold JsMap.has. split.
  - destruct (JsMap.get m k) eqn:E; [|discriminate].
    intros _. apply get_In in E. change k with (fst (k, v)). now apply in_map.
  - intros H. apply In_keys_get in H as [v ->]. reflexivity.
Qed.

Lemma NoDup_keys_set m k v :
  NoDup (JsMap.keys m) -> NoDup (JsMap.keys (JsMap.set m k v)).
Proof.
  intros Hnd. rewrite keys_set.
  destruct (JsMap.has m k) eqn:E; auto.
  apply NoDup_app; auto.
  - repeat constructor. simpl. tauto.
  - intros x Hx [<-|[]]. apply has_true_keys in Hx. congruence.
Qed.

Lemma has_set m k v k' :
  JsMap.has (JsMap.set m k v) k' = String.eqb k k' || JsMap.has m k'.
Proof.
  unfold JsMap.has. destruct (String.eqb k k') eqn:E.
  - apply String.eqb_eq in E. subst. now rewrite get_set_eq.
  - apply String.eqb_neq in E. now rewrite get_set_ne.
Qed.

Lemma Forall_set (P : string * V -> Prop) m k v :
  Forall P m -> P (k, v) -> Forall P (JsMap.set m k v).
Proof.
  intros Hm Hv. induction Hm as [|[k' v'] m Hx Hm IH]; simpl.
  - constructor; auto.
  - destruct (String.eqb k' k) eqn:E; constructor; auto.
    apply String.eqb_eq in E. now subst k'.
Qed.

Lemma Forall_delete (P : string * V -> Prop) m k :
  Forall P m -> Forall P (JsMap.delete m k).
Proof.
  intros Hm. induction Hm as [|[k' v'] m Hx Hm IH]; simpl; auto.
  destruct (String.eqb k' k); auto.
Qed.

Lemma keys_delete_incl m k x :
  In x (JsMap.keys (JsMap.delete m k)) -> In x (JsMap.keys m).
Proof.
  induction m as [|[k' v'] m IH]; simpl; auto.
  destruct (String.eqb k' k); simpl; tauto.
Qed.

Lemma NoDup_keys_delete m k :
  NoDup (JsMap.keys m) -> NoDup (JsMap.keys (JsMap.delete m k)).
Proof.
  induction m as [|[k' v'] m IH]; simpl; auto.
  intros Hnd. inversion Hnd as [|? ? Hnot Hnd']; subst.
  destruct (String.eqb k' k); simpl; auto.
  constructor; auto. intros H. apply Hnot. eapply keys_delete_incl; eauto.
Qed.

Lemma get_delete_eq m k :
  NoDup (JsMap.keys m) -> JsMap.get (JsMap.delete m k) k = None.
Proof.
  induction m as [|[k' v'] m IH]; simpl; auto.
  intros Hnd. inversion Hnd as [|? ? Hnot Hnd']; subst.
  destruct (String.eqb k' k) eqn:E; simpl.
  - apply String.eqb_eq in E. subst k'.
    destruct (JsMap.get m k) eqn:G; auto.
    apply get_In in G. exfalso. apply Hnot.
    change k with (fst (k, v)). now apply in_map.
  - rewrite E. auto.
Qed.

Lemma get_delete_ne m k k' :
  k <> k' -> JsMap.get (JsMap.delete m k) k' = JsMap.get m k'.
Proof.
  intros Hne. induction m as [|[k0 v0] m IH]; simpl; auto.
  destruct (String.eqb k0 k) eqn:E; simpl.
  - apply String.eqb_eq in E. subst k0.
    apply String.eqb_neq in Hne. now rewrite Hne.
  - destruct (String.eqb k0 k'); auto.
Qed.
End JsMapFacts.

(** ** Binary64 rounding *)

Section Doubles.
Local Open Scope Q_scope.

Lemma roundHalfEven_comp q1 q2 : q1 == q2 -> roundHalfEven q1 = roundHalfEven q2.
Proof.
  intros E. unfold roundHalfEven.
  rewrite (Qfloor_comp _ _ E).
  assert (E2 : q1 - inject_Z (Qfloor q2) == q2 - inject_Z (Qfloor q2))
    by (rewrite E; reflexivity).
  now rewrite (Qcompare_comp _ _ E2 (1 # 2) (1 # 2) (Qeq_refl _)).
Qed.

Lemma roundHalfEven_range q :
  (Qfloor q <= roundHalfEven q <= Qfloor q + 1)%Z.
Proof.
  unfold roundHalfEven.
  destruct (q - inject_Z (Qfloor q) ?= 1 # 2); [destruct (Z.even _)| |]; lia.
Qed.

Lemma roundHalfEven_Z n : roundHalfEven (inject_Z n) = n.
Proof.
  unfold roundHalfEven. rewrite Qfloor_Z.
  destruct (Qcompare_spec (inject_Z n - inject_Z n) (1 # 2)) as [A|A|A];
    auto; exfalso; lra.
Qed.

Lemma roundHalfEven_ge q n : inject_Z n <= q -> (n <= roundHalfEven q)%Z.
Proof.
  intros H. apply Qfloor_resp_le in H. rewrite Qfloor_Z in H.
  pose proof (roundHalfEven_range q). lia.
Qed.

Lemma roundHalfEven_le q n : q <= inject_Z n -> (roundHalfEven q <= n)%Z.
Proof.
  intros H. pose proof (Qfloor_resp_le _ _ H) as Hf. rewrite Qfloor_Z in Hf.
  pose proof (roundHalfEven_range q) as Hr.
  destruct (Z.eq_dec (Qfloor q) n) as [E|E]; [|lia].
  assert (Hq : q == inject_Z n).
  { apply Qle_antisym; auto. rewrite <- E. apply Qfloor_le. }
  rewrite (roundHalfEven_comp Hq), roundHalfEven_Z. lia.
Qed.

Lemma roundHalfEven_mono q1 q2 :
  q1 <= q2 -> (roundHalfEven q1 <= roundHalfEven q2)%Z.
Proof.
  intros H. pose proof (Qfloor_resp_le _ _ H) as Hf.
  pose proof (roundHalfEven_range q1) as H1.
  pose proof (roundHalfEven_range q2) as H2.
  destruct (Z.eq_dec (Qfloor q1) (Qfloor q2)) as [E|E]; [|lia].
  unfold roundHalfEven. rewrite E.
  assert (Hd : q1 - inject_Z (Qfloor q2) <= q2 - inject_Z (Qfloor q2)) by lra.
  destruct (Qcompare_spec (q1 - inject_Z (Qfloor q2)) (1 # 2)) as [A|A|A];
    destruct (Qcompare_spec (q2 - inject_Z (Qfloor q2)) (1 # 2)) as [B|B|B];
    try destruct (Z.even (Qfloor q2)); try lia; exfalso; lra.
Qed.

Lemma pow2_pos e : 0 < pow2 e.
Proof. apply Qpower_0_lt. reflexivity. Qed.

Lemma pow2_plus a b : pow2 (a + b) == pow2 a * pow2 b.
Proof. apply Qpower_plus. discriminate. Qed.

Lemma pow2_le a b : (a <= b)%Z -> pow2 a <= pow2 b.
Proof. intros H. apply Qpower_le_compat_l; auto. discriminate. Qed.

Lemma pow2_lt_inv a b : pow2 a < pow2 b -> (a < b)%Z.
Proof. intros H. eapply Qpower_lt_compat_l_inv; eauto. reflexivity. Qed.

Lemma pow2_Z k : (0 <= k)%Z -> pow2 k == inject_Z (2 ^ k).
Proof. intros H. unfold pow2. now rewrite Zpower_Qpower. Qed.

Lemma pow2_minus a b : pow2 (a - b) == pow2 a / pow2 b.
Proof. apply Qpower_minus. discriminate. Qed.

Lemma ilog2_spec q : 0 < q -> pow2 (ilog2 q) <= q /\ q < pow2 (ilog2 q + 1).
Proof.
  intros Hq. destruct q as [n d].
  assert (Hn : (0 < n)%Z).
  { unfold Qlt in Hq. simpl in Hq. lia. }
  unfold ilog2. simpl Qnum. simpl Qden.
  set (ln := Z.log2 n). set (ld := Z.log2 (Z.pos d)).
  destruct (Z.log2_spec n Hn) as [Hn1 Hn2]. fold ln in Hn1, Hn2.
  destruct (Z.log2_spec (Z.pos d) eq_refl) as [Hd1 Hd2]. fold ld in Hd1, Hd2.
  assert (Hln : (0 <= ln)%Z) by apply Z.log2_nonneg.
  assert (Hld : (0 <= ld)%Z) by apply Z.log2_nonneg.
  assert (Eq : n # d == inject_Z n / inject_Z (Z.pos d)) by apply Qmake_Qdiv.
  assert (Hdpos : 0 < inject_Z (Z.pos d)) by reflexivity.
  assert (Hlow : pow2 (ln - ld - 1) <= n # d).
  { replace (ln - ld - 1)%Z with (ln - (ld + 1))%Z by lia.
    rewrite pow2_minus, Eq.
    pose proof (pow2_pos (ld + 1)) as Hp.
    apply Qle_shift_div_l; auto.
    setoid_replace (pow2 ln / pow2 (ld + 1) * inject_Z (Z.pos d))
      with (pow2 ln * inject_Z (Z.pos d) / pow2 (ld + 1)) by (field; lra).
    apply Qle_shift_div_r; auto.
    rewrite !pow2_Z by lia. rewrite <- !inject_Z_mult, <- Zle_Qle.
    replace (Z.succ ld) with (ld + 1)%Z in Hd2 by lia.
    apply Z.mul_le_mono_nonneg; lia. }
  assert (Hup : n # d < pow2 (ln - ld + 1)).
  { replace (ln - ld + 1)%Z with (ln + 1 - ld)%Z by lia.
    rewrite pow2_minus, Eq.
    pose proof (pow2_pos ld) as Hp.
    apply Qlt_shift_div_l; auto.
    setoid_replace (inject_Z n / inject_Z (Z.pos d) * pow2 ld)
      with (inject_Z n * pow2 ld / inject_Z (Z.pos d)) by (field; lra).
    apply Qlt_shift_div_r; auto.
    rewrite !pow2_Z by lia. rewrite <- !inject_Z_mult, <- Zlt_Qlt.
    replace (Z.succ ln) with (ln + 1)%Z in Hn2 by lia.
    apply Z.le_lt_trans with (n * Z.pos d)%Z.
    - apply Z.mul_le_mono_nonneg_l; lia.
    - apply Z.mul_lt_mono_pos_r; lia. }
  destruct (Qle_bool (pow2 (ln - ld)) (n # d)) eqn:E.
  - apply Qle_bool_iff in E. split; auto.
  - assert (Hlt : n # d < pow2 (ln - ld)).
    { apply Qnot_le_lt. intros H. apply Qle_bool_iff in H. congruence. }
    replace (ln - ld - 1 + 1)%Z with (ln - ld)%Z by lia. split; auto.
Qed.

Lemma ilog2_unique q k :
  pow2 k <= q -> q < pow2 (k + 1) -> ilog2 q = k.
Proof.
  intros H1 H2.
  assert (Hq : 0 < q) by (pose proof (pow2_pos k); lra).
  destruct (ilog2_spec Hq) as [H3 H4].
  assert (A : pow2 (ilog2 q) < pow2 (k + 1)) by lra.
  assert (B : pow2 k < pow2 (ilog2 q + 1)) by lra.
  apply pow2_lt_inv in A. apply pow2_lt_inv in B. lia.
Qed.

Lemma ilog2_mono q1 q2 : 0 < q1 -> q1 <= q2 -> (ilog2 q1 <= ilog2 q2)%Z.
Proof.
  intros H1 H12.
  destruct (ilog2_spec H1) as [A _].
  assert (H2 : 0 < q2) by lra.
  destruct (ilog2_spec H2) as [_ B].
  assert (C : pow2 (ilog2 q1) < pow2 (ilog2 q2 + 1)) by lra.
  apply pow2_lt_inv in C. lia.
Qed.

Lemma roundPos_eq q :
  roundPos q == inject_Z (roundHalfEven (q / pow2 (expo q))) * pow2 (expo q).
Proof. unfold roundPos. apply Qred_correct. Qed.

Lemma scaled_bounds q :
  0 < q ->
  q / pow2 (expo q) <= inject_Z (2 ^ 53)
  /\ ((-1074 <= ilog2 q - 52)%Z -> inject_Z (2 ^ 52) <= q / pow2 (expo q)).
Proof.
  intros Hq. destruct (ilog2_spec Hq) as [A B].
  pose proof (pow2_pos (expo q)) as He.
  split.
  - apply Qle_shift_div_r; auto.
    rewrite <- pow2_Z by lia. rewrite <- pow2_plus.
    apply Qle_trans with (pow2 (ilog2 q + 1)); [lra|].
    apply pow2_le. unfold expo. lia.
  - intros Hn. apply Qle_shift_div_l; auto.
    rewrite <- pow2_Z by lia. rewrite <- pow2_plus.
    apply Qle_trans with (pow2 (ilog2 q)); [|lra].
    apply pow2_le. unfold expo. lia.
Qed.

Lemma roundPos_nonneg q : 0 < q -> 0 <= roundPos q.
Proof.
  intros Hq. rewrite roundPos_eq.
  apply Qmult_le_0_compat; [|apply Qlt_le_weak, pow2_pos].
  change 0 with (inject_Z 0). rewrite <- Zle_Qle.
  apply roundHalfEven_ge.
  apply Qle_shift_div_l; [apply pow2_pos|].
  change (inject_Z 0) with 0. lra.
Qed.

Lemma roundPos_mono q1 q2 :
  0 < q1 -> q1 <= q2 -> roundPos q1 <= roundPos q2.
Proof.
  intros H1 H12. assert (H2 : 0 < q2) by lra.
  rewrite !roundPos_eq.
  pose proof (ilog2_mono H1 H12) as Hk.
  pose proof (pow2_pos (expo q1)) as He1.
  pose proof (pow2_pos (expo q2)) as He2.
  destruct (Z.eq_dec (expo q1) (expo q2)) as [E|E].
  - rewrite E. apply Qmult_le_compat_r; [|lra].
    rewrite <- Zle_Qle. apply roundHalfEven_mono.
    apply Qle_shift_div_l; auto.
    setoid_replace (q1 / pow2 (expo q2) * pow2 (expo q2)) with q1
      by (field; lra).
    exact H12.
  - assert (Hlt : (expo q1 < expo q2)%Z) by (unfold expo in *; lia).
    assert (Hn2 : (-1074 <= ilog2 q2 - 52)%Z) by (unfold expo in *; lia).
    assert (He : expo q2 = (ilog2 q2 - 52)%Z) by (unfold expo in *; lia).
    destruct (scaled_bounds H1) as [U _].
    destruct (scaled_bounds H2) as [_ L]. specialize (L Hn2).
    apply roundHalfEven_le in U. apply roundHalfEven_ge in L.
    apply Qle_trans with (pow2 (expo q1 + 53)).
    + rewrite pow2_plus, (@pow2_Z 53) by lia.
      rewrite (Qmult_comm (pow2 (expo q1))).
      apply Qmult_le_compat_r; [|lra]. now rewrite <- Zle_Qle.
    + apply Qle_trans with (pow2 (expo q2 + 52)).
      * apply pow2_le. lia.
      * rewrite pow2_plus, (@pow2_Z 52) by lia.
        rewrite (Qmult_comm (pow2 (expo q2))).
        apply Qmult_le_compat_r; [|lra]. now rewrite <- Zle_Qle.
Qed.

Lemma roundPos_comp q1 q2 : 0 < q1 -> q1 == q2 -> roundPos q1 = roundPos q2.
Proof.
  intros H1 E. assert (H2 : 0 < q2) by lra.
  assert (Ek : ilog2 q1 = ilog2 q2).
  { destruct (ilog2_spec H2) as [A B]. apply ilog2_unique; lra. }
  assert (Ee : expo q1 = expo q2) by (unfold expo; now rewrite Ek).
  unfold roundPos. rewrite Ee. apply Qred_complete.
  rewrite (@roundHalfEven_comp (q1 / pow2 (expo q2)) (q2 / pow2 (expo q2))).
  - reflexivity.
  - now rewrite E.
Qed.

(** A value with a 53-bit significand and an exponent in range is a double. *)
Lemma roundPos_canonical m e :
  (0 < m < 2 ^ 53)%Z -> (-1074 <= e)%Z ->
  roundPos (inject_Z m * pow2 e) == inject_Z m * pow2 e.
Proof.
  intros Hm He. set (x := inject_Z m * pow2 e).
  pose proof (pow2_pos e) as Hpe.
  assert (Hmq : 0 < inject_Z m) by (change 0 with (inject_Z 0); rewrite <- Zlt_Qlt; lia).
  assert (Hx : 0 < x) by (apply Qmult_lt_0_compat; auto).
  destruct (Z.log2_spec m (proj1 Hm)) as [L1 L2].
  assert (Hl : (0 <= Z.log2 m)%Z) by apply Z.log2_nonneg.
  assert (Hl52 : (Z.log2 m <= 52)%Z).
  { assert (Z.log2 m < 53)%Z; [|lia]. apply Z.log2_lt_pow2; lia. }
  assert (Hk : ilog2 x = (Z.log2 m + e)%Z).
  { apply ilog2_unique; unfold x.
    - rewrite pow2_plus, (@pow2_Z (Z.log2 m)) by lia.
      apply Qmult_le_compat_r; [|lra]. now rewrite <- Zle_Qle.
    - replace (Z.log2 m + e + 1)%Z with (Z.succ (Z.log2 m) + e)%Z by lia.
      rewrite pow2_plus, (@pow2_Z (Z.succ (Z.log2 m))) by lia.
      apply Qmult_lt_compat_r; auto. now rewrite <- Zlt_Qlt. }
  rewrite roundPos_eq.
  set (e' := expo x).
  assert (He' : (-1074 <= e' <= e)%Z) by (unfold e', expo; rewrite Hk; lia).
  assert (Hs : x / pow2 e' == inject_Z (m * 2 ^ (e - e'))).
  { rewrite inject_Z_mult, <- pow2_Z by lia. unfold x.
    rewrite pow2_minus. field.
    pose proof (pow2_pos e'). lra. }
  rewrite (roundHalfEven_comp Hs), roundHalfEven_Z.
  rewrite inject_Z_mult, <- pow2_Z by lia. unfold x.
  rewrite pow2_minus. field. pose proof (pow2_pos e'). lra.
Qed.

Lemma roundPos_Qred x : Qred (roundPos x) = roundPos x.
Proof. unfold roundPos. apply Qred_complete, Qred_correct. Qed.

Lemma roundPos_fixed x : 0 < x -> roundPos x == x -> roundPos x = Qred x.
Proof.
  intros Hx E. rewrite <- roundPos_Qred. now apply Qred_complete.
Qed.

Lemma roundPos_idem q :
  0 < q -> 0 < roundPos q -> roundPos (roundPos q) = roundPos q.
Proof.
  intros Hq Hr.
  pose proof (roundPos_eq q) as Hv.
  set (m := roundHalfEven (q / pow2 (expo q))) in *.
  pose proof (pow2_pos (expo q)) as Hpe.
  assert (Hm0 : (0 < m)%Z).
  { destruct (Z.lt_ge_cases 0 m) as [|Hle]; auto. exfalso.
    assert (inject_Z m <= 0)
      by (change 0 with (inject_Z 0); rewrite <- Zle_Qle; lia).
    assert (inject_Z m * pow2 (expo q) <= 0 * pow2 (expo q))
      by (apply Qmult_le_compat_r; lra).
    lra. }
  destruct (scaled_bounds Hq) as [U _].
  apply roundHalfEven_le in U. fold m in U.
  assert (Hexp : (-1074 <= expo q)%Z) by (unfold expo; lia).
  rewrite <- (roundPos_Qred q) at 2.
  apply roundPos_fixed; auto.
  destruct (Z.eq_dec m (2 ^ 53)) as [E|E].
  - assert (Hv2 : roundPos q == inject_Z (2 ^ 52) * pow2 (expo q + 1)).
    { rewrite Hv, E, pow2_plus. change (pow2 1) with (2 # 1).
      change (2 ^ 53)%Z with (2 ^ 52 * 2)%Z. rewrite inject_Z_mult.
      change (inject_Z 2) with (2 # 1). ring. }
    rewrite (roundPos_comp Hr Hv2), roundPos_canonical by lia.
    symmetry. exact Hv2.
  - rewrite (roundPos_comp Hr Hv), roundPos_canonical by lia.
    symmetry. exact Hv.
Qed.

(** [toDouble] on numbers that are not negative. *)

Lemma Qnum_sign q :
  match Qnum q with
  | Z0 => q == 0
  | Zpos _ => 0 < q
  | Zneg _ => q < 0
  end.
Proof.
  destruct q as [[|p|p] d]; unfold Qeq, Qlt; simpl; auto; lia.
Qed.

Lemma toDouble_pos q : 0 < q -> toDouble q = roundPos q.
Proof.
  intros H. unfold toDouble. pose proof (Qnum_sign q) as S.
  destruct (Qnum q); auto; exfalso; lra.
Qed.

Lemma toDouble_zero q : q == 0 -> toDouble q = 0.
Proof.
  intros H. unfold toDouble. pose proof (Qnum_sign q) as S.
  destruct (Qnum q); auto; exfalso; lra.
Qed.

Lemma toDouble_nonneg q : 0 <= q -> 0 <= toDouble q.
Proof.
  intros H. destruct (Qlt_le_dec 0 q) as [Hp|Hz].
  - rewrite toDouble_pos by assumption. now apply roundPos_nonneg.
  - rewrite toDouble_zero by lra. lra.
Qed.

Lemma toDouble_mono q1 q2 :
  0 <= q1 -> q1 <= q2 -> toDouble q1 <= toDouble q2.
Proof.
  intros H1 H12. destruct (Qlt_le_dec 0 q1) as [Hp|Hz].
  - rewrite !toDouble_pos by lra. now apply roundPos_mono.
  - rewrite (@toDouble_zero q1) by lra. apply toDouble_nonneg. lra.
Qed.

Lemma Qred_zero q : q == 0 -> Qred q = 0.
Proof. intros H. now rewrite (Qred_complete _ _ H). Qed.

Lemma toDouble_idem q : 0 <= q -> toDouble (toDouble q) = toDouble q.
Proof.
  intros H. destruct (Qlt_le_dec 0 q) as [Hp|Hz].
  - rewrite (toDouble_pos Hp).
    destruct (Qlt_le_dec 0 (roundPos q)) as [Hr|Hr].
    + rewrite (toDouble_pos Hr). now apply roundPos_idem.
    + pose proof (roundPos_nonneg Hp) as Hn.
      assert (E : roundPos q == 0) by lra.
      rewrite (toDouble_zero E).
      rewrite <- roundPos_Qred. symmetry. now apply Qred_zero.
  - rewrite (@toDouble_zero q) by lra. reflexivity.
Qed.

(** Integers up to 2^53 are doubles. *)
Lemma toDouble_Z n : (0 <= n <= 2 ^ 53)%Z -> toDouble (inject_Z n) = inject_Z n.
Proof.
  intros Hn.
  assert (Hred : Qred (inject_Z n) = inject_Z n).
  { unfold Qred, inject_Z.
    pose proof (Z.ggcd_gcd n 1) as G.
    pose proof (Z.ggcd_correct_divisors n 1) as D.
    destruct (Z.ggcd n 1) as [g [aa bb]]. simpl in G, D.
    rewrite Z.gcd_1_r in G. subst g. destruct D as [D1 D2].
    replace aa with n by lia. replace bb with 1%Z by lia. reflexivity. }
  destruct (Z.eq_dec n 0) as [->|N0]; [reflexivity|].
  assert (Hp : 0 < inject_Z n)
    by (change 0 with (inject_Z 0); rewrite <- Zlt_Qlt; lia).
  rewrite (toDouble_pos Hp).
  transitivity (Qred (inject_Z n)); [|exact Hred].
  destruct (Z.eq_dec n (2 ^ 53)) as [->|N53].
  - vm_compute. reflexivity.
  - apply roundPos_fixed; auto.
    assert (E : inject_Z n == inject_Z n * pow2 0)
      by (change (pow2 0) with 1; ring).
    rewrite (roundPos_comp Hp E), roundPos_canonical by lia.
    symmetry. exact E.
Qed.

Lemma jsAdd_ge x q : 0 <= x -> toDouble x = x -> 0 <= q -> x <= jsAdd x q.
Proof.
  intros Hx Hd Hq. unfold jsAdd. rewrite <- Hd at 1.
  apply toDouble_mono; lra.
Qed.

Lemma jsAdd_double x q : 0 <= x -> 0 <= q -> toDouble (jsAdd x q) = jsAdd x q.
Proof. intros Hx Hq. apply toDouble_idem. lra. Qed.

Lemma jsAdd_Z n k :
  (0 <= n)%Z -> (0 <= k)%Z -> (n + k <= 2 ^ 53)%Z ->
  jsAdd (inject_Z n) (inject_Z k) = inject_Z (n + k).
Proof.
  intros Hn Hk Hs. unfold jsAdd.
  assert (E : inject_Z n + inject_Z k == inject_Z (n + k))
    by (rewrite inject_Z_plus; reflexivity).
  rewrite <- (@toDouble_Z (n + k)) by lia.
  destruct (Z.eq_dec (n + k) 0) as [Z0|NZ].
  - rewrite !toDouble_zero; auto. rewrite Z0. reflexivity.
    rewrite E, Z0. reflexivity.
  - assert (Hp : 0 < inject_Z n + inject_Z k).
    { rewrite E. change 0 with (inject_Z 0). rewrite <- Zlt_Qlt. lia. }
    rewrite (toDouble_pos Hp).
    assert (Hp2 : 0 < inject_Z (n + k)) by lra.
    rewrite (toDouble_pos Hp2). now apply roundPos_comp.
Qed.

End Doubles.

(** ** Plain objects *)

Section JsObjectFacts.
Variable V : Type.
Implicit Types (m : JsObject.t V) (k : string) (v : V).

Lemma get_app_fresh m k v k' :
  JsMap.get m k = None ->
  JsMap.get (m ++ [(k, v)])%list k'
  = if String.eqb k k' then Some v else JsMap.get m k'.
Proof.
  induction m as [|[k0 v0] m IH]; simpl; intros Hk.
  - reflexivity.
  - destruct (String.eqb k0 k) eqn:E0; [discriminate|].
    destruct (String.eqb k0 k') eqn:E1; auto.
    apply String.eqb_eq in E1. subst k'.
    rewrite String.eqb_sym, E0. reflexivity.
Qed.

Lemma get_insertIndex m n k v k' :
  JsMap.get m k = None ->
  JsMap.get (JsObject.insertIndex m n k v) k'
  = if String.eqb k k' then Some v else JsMap.get m k'.
Proof.
  induction m as [|[k0 v0] m IH]; simpl; intros Hk.
  - reflexivity.
  - destruct (String.eqb k0 k) eqn:E0; [discriminate|].
    destruct (JsObject.arrayIndex k0) as [n0|]; [|reflexivity].
    destruct (n0 <? n)%N; [|reflexivity].
    simpl. rewrite (IH Hk).
    destruct (String.eqb k0 k') eqn:E1; auto.
    apply String.eqb_eq in E1. subst k'.
    rewrite String.eqb_sym, E0. reflexivity.
Qed.

Lemma obj_get_set m k v k' :
  JsMap.get (JsObject.set m k v) k'
  = if String.eqb k k' then Some v else JsMap.get m k'.
Proof.
  unfold JsObject.set, JsMap.has.
  destruct (JsMap.get m k) as [v0|] eqn:G.
  - destruct (String.eqb k k') eqn:E.
    + apply String.eqb_eq in E. subst k'. apply get_set_eq.
    + apply String.eqb_neq in E. now apply get_set_ne.
  - destruct (JsObject.arrayIndex k) as [n|].
    + now apply get_insertIndex.
    + now apply get_app_fresh.
Qed.

Lemma obj_has_set m k v k' :
  JsMap.has (JsObject.set m k v) k' = String.eqb k k' || JsMap.has m k'.
Proof.
  unfold JsMap.has at 1. rewrite obj_get_set.
  destruct (String.eqb k k'); reflexivity.
Qed.

Lemma In_keys_insertIndex m n k v x :
  In x (JsMap.keys (JsObject.insertIndex m n k v))
  <-> x = k \/ In x (JsMap.keys m).
Proof.
  induction m as [|[k0 v0] m IH]; simpl.
  - intuition.
  - destruct (JsObject.arrayIndex k0) as [n0|]; [|simpl; intuition].
    destruct (n0 <? n)%N; simpl; [|intuition].
    rewrite IH. intuition.
Qed.

Lemma NoDup_keys_insertIndex m n k v :
  ~ In k (JsMap.keys m) ->
  NoDup (JsMap.keys m) -> NoDup (JsMap.keys (JsObject.insertIndex m n k v)).
Proof.
  induction m as [|[k0 v0] m IH]; simpl; intros Hk Hnd.
  - constructor; auto.
  - inversion Hnd as [|? ? Hnot Hnd']; subst.
    destruct (JsObject.arrayIndex k0) as [n0|];
      [|simpl; constructor; auto].
    destruct (n0 <? n)%N; simpl; [|constructor; auto].
    constructor.
    + rewrite In_keys_insertIndex. intros [->|H]; auto.
    + apply IH; auto.
Qed.

Lemma NoDup_keys_obj_set m k v :
  NoDup (JsMap.keys m) -> NoDup (JsMap.keys (JsObject.set m k v)).
Proof.
  intros Hnd. unfold JsObject.set.
  destruct (JsMap.has m k) eqn:H.
  - now apply NoDup_keys_set.
  - assert (Hk : ~ In k (JsMap.keys m)).
    { intros Hin. apply has_true_keys in Hin. congruence. }
    destruct (JsObject.arrayIndex k) as [n|].
    + now apply NoDup_keys_insertIndex.
    + unfold JsMap.keys. rewrite map_app. simpl.
      apply NoDup_app; auto.
      * constructor; [intros []|constructor].
      * intros x Hx [<-|[]]. now apply Hk.
Qed.

End JsObjectFacts.

Lemma phase_eqb_eq a b : phase_eqb a b = true <-> a = b.
Proof. destruct a, b; simpl; split; congruence. Qed.

Arguments normCode : simpl never.
Arguments broadcast : simpl never.

(** ** The invariant holds in every reachable state *)

Lemma server_ok_get s c r :
  server_ok s -> JsMap.get (rooms s) c = Some r -> code r = c /\ room_ok r.
Proof.
  intros [_ Hall] Hget. apply get_In in Hget.
  rewrite Forall_forall in Hall. exact (Hall _ Hget).
Qed.

Lemma server_ok_set s s1 c r :
  server_ok s -> rooms s1 = rooms s -> code r = c -> room_ok r ->
  server_ok (withRooms s1 (JsMap.set (rooms s1) c r)).
Proof.
  intros [Hnd Hall] Hr Hc Hok. unfold server_ok. simpl. rewrite Hr. split.
  - now apply NoDup_keys_set.
  - apply Forall_set; auto. split; auto.
Qed.

Lemma clearTossupEndTimeout_shape s r :
  rooms (fst (clearTossupEndTimeout s r)) = rooms s
  /\ nextHandle (fst (clearTossupEndTimeout s r)) = nextHandle s
  /\ snd (clearTossupEndTimeout s r) = withTossupEndTimeout r None.
Proof.
  unfold clearTossupEndTimeout.
  destruct r as [? ? ? ? ? ? ? ? ? ? ? [h|] ?]; simpl; auto.
Qed.

Lemma scheduleTossupEnd_shape s r now :
  rooms (fst (scheduleTossupEnd s r now)) = rooms s
  /\ snd (scheduleTossupEnd s r now)
     = withTossupEndTimeout r (Some (nextHandle s)).
Proof.
  unfold scheduleTossupEnd, clearTossupEndTimeout.
  destruct r as [? ? ? ? ? ? ? ? ? ? ? [h|] ?]; simpl; auto.
Qed.

(** The ledger helpers touch nothing but [room.match]. *)
Lemma startNewTossupRow_frame r :
  exists m, startNewTossupRow r = withMatchLog r m.
Proof. unfold startNewTossupRow, ensureMatch. eauto. Qed.

Lemma withMatchLog_id r : withMatchLog r (matchLog r) = r.
Proof. now destruct r. Qed.

Lemma addRowDelta_frame r tid f q :
  exists m, addRowDelta r tid f q = withMatchLog r m.
Proof.
  unfold addRowDelta, setCurrentRow.
  destruct (currentRow r) as [row|]; [|exists (matchLog r); now rewrite withMatchLog_id].
  destruct (JsMap.get (rowTeams row) tid);
    [eauto|exists (matchLog r); now rewrite withMatchLog_id].
Qed.

Lemma refreshRowScores_frame r :
  exists m, refreshRowScores r = withMatchLog r m.
Proof.
  unfold refreshRowScores, setCurrentRow.
  destruct (currentRow r) as [row|];
    [eauto|exists (matchLog r); now rewrite withMatchLog_id].
Qed.

Lemma player_ok_mono (ts ts' : JsMap.t Team) ps :
  (forall k, JsMap.has ts k = true -> JsMap.has ts' k = true) ->
  Forall (player_ok ts) ps -> Forall (player_ok ts') ps.
Proof.
  intros Hmono Hall. eapply Forall_impl; [|exact Hall].
  unfold player_ok. intros kp H tid Ht. auto.
Qed.

Lemma has_set_mono (ts : JsMap.t Team) k v k' :
  JsMap.has ts k' = true -> JsMap.has (JsMap.set ts k v) k' = true.
Proof. intros H. rewrite has_set, H. apply orb_true_r. Qed.

Ltac open_handler :=
  unfold requireRoom, requireHost, reject, commit;
  repeat lazymatch goal with
  | |- context [match JsMap.get (rooms ?s) ?c with _ => _ end] =>
      let G := fresh "Hget" in
      destruct (JsMap.get (rooms s) c) as [?room|] eqn:G; simpl; auto
  | |- context [if String.eqb (hostSocketId ?r) ?k then _ else _] =>
      let G := fresh "Hhost" in
      destruct (String.eqb (hostSocketId r) k) eqn:G; simpl; auto
  end.

Ltac use_shapes :=
  repeat match goal with
  | |- context [clearTossupEndTimeout ?s ?r] =>
      let a := fresh "s" in
      let b := fresh "r" in
      let E := fresh "E" in
      destruct (clearTossupEndTimeout_shape s r) as (? & ? & ?);
      destruct (clearTossupEndTimeout s r) as [a b] eqn:E; simpl in *; subst b
  | |- context [scheduleTossupEnd ?s ?r ?now] =>
      let a := fresh "s" in
      let b := fresh "r" in
      let E := fresh "E" in
      destruct (scheduleTossupEnd_shape s r now) as (? & ?);
      destruct (scheduleTossupEnd s r now) as [a b] eqn:E; simpl in *; subst b
  end.

Ltac use_frames :=
  repeat match goal with
  | |- context [refreshRowScores ?r] =>
      let m := fresh "m" in
      let E := fresh "E" in
      destruct (refreshRowScores_frame r) as [m E]; rewrite E; clear E
  | |- context [addRowDelta ?r ?t ?f ?q] =>
      let m := fresh "m" in
      let E := fresh "E" in
      destruct (addRowDelta_frame r t f q) as [m E]; rewrite E; clear E
  | |- context [startNewTossupRow ?r] =>
      let m := fresh "m" in
      let E := fresh "E" in
      destruct (startNewTossupRow_frame r) as [m E]; rewrite E; clear E
  end.

Ltac room_ok_fields H :=
  destruct H as [Hkeys Hrem [Hts Hbs] Hpl Hwin Hlive];
  constructor; simpl;
  [ auto using NoDup_keys_set
  | try lia; try nia
  | auto
  | auto; try (eapply player_ok_mono; [|eassumption];
               intros; now apply has_set_mono)
  | try (intros; discriminate)
  | try (intros; congruence) ].

Lemma host_start_tossup_reading_ok s sock now c :
  server_ok s -> server_ok (server (host_start_tossup_reading s sock now c)).
Proof.
  intros Hok. unfold host_start_tossup_reading. open_handler.
  destruct (startsWithBonus (phase room)); simpl; auto.
  destruct (server_ok_get _ Hok Hget) as [Hc Hr].
  use_shapes. use_frames. unfold resetTimerFull, setTimer, clearBuzz. simpl.
  apply server_ok_set with (s := s); auto.
  room_ok_fields Hr.
Qed.

Lemma host_done_reading_tossup_ok s sock now c :
  server_ok s -> server_ok (server (host_done_reading_tossup s sock now c)).
Proof.
  intros Hok. unfold host_done_reading_tossup. open_handler.
  destruct (startsWithBonus (phase room)); simpl; auto.
  destruct (server_ok_get _ Hok Hget) as [Hc Hr].
  use_shapes. unfold resetTimerFull, setTimer, clearBuzz. simpl.
  apply server_ok_set with (s := s); auto.
  room_ok_fields Hr.
Qed.

Lemma host_set_room_name_ok s sock now c rn :
  server_ok s -> server_ok (server (host_set_room_name s sock now c rn)).
Proof.
  intros Hok. unfold host_set_room_name. open_handler.
  destruct (negb _); simpl; auto.
  destruct (server_ok_get _ Hok Hget) as [Hc Hr].
  apply server_ok_set with (s := s); auto.
  room_ok_fields Hr; auto.
Qed.

Lemma host_set_team_name_ok s sock now c tid nm :
  server_ok s -> server_ok (server (host_set_team_name s sock now c tid nm)).
Proof.
  intros Hok. unfold host_set_team_name. open_handler.
  destruct (match tid with Some k => _ | None => _ end) as [t|]; simpl; auto.
  destruct (negb _); simpl; auto.
  destruct (server_ok_get _ Hok Hget) as [Hc Hr].
  apply server_ok_set with (s := s); auto.
  room_ok_fields Hr; auto.
  intros ws wn wt a ic Hb. destruct (Hwin _ _ _ _ _ Hb). split; auto.
  now apply has_set_mono.
Qed.

Lemma join_room_ok s sock now c nm tid sp :
  server_ok s -> server_ok (server (join_room s sock now c nm tid sp)).
Proof.
  intros Hok. unfold join_room. open_handler.
  destruct (server_ok_get _ Hok Hget) as [Hc Hr].
  destruct sp; simpl.
  - apply server_ok_set with (s := s); auto.
    room_ok_fields Hr; auto.
    apply Forall_set; auto. intros t. simpl. discriminate.
  - destruct tid as [k|]; simpl; auto.
    destruct (JsString.truthy k && JsMap.has (teams room) k) eqn:E; simpl; auto.
    apply andb_true_iff in E as [_ Hhas].
    apply server_ok_set with (s := s); auto.
    room_ok_fields Hr; auto.
    apply Forall_set; auto. intros t. simpl. now intros [= <-].
Qed.

Lemma buzz_handler_ok s sock now c :
  server_ok s -> server_ok (server (buzz_handler s sock now c)).
Proof.
  intros Hok. unfold buzz_handler. open_handler.
  destruct (server_ok_get _ Hok Hget) as [Hc Hr].
  destruct (JsMap.get (players room) sock) as [pl|] eqn:Hpl0; simpl; auto.
  destruct (isHost pl || isSpectator pl); simpl; auto.
  destruct (negb (phase_eqb (phase room) TossupReading)
            && negb (phase_eqb (phase room) TossupLive)); simpl; auto.
  destruct (teamId pl) as [tid|] eqn:Htid; simpl; auto.
  destruct (JsString.truthy tid) eqn:Htr; simpl; auto.
  destruct (JsSet.has (tossupLockedTeams room) tid); simpl; auto.
  destruct (locked (buzz room)); simpl; auto.
  assert (Hhas : JsMap.has (teams room) tid = true).
  { destruct Hr as [_ _ _ Hpl _ _]. rewrite Forall_forall in Hpl.
    apply get_In in Hpl0. exact (Hpl _ Hpl0 _ Htid). }
  destruct (phase_eqb (phase room) TossupLive) eqn:Hph.
  - use_shapes. unfold stopTimer.
    apply server_ok_set with (s := s); auto.
    + now destruct (negb (running (timer room))).
    + destruct (running (timer room)) eqn:Hrun; simpl;
        room_ok_fields Hr; auto.
      all: intros ws wn wt a ic Hb; injection Hb as <- <- <- <- <-; auto.
  - apply server_ok_set with (s := s); auto.
    room_ok_fields Hr; auto.
    + intros ws wn wt a ic Hb. injection Hb as <- <- <- <- <-. auto.
    + intros _ Hlv. rewrite Hlv in Hph. discriminate.
Qed.

Lemma host_clear_buzz_ok s sock now c :
  server_ok s -> server_ok (server (host_clear_buzz s sock now c)).
Proof.
  intros Hok. unfold host_clear_buzz. open_handler.
  destruct (server_ok_get _ Hok Hget) as [Hc Hr].
  unfold clearBuzz. simpl.
  destruct (phase_eqb (phase room) TossupLive && running (timer room)).
  - use_shapes. apply server_ok_set with (s := s); auto.
    room_ok_fields Hr.
  - apply server_ok_set with (s := s); auto.
    room_ok_fields Hr.
Qed.

Lemma host_set_interrupt_choice_ok s sock now c i :
  server_ok s -> server_ok (server (host_set_interrupt_choice s sock now c i)).
Proof.
  intros Hok. unfold host_set_interrupt_choice. open_handler.
  destruct (server_ok_get _ Hok Hget) as [Hc Hr].
  destruct (buzz room) as [|ws wn wt a ic] eqn:Hb; simpl; auto.
  apply server_ok_set with (s := s); auto.
  room_ok_fields Hr; auto.
  - intros ws' wn' wt' a' ic' Hb'. injection Hb' as <- <- <- <- <-.
    eapply Hwin; eauto.
  - intros _ Hl. apply Hlive; auto. now rewrite Hb.
Qed.

Lemma host_mark_answer_ok s sock now c ok :
  server_ok s -> server_ok (server (host_mark_answer s sock now c ok)).
Proof.
  intros Hok. unfold host_mark_answer. open_handler.
  destruct (server_ok_get _ Hok Hget) as [Hc Hr].
  destruct (buzz room) as [|ws wn wt a ic] eqn:Hb; simpl; auto.
  destruct (if JsString.truthy wt then _ else _) as [team|]; simpl; auto.
  destruct ic as [interrupt|]; simpl; auto.
  destruct ok.
  - use_shapes. use_frames.
    unfold resetTimerFull, setTimer, clearBuzz, addScore. simpl.
    apply server_ok_set with (s := s); auto.
    room_ok_fields Hr.
  - destruct interrupt.
    + unfold clearBuzz.
      destruct (otherTeamId _ wt) as [otherId|]; simpl.
      * destruct (JsMap.get (teams room) otherId) as [other|]; simpl.
        -- use_shapes. use_frames.
           unfold resetTimerFull, setTimer, addScore. simpl.
           apply server_ok_set with (s := s); auto.
           room_ok_fields Hr.
        -- use_shapes. unfold resetTimerFull, setTimer. simpl.
           apply server_ok_set with (s := s); auto.
           room_ok_fields Hr.
      * use_shapes. unfold resetTimerFull, setTimer. simpl.
        apply server_ok_set with (s := s); auto.
        room_ok_fields Hr.
    + use_shapes. unfold resetTimerFull, setTimer, clearBuzz. simpl.
      apply server_ok_set with (s := s); auto.
      room_ok_fields Hr.
Qed.

Lemma host_done_reading_bonus_ok s sock now c :
  server_ok s -> server_ok (server (host_done_reading_bonus s sock now c)).
Proof.
  intros Hok. unfold host_done_reading_bonus. open_handler.
  destruct (server_ok_get _ Hok Hget) as [Hc Hr].
  destruct (negb (phase_eqb (phase room) BonusReading)
            && negb (phase_eqb (phase room) BonusLive)); simpl; auto.
  unfold resetTimerFull, setTimer. simpl.
  apply server_ok_set with (s := s); auto.
  room_ok_fields Hr.
  intros ws wn wt a ic Hb. eapply Hwin; eauto.
Qed.

Lemma backToLobby_ok room now : room_ok room -> room_ok (backToLobby room now).
Proof.
  intros Hr. unfold backToLobby, resetTimerFull, setTimer, clearBuzz. simpl.
  room_ok_fields Hr.
Qed.

Lemma host_award_bonus_ok s sock now c pts :
  server_ok s -> server_ok (server (host_award_bonus s sock now c pts)).
Proof.
  intros Hok. unfold host_award_bonus. open_handler.
  destruct (server_ok_get _ Hok Hget) as [Hc Hr].
  destruct (negb (startsWithBonus (phase room))); simpl; auto.
  destruct (activeBonusTeamId room) as [tid|]; simpl; auto.
  destruct (if JsString.truthy tid then _ else _) as [team|]; simpl; auto.
  destruct (pointsInRange pts) as [q|]; simpl; auto.
  use_frames. apply server_ok_set with (s := s); auto.
  apply backToLobby_ok. unfold addScore.
  room_ok_fields Hr.
  - intros ws wn wt a ic Hb. destruct (Hwin _ _ _ _ _ Hb). split; auto.
    now apply has_set_mono.
  - auto.
Qed.

Lemma host_skip_bonus_ok s sock now c :
  server_ok s -> server_ok (server (host_skip_bonus s sock now c)).
Proof.
  intros Hok. unfold host_skip_bonus. open_handler.
  destruct (server_ok_get _ Hok Hget) as [Hc Hr].
  destruct (negb (startsWithBonus (phase room))); simpl; auto.
  apply server_ok_set with (s := s); auto.
  now apply backToLobby_ok.
Qed.

Lemma createTeams_NoDup nanoid n :
  forall i acc,
    NoDup (JsMap.keys acc) -> NoDup (JsMap.keys (createTeams nanoid i n acc)).
Proof.
  induction n as [|n IH]; simpl; auto.
  intros i acc Hnd. apply IH. now apply NoDup_keys_set.
Qed.

Lemma create_room_ok s sock now hn rn n random nanoid :
  server_ok s ->
  server_ok (server (create_room s sock now hn rn n random nanoid)).
Proof.
  intros Hok. unfold create_room. simpl.
  apply server_ok_set with (s := s); auto.
  constructor; simpl.
  - apply createTeams_NoDup. constructor.
  - unfold DEFAULT_TOSSUP_SECONDS. lia.
  - unfold DEFAULT_TOSSUP_SECONDS, DEFAULT_BONUS_SECONDS. lia.
  - repeat constructor. intros t. simpl. discriminate.
  - intros; discriminate.
  - intros; discriminate.
Qed.

Lemma server_ok_rooms s s1 : rooms s1 = rooms s -> server_ok s -> server_ok s1.
Proof. unfold server_ok. now intros ->. Qed.

Lemma disconnectRoom_ok sock now acc entry :
  server_ok (fst acc) -> entry_ok entry ->
  server_ok (fst (disconnectRoom sock now acc entry)).
Proof.
  destruct acc as [s effs], entry as [k room]. simpl.
  intros Hok [Hc Hr]. simpl in Hc, Hr. unfold disconnectRoom. simpl.
  destruct (negb (JsMap.has (players room) sock)); simpl; auto.
  destruct (String.eqb (hostSocketId room) sock).
  - use_shapes. destruct Hok as [Hnd Hall]. split; simpl.
    + rewrite H. now apply NoDup_keys_delete.
    + rewrite H. now apply Forall_delete.
  - simpl. apply server_ok_set with (s := s); auto.
    room_ok_fields Hr; auto.
    now apply Forall_delete.
Qed.

Lemma disconnect_fold_ok sock now l :
  forall acc,
    Forall entry_ok l -> server_ok (fst acc) ->
    server_ok (fst (fold_left (disconnectRoom sock now) l acc)).
Proof.
  induction l as [|e l IH]; simpl; auto.
  intros acc Hall Hok. inversion Hall; subst.
  apply IH; auto. now apply disconnectRoom_ok.
Qed.

Lemma disconnect_ok s sock now :
  server_ok s -> server_ok (server (disconnect s sock now)).
Proof.
  intros Hok. unfold disconnect.
  pose proof (@disconnect_fold_ok sock now (rooms s) (s, []) (proj2 Hok) Hok) as H.
  destruct (fold_left _ _ _) as [s' effs]. exact H.
Qed.

Lemma tossupEndCallback_ok s now c :
  server_ok s -> server_ok (fst (tossupEndCallback s now c)).
Proof.
  intros Hok. unfold tossupEndCallback.
  destruct (JsMap.get (rooms s) c) as [room|] eqn:Hget; simpl; auto.
  destruct (server_ok_get _ Hok Hget) as [Hc Hr].
  destruct (phase_eqb (phase room) TossupLive && _ && _); simpl; auto.
  apply server_ok_set with (s := s); auto.
  unfold clearBuzz. room_ok_fields Hr.
Qed.

Lemma fireTimeout_ok s now h :
  server_ok s -> server_ok (fst (fireTimeout s now h)).
Proof.
  intros Hok. unfold fireTimeout.
  destruct (find _ (pending s)) as [pt|]; simpl; auto.
  apply tossupEndCallback_ok. eapply server_ok_rooms; [|exact Hok]. reflexivity.
Qed.

Lemma handle_message_ok s sock now m :
  server_ok s -> server_ok (server (handle_message s sock now m)).
Proof.
  intros Hok. destruct m; unfold handle_message; try exact Hok;
    auto using create_room_ok, host_set_room_name_ok, host_set_team_name_ok,
      join_room_ok, host_start_tossup_reading_ok, host_done_reading_tossup_ok,
      buzz_handler_ok, host_clear_buzz_ok, host_set_interrupt_choice_ok,
      host_mark_answer_ok, host_done_reading_bonus_ok, host_award_bonus_ok,
      host_skip_bonus_ok, disconnect_ok.
Qed.

Lemma step_ok s now e : server_ok s -> server_ok (step s now e).
Proof.
  destruct e; simpl; auto using handle_message_ok, fireTimeout_ok.
Qed.

Lemma reachable_ok s : reachable s -> server_ok s.
Proof.
  induction 1 as [|s now e _ IH].
  - split; simpl; constructor.
  - now apply step_ok.
Qed.

Lemma reachable_run s evs : reachable s -> reachable (run s evs).
Proof.
  revert s. induction evs as [|[now e] evs IH]; simpl; auto.
  intros s Hs. apply IH. now constructor.
Qed.

(** ** Timer snapshot *)

(** C10: for a room of a reachable state whose timer is marked running while
    its deadline has passed, the snapshot (and so the public state sent to
    the room) reports a stopped clock at zero, with no deadline; the
    remaining time of a snapshot is never negative; and a broadcast stores
    the room back as it was, the timer still marked running. *)
Theorem computeTimerSnapshot_deadline_passed :
  forall s c room now,
    reachable s ->
    JsMap.get (rooms s) c = Some room ->
    (running (timer room) = true -> endsAtMs (timer room) <= now ->
     computeTimerSnapshot room now
     = mkTimerSnapshot (mode (timer room)) false 0 0)
    /\ psTimer (publicState room now) = computeTimerSnapshot room now
    /\ 0 <= snapRemainingMs (computeTimerSnapshot room now)
    /\ (forall before,
          JsMap.get (rooms (server (commit s c room now before))) c = Some room).
Proof.
  intros s c room now Hreach Hget.
  destruct (server_ok_get _ (reachable_ok Hreach) Hget) as [_ Hr].
  destruct Hr as [_ Hrem _ _ _ _].
  unfold computeTimerSnapshot. repeat split.
  - intros Hrun Hend. rewrite Hrun. simpl.
    replace (Z.max 0 (endsAtMs (timer room) - now)) with 0 by lia.
    reflexivity.
  - destruct (running (timer room)); simpl; lia.
  - intros before. simpl. apply get_set_eq.
Qed.

Lemma computeTimerSnapshot_deadline_passed_witness :
  exists room,
    JsMap.get (rooms (run initServer sessionLive)) "AAAAAA" = Some room
    /\ phase room = TossupLive
    /\ running (timer room) = true
    /\ computeTimerSnapshot room 7000 = mkTimerSnapshot TossupMode false 0 0.
Proof.
  eexists. split; [vm_compute; reflexivity|].
  split; [reflexivity|]. split; [reflexivity|].
  refine (proj1 (@computeTimerSnapshot_deadline_passed
                   (run initServer sessionLive) "AAAAAA" _ 7000
                   (reachable_run _ reachable_init) _) _ _).
  - vm_compute; reflexivity.
  - reflexivity.
  - vm_compute; discriminate.
Defined.

(** ** The toss-up end callback *)

(** C1: whenever the callback armed by [scheduleTossupEnd] runs, it reads
    the room currently registered under the code; if that room is in phase
    tossup_live, the remaining time computed from its deadline is zero and
    its buzz is unlocked, the room is stored back closed (phase
    tossup_closed, timer stopped at zero, buzz cleared, nothing else
    touched) and broadcast; in every other case, a missing room included,
    the server state is returned as it was and nothing is sent.  In
    particular after an accepted buzz a firing for that room changes
    nothing. *)
Theorem tossupEndCallback_revalidates :
  forall s now c,
    (forall r,
        JsMap.get (rooms s) c = Some r ->
        phase r = TossupLive ->
        Z.max 0 (endsAtMs (timer r) - now) = 0 ->
        buzz r = Unlocked ->
        let closed :=
          mkRoom (code r) (roomName r) (hostSocketId r) (settings r) (teams r)
            (players r) TossupClosed (activeBonusTeamId r)
            (tossupLockedTeams r) Unlocked
            (mkTimer (mode (timer r)) false 0 0)
            (tossupEndTimeout r) (matchLog r) in
        tossupEndCallback s now c
        = (withRooms s (JsMap.set (rooms s) c closed), [broadcast closed now]))
    /\ (~ (exists r,
              JsMap.get (rooms s) c = Some r /\ phase r = TossupLive
              /\ Z.max 0 (endsAtMs (timer r) - now) = 0 /\ buzz r = Unlocked) ->
        tossupEndCallback s now c = (s, []))
    /\ (forall sock t codeArg,
          normCode codeArg = c ->
          verdict (buzz_handler s sock t codeArg) = Accepted ->
          tossupEndCallback (server (buzz_handler s sock t codeArg)) now c
          = (server (buzz_handler s sock t codeArg), [])).
Proof.
  intros s now c. split; [|split].
  - intros r Hget Hph Hrem Hbz. unfold tossupEndCallback.
    rewrite Hget, Hph, Hrem, Hbz. reflexivity.
  - intros Hnot. unfold tossupEndCallback.
    destruct (JsMap.get (rooms s) c) as [r|] eqn:Hget; auto.
    destruct (phase_eqb (phase r) TossupLive) eqn:Hph; auto.
    destruct (Z.max 0 (endsAtMs (timer r) - now) =? 0) eqn:Hrem; auto.
    destruct (buzz r) eqn:Hbz; auto.
    exfalso. apply Hnot. exists r. repeat split; auto.
    + now apply phase_eqb_eq.
    + now apply Z.eqb_eq.
  - intros sock t codeArg <-. unfold buzz_handler. open_handler;
      try discriminate.
    destruct (JsMap.get (players room) sock) as [pl|]; simpl;
      try discriminate.
    destruct (isHost pl || isSpectator pl); simpl; try discriminate.
    destruct (negb (phase_eqb (phase room) TossupReading)
              && negb (phase_eqb (phase room) TossupLive)); simpl;
      try discriminate.
    destruct (teamId pl) as [tid|]; simpl; try discriminate.
    destruct (JsString.truthy tid); simpl; try discriminate.
    destruct (JsSet.has (tossupLockedTeams room) tid); simpl;
      try discriminate.
    destruct (locked (buzz room)); simpl; try discriminate.
    intros _. unfold tossupEndCallback.
    destruct (if phase_eqb (phase room) TossupLive then _ else _)
      as [s1 r1]. simpl.
    rewrite get_set_eq. simpl.
    now rewrite !andb_false_r.
Qed.

Lemma tossupEndCallback_revalidates_witness :
  let s := run initServer sessionLive in
  (exists r,
      JsMap.get (rooms s) "AAAAAA" = Some r
      /\ let closed :=
           mkRoom (code r) (roomName r) (hostSocketId r) (settings r)
             (teams r) (players r) TossupClosed (activeBonusTeamId r)
             (tossupLockedTeams r) Unlocked
             (mkTimer (mode (timer r)) false 0 0)
             (tossupEndTimeout r) (matchLog r) in
         tossupEndCallback s 6400 "AAAAAA"
         = (withRooms s (JsMap.set (rooms s) "AAAAAA" closed),
            [broadcast closed 6400]))
  /\ tossupEndCallback (server (buzz_handler s "a" 3300 "AAAAAA")) 6400 "AAAAAA"
     = (server (buzz_handler s "a" 3300 "AAAAAA"), []).
Proof.
  intros s.
  destruct (tossupEndCallback_revalidates s 6400 "AAAAAA")
    as [Hclose [_ Hbuzz]].
  split.
  - eexists. split; [vm_compute; reflexivity|].
    apply Hclose; vm_compute; reflexivity.
  - exact (Hbuzz "a" 3300 "AAAAAA" eq_refl eq_refl).
Defined.

(** ** The ledger *)

Lemma last_map_Some_app (A : Type) (l : list A) (x : A) :
  last (map Some (l ++ [x])) None = Some x.
Proof.
  induction l as [|y l IH]; simpl; auto.
  rewrite IH. destruct (map Some (l ++ [x])) eqn:E; auto.
  destruct l; discriminate.
Qed.

Lemma currentRow_setCurrentRow r row :
  currentRow (setCurrentRow r row) = Some row.
Proof. unfold currentRow, setCurrentRow, ensureMatch. simpl. apply last_map_Some_app. Qed.

Lemma currentRow_addRowDelta r row tid e f q :
  currentRow r = Some row ->
  JsMap.get (rowTeams row) tid = Some e ->
  currentRow (addRowDelta r tid f q)
  = Some (mkRow (num row) (JsMap.set (rowTeams row) tid (addToField e f q))).
Proof.
  intros Hrow He. unfold addRowDelta. rewrite Hrow, He.
  apply currentRow_setCurrentRow.
Qed.

Lemma currentRow_refreshRowScores r row :
  currentRow r = Some row ->
  currentRow (refreshRowScores r)
  = Some (mkRow (num row) (fold_left refreshEntry (teams r) (rowTeams row))).
Proof.
  intros Hrow. unfold refreshRowScores. rewrite Hrow.
  apply currentRow_setCurrentRow.
Qed.

Lemma addRowDelta_no_row r tid f q :
  currentRow r = None -> addRowDelta r tid f q = r.
Proof. intros H. unfold addRowDelta. now rewrite H. Qed.

Lemma refreshRowScores_no_row r :
  currentRow r = None -> refreshRowScores r = r.
Proof. intros H. unfold refreshRowScores. now rewrite H. Qed.

Lemma teams_addRowDelta r tid f q : teams (addRowDelta r tid f q) = teams r.
Proof. destruct (addRowDelta_frame r tid f q) as [m ->]. reflexivity. Qed.

Lemma teams_refreshRowScores r : teams (refreshRowScores r) = teams r.
Proof. destruct (refreshRowScores_frame r) as [m ->]. reflexivity. Qed.

(** After the refresh loop an entry of the row carries the score of the team
    stored under its key. *)
Lemma refresh_fold_get (ts : JsMap.t Team) :
  forall entries k,
    NoDup (JsMap.keys ts) ->
    JsMap.get (fold_left refreshEntry ts entries) k
    = match JsMap.get entries k with
      | None => None
      | Some e =>
          Some (withRowScore e
                  (match JsMap.get ts k with
                   | Some t => score t
                   | None => rowScore e
                   end))
      end.
Proof.
  induction ts as [|[k0 t0] ts IH]; intros entries k Hnd.
  - simpl. destruct (JsMap.get entries k) as [[? ? ? ?]|]; reflexivity.
  - inversion Hnd as [|? ? Hnot Hnd']; subst.
    cbn [fold_left]. rewrite IH by assumption.
    unfold refreshEntry. cbn [fst snd JsMap.get].
    destruct (String.eqb k0 k) eqn:E.
    + apply String.eqb_eq in E. subst k0.
      assert (Hts : JsMap.get ts k = None).
      { destruct (JsMap.get ts k) eqn:G; auto. exfalso. apply Hnot.
        apply get_In in G. change k with (fst (k, t)). now apply in_map. }
      rewrite Hts.
      destruct (JsMap.get entries k) as [e|] eqn:Ge.
      * rewrite get_set_eq. reflexivity.
      * rewrite Ge. reflexivity.
    + apply String.eqb_neq in E.
      destruct (JsMap.get entries k0) as [e0|] eqn:Ge0; auto.
      now rewrite get_set_ne.
Qed.

(** ** Marking an answer *)

Lemma clearTossupEndTimeout_cancels s r h :
  tossupEndTimeout r = Some h ->
  ~ In h (map handle (pending (fst (clearTossupEndTimeout s r)))).
Proof.
  intros Hh. unfold clearTossupEndTimeout. rewrite Hh. simpl.
  rewrite in_map_iff. intros [pt [Heq Hin]].
  apply filter_In in Hin as [_ Hne]. subst h.
  now rewrite Nat.eqb_refl in Hne.
Qed.

Lemma winner_team s c room ws wn tid a ic :
  reachable s ->
  JsMap.get (rooms s) c = Some room ->
  buzz room = Locked ws wn tid a ic ->
  JsString.truthy tid = true
  /\ exists team, JsMap.get (teams room) tid = Some team.
Proof.
  intros Hreach Hget Hb.
  destruct (server_ok_get _ (reachable_ok Hreach) Hget) as [_ Hr].
  destruct (ok_winner Hr Hb) as [Htr Hhas]. split; auto.
  apply has_true_keys in Hhas. now apply In_keys_get.
Qed.

Lemma scheduleTossupEnd_pending s r now :
  exists rest,
    pending (fst (scheduleTossupEnd s r now))
    = mkPending (nextHandle s) (code r) (now + (remainingMs (timer r) + 15))
        :: rest
    /\ incl rest (pending s)
    /\ (forall h, tossupEndTimeout r = Some h -> ~ In h (map handle rest)).
Proof.
  unfold scheduleTossupEnd.
  pose proof (clearTossupEndTimeout_cancels s r) as Hcancel.
  unfold clearTossupEndTimeout in *.
  destruct r as [? ? ? ? ? ? ? ? ? ? ? [h|] ?]; simpl in *.
  - eexists. split; [reflexivity|]. split.
    + intros pt Hin. now apply filter_In in Hin.
    + exact Hcancel.
  - exists (pending s). split; [reflexivity|]. split.
    + apply incl_refl.
    + intros; discriminate.
Qed.

(** ** Clearing a buzz *)

(** C5, as stated, fails: in the sample session the buzz stopped the live
    clock with three seconds left; clearing it leaves the room in
    tossup_live with no end callback armed. *)
Lemma clear_buzz_does_not_rearm :
  ~ clear_buzz_rearms (run initServer sessionBuzzed) "h" 3400 "AAAAAA".
Proof.
  intros H. edestruct H as (room' & h & Hget & _ & _ & Hh & _).
  - vm_compute; reflexivity.
  - reflexivity.
  - reflexivity.
  - reflexivity.
  - vm_compute; reflexivity.
  - vm_compute in Hget. injection Hget as <-. discriminate Hh.
Qed.

(** C5, amended: in a reachable state, when the host clears a locked buzz
    the command is accepted and the room is stored back with the buzz
    cleared and nothing else changed: same phase, same timer, same timeout
    handle, and the pending callbacks are those of before.  No end callback
    is rescheduled because, with a buzz locked in tossup_live, the timer is
    not running: the buzz stopped it. *)
Theorem clear_buzz_locked :
  forall s sock now codeArg room,
    reachable s ->
    JsMap.get (rooms s) (normCode codeArg) = Some room ->
    hostSocketId room = sock ->
    locked (buzz room) = true ->
    let res := host_clear_buzz s sock now codeArg in
    verdict res = Accepted
    /\ JsMap.get (rooms (server res)) (normCode codeArg)
       = Some (withBuzz room Unlocked)
    /\ effects res = [broadcast (withBuzz room Unlocked) now]
    /\ pending (server res) = pending s
    /\ (phase room = TossupLive -> running (timer room) = false).
Proof.
  intros s sock now codeArg room Hreach Hget Hhost Hlock res.
  destruct (server_ok_get _ (reachable_ok Hreach) Hget) as [_ Hr].
  assert (Hstop : phase room = TossupLive -> running (timer room) = false)
    by (intros Hph; now apply (ok_live_lock Hr)).
  subst res. unfold host_clear_buzz, requireRoom, requireHost, commit.
  rewrite Hget, Hhost, String.eqb_refl. unfold clearBuzz. simpl.
  destruct (phase_eqb (phase room) TossupLive && running (timer room)) eqn:E.
  - apply andb_true_iff in E as [Hph Hrun]. apply phase_eqb_eq in Hph.
    rewrite (Hstop Hph) in Hrun. discriminate.
  - simpl. repeat split; auto. apply get_set_eq.
Qed.

Lemma clear_buzz_locked_witness :
  let s := run initServer sessionBuzzed in
  let res := host_clear_buzz s "h" 3400 "AAAAAA" in
  exists room,
    JsMap.get (rooms s) "AAAAAA" = Some room
    /\ phase room = TossupLive
    /\ timer room = mkTimer TossupMode false 3000 0
    /\ JsMap.get (rooms (server res)) "AAAAAA" = Some (withBuzz room Unlocked)
    /\ pending (server res) = pending s.
Proof.
  intros s res. eexists. split; [vm_compute; reflexivity|].
  split; [reflexivity|]. split; [reflexivity|].
  edestruct (@clear_buzz_locked s "h" 3400 "AAAAAA")
    as (_ & Hg & _ & Hp & _).
  - exact (reachable_run _ reachable_init).
  - vm_compute; reflexivity.
  - reflexivity.
  - reflexivity.
  - split; [exact Hg|exact Hp].
Defined.

(** Outside the locked case the guard of the handler decides: the end
    callback is re-armed exactly when the phase is tossup_live and the
    timer is marked running. *)
Lemma host_clear_buzz_guard s sock now codeArg room :
  JsMap.get (rooms s) (normCode codeArg) = Some room ->
  hostSocketId room = sock ->
  let res := host_clear_buzz s sock now codeArg in
  if phase_eqb (phase room) TossupLive && running (timer room)
  then
    JsMap.get (rooms (server res)) (normCode codeArg)
    = Some (withTossupEndTimeout (withBuzz room Unlocked) (Some (nextHandle s)))
    /\ exists rest,
         pending (server res)
         = mkPending (nextHandle s) (code room)
             (now + (remainingMs (timer room) + 15)) :: rest
  else
    JsMap.get (rooms (server res)) (normCode codeArg)
    = Some (withBuzz room Unlocked)
    /\ pending (server res) = pending s.
Proof.
  intros Hget Hhost res. subst res.
  unfold host_clear_buzz, requireRoom, requireHost, commit.
  rewrite Hget, Hhost, String.eqb_refl. unfold clearBuzz. simpl.
  destruct (phase_eqb (phase room) TossupLive && running (timer room)).
  - destruct (scheduleTossupEnd_shape s (withBuzz room Unlocked) now)
      as (Hrooms & Hsnd).
    destruct (scheduleTossupEnd_pending s (withBuzz room Unlocked) now)
      as (rest & Hp & _).
    destruct (scheduleTossupEnd s (withBuzz room Unlocked) now) as [s1 r1].
    simpl in *. subst r1. split; [apply get_set_eq|]. eauto.
  - simpl. split; [apply get_set_eq|reflexivity].
Qed.

(** ** Rejected commands *)

(** C6, as stated, fails: a second buzz while the buzz is locked is dropped
    without any notice to its sender. *)
Lemma buzz_conflict_is_silent :
  ~ rejection_notifies_sender (run initServer sessionBuzzed) "b" 3350
      (BuzzMsg "AAAAAA").
Proof.
  intros H. destruct (H AlreadyLocked) as [[msg Hin] _].
  - vm_compute; reflexivity.
  - vm_compute in Hin. exact Hin.
Qed.

Ltac break_handler :=
  repeat match goal with
  | H : verdict (reject _ _ _) = Rejected _ |- _ =>
      unfold reject in H |- *; simpl in H |- *;
      injection H as <-
  | H : verdict (commit _ _ _ _ _) = Rejected _ |- _ =>
      unfold commit in H; simpl in H; discriminate H
  | H : verdict (mkResult _ _ Accepted) = Rejected _ |- _ =>
      simpl in H; discriminate H
  | H : Accepted = Rejected _ |- _ => discriminate H
  | H : context [match ?x with _ => _ end] |- _ => destruct x eqn:?
  end.

(** C6, amended: a rejected command leaves the server state as it was and
    sends nothing to a room.  Its sender gets an error notice exactly when
    the room code is unknown, when a host-only command comes from another
    socket, or when a join names no team of the room (after the socket was
    subscribed to the room); every other rejection sends nothing at all. *)
Theorem rejected_command_effects :
  forall s sock now m why,
    verdict (handle_message s sock now m) = Rejected why ->
    server (handle_message s sock now m) = s
    /\ match why with
       | RoomNotFound =>
           effects (handle_message s sock now m)
           = [EmitSocket sock (ErrorMsg "Room not found.")]
       | HostOnly =>
           effects (handle_message s sock now m)
           = [EmitSocket sock (ErrorMsg "Host only.")]
       | ChooseTeam =>
           exists c,
             effects (handle_message s sock now m)
             = [SocketJoin sock c;
                EmitSocket sock (ErrorMsg "Choose a team before joining.")]
       | _ => effects (handle_message s sock now m) = []
       end.
Proof.
  intros s sock now m why H.
  destruct m; unfold handle_message in *.
  - unfold create_room in H. simpl in H. discriminate.
  - unfold host_set_room_name, requireRoom, requireHost in *.
    break_handler; auto.
  - unfold host_set_team_name, requireRoom, requireHost in *.
    break_handler; auto.
  - unfold join_room, requireRoom in *. break_handler; eauto.
  - unfold set_team, reject in *. simpl in *. injection H as <-. auto.
  - unfold host_start_tossup_reading, requireRoom, requireHost in *.
    break_handler; auto.
  - unfold host_done_reading_tossup, requireRoom, requireHost in *.
    break_handler; auto.
  - unfold buzz_handler, requireRoom in *. break_handler; auto.
  - unfold host_clear_buzz, requireRoom, requireHost in *.
    break_handler; auto.
  - unfold host_set_interrupt_choice, requireRoom, requireHost in *.
    break_handler; auto.
  - unfold host_mark_answer, requireRoom, requireHost in *.
    break_handler; auto.
  - unfold host_done_reading_bonus, requireRoom, requireHost in *.
    break_handler; auto.
  - unfold host_award_bonus, requireRoom, requireHost in *.
    break_handler; auto.
  - unfold host_skip_bonus, requireRoom, requireHost in *.
    break_handler; auto.
  - unfold disconnect in H. destruct (fold_left _ _ _). simpl in H.
    discriminate.
Qed.

Lemma rejected_command_effects_witness :
  let s := run initServer sessionBuzzed in
  (server (handle_message s "b" 3350 (BuzzMsg "AAAAAA")) = s
   /\ effects (handle_message s "b" 3350 (BuzzMsg "AAAAAA")) = [])
  /\ (server (handle_message s "a" 3350 (HostSkipBonus "AAAAAA")) = s
      /\ effects (handle_message s "a" 3350 (HostSkipBonus "AAAAAA"))
         = [EmitSocket "a" (ErrorMsg "Host only.")]).
Proof.
  intros s. split.
  - apply (@rejected_command_effects s "b" 3350 (BuzzMsg "AAAAAA")
             AlreadyLocked).
    vm_compute; reflexivity.
  - apply (@rejected_command_effects s "a" 3350 (HostSkipBonus "AAAAAA")
             HostOnly).
    vm_compute; reflexivity.
Defined.

(** ** Creating a room *)

Lemma set_fresh (V : Type) (m : JsMap.t V) k v :
  ~ In k (JsMap.keys m) -> JsMap.set m k v = (m ++ [(k, v)])%list.
Proof.
  induction m as [|[k' v'] m IH]; simpl; auto.
  intros Hnot. destruct (String.eqb k' k) eqn:E.
  - apply String.eqb_eq in E. tauto.
  - f_equal. apply IH. tauto.
Qed.

Lemma keys_app (V : Type) (m1 m2 : JsMap.t V) :
  JsMap.keys (m1 ++ m2)%list = (JsMap.keys m1 ++ JsMap.keys m2)%list.
Proof. apply map_app. Qed.

Lemma createTeams_distinct nanoid n :
  forall i acc,
    (forall j, (i <= j < i + n)%nat -> ~ In (nanoid j) (JsMap.keys acc)) ->
    (forall j k, (i <= j < i + n)%nat -> (i <= k < i + n)%nat ->
                 nanoid j = nanoid k -> j = k) ->
    createTeams nanoid i n acc
    = (acc ++ map (fun j => (nanoid j,
                             mkTeam (nanoid j)
                               ("Team " ++ JsString.fromCharCode (65 + j)) 0))
                  (seq i n))%list.
Proof.
  induction n as [|n IH]; intros i acc Hfresh Hinj; simpl.
  - now rewrite app_nil_r.
  - rewrite set_fresh by (apply Hfresh; lia).
    rewrite IH.
    + now rewrite <- app_assoc.
    + intros j Hj. rewrite keys_app, in_app_iff. simpl.
      intros [Hin|[Heq|[]]].
      * revert Hin. apply Hfresh. lia.
      * assert (i = j) by (apply Hinj; auto; lia). lia.
    + intros j k Hj Hk. apply Hinj; lia.
Qed.

Lemma mathRound_integer z : mathRound (inject_Z z) = z.
Proof.
  unfold mathRound, Qfloor, Qplus, inject_Z. simpl.
  symmetry. apply Z.div_unique with (r := 1); lia.
Qed.

Lemma requestedTeams_bounds numTeams :
  (2 <= requestedTeams numTeams <= 8)%nat.
Proof. unfold requestedTeams. destruct numTeams; lia. Qed.

(** C7, as stated, fails: when [nanoid] hands out the same id twice the
    second team overwrites the first, and a room asked for two teams has
    one. *)
Lemma create_room_id_collision :
  ~ creates_requested_teams initServer "h" 1000 (Some "Ann") "" (JFin 2)
      zeroDraws sameId.
Proof.
  intros [room [Hget Hlen]]. vm_compute in Hget. injection Hget as <-.
  vm_compute in Hlen. discriminate.
Qed.

(** C7, amended: when the ids drawn for the teams are pairwise distinct, the
    room registered by [create_room] has exactly the requested number of
    teams (the count rounded and kept within 2 and 8, which for an integer
    [z] is [min 8 (max 2 z)], and 2 for a count that is not finite), in
    order "Team A", "Team B", ... each with score 0; it is in phase lobby
    with the buzz unlocked, no locked-out team, an empty ledger, no end
    callback, and the toss-up timer paused at 5000 ms. *)
Theorem create_room_initial_state :
  forall s sock now hostName roomNameArg numTeams random nanoid,
    (forall i j,
        (i < requestedTeams numTeams)%nat ->
        (j < requestedTeams numTeams)%nat ->
        nanoid i = nanoid j -> i = j) ->
    exists room,
      JsMap.get
        (rooms (server (create_room s sock now hostName roomNameArg numTeams
                          random nanoid)))
        (genCode random) = Some room
      /\ teams room
         = map (fun i => (nanoid i,
                          mkTeam (nanoid i)
                            ("Team " ++ JsString.fromCharCode (65 + i)) 0))
               (seq 0 (requestedTeams numTeams))
      /\ List.length (teams room) = requestedTeams numTeams
      /\ (2 <= List.length (teams room) <= 8)%nat
      /\ (forall z, numTeams = JFin (inject_Z z) ->
            Z.of_nat (List.length (teams room)) = Z.min 8 (Z.max 2 z))
      /\ (isFinite numTeams = false -> List.length (teams room) = 2%nat)
      /\ phase room = Lobby
      /\ buzz room = Unlocked
      /\ tossupLockedTeams room = []
      /\ matchLog room = mkMatch 0 []
      /\ tossupEndTimeout room = None
      /\ timer room = mkTimer TossupMode false 5000 0.
Proof.
  intros s sock now hostName roomNameArg numTeams random nanoid Hinj.
  unfold create_room. simpl. eexists. split; [apply get_set_eq|]. simpl.
  change (Z.to_nat (teamCountOf numTeams)) with (requestedTeams numTeams).
  rewrite createTeams_distinct.
  - simpl. rewrite length_map, length_seq.
    pose proof (requestedTeams_bounds numTeams) as Hb.
    repeat split; auto; try lia.
    + intros z ->. unfold requestedTeams. rewrite mathRound_integer. lia.
    + destruct numTeams; simpl; auto. discriminate.
  - simpl. tauto.
  - intros j k Hj Hk. apply Hinj; lia.
Qed.

Lemma create_room_initial_state_witness :
  exists room,
    JsMap.get
      (rooms (server (create_room initServer "h" 1000 (Some "Ann") ""
                        (JFin 3) zeroDraws sampleIds)))
      "AAAAAA" = Some room
    /\ teams room
       = [("t1", mkTeam "t1" "Team A" 0); ("t2", mkTeam "t2" "Team B" 0);
          ("t3", mkTeam "t3" "Team C" 0)]
    /\ phase room = Lobby
    /\ timer room = mkTimer TossupMode false 5000 0.
Proof.
  destruct (@create_room_initial_state initServer "h" 1000 (Some "Ann") ""
              (JFin 3) zeroDraws sampleIds)
    as [room (Hg & Ht & _ & _ & _ & _ & Hp & _ & _ & _ & _ & Htm)].
  - intros i j Hi Hj.
    change (requestedTeams (JFin 3)) with 3%nat in Hi, Hj.
    destruct i as [|[|[|i]]]; destruct j as [|[|[|j]]];
      try lia; try reflexivity; vm_compute; discriminate.
  - exists room. repeat split; assumption.
Defined.

(** C8, as stated, fails: [genCode] never looks at the registry.  With the
    same draws a second [create_room] generates the code of the room of the
    sample session and replaces that room. *)
Lemma create_room_code_collision :
  ~ creates_fresh_code (run initServer sessionJoined) "x" 2000 None ""
      (JFin 2) zeroDraws sampleIds.
Proof.
  intros [Hfresh _]. vm_compute in Hfresh. discriminate.
Qed.

Lemma genCodeLoop_ext random random' n :
  forall i acc,
    (forall j, (i <= j < i + n)%nat -> random' j = random j) ->
    genCodeLoop random' i n acc = genCodeLoop random i n acc.
Proof.
  induction n as [|n IH]; intros i acc Hext; simpl; auto.
  rewrite Hext by lia. apply IH. intros j Hj. apply Hext. lia.
Qed.

(** C8, amended: [create_room] registers the new room under the code spelled
    by the first six draws of [Math.random], whatever the registry holds, and
    draws no further one.  Every entry under another code is kept; so when
    the generated code is not in use every registered room survives, and
    otherwise the room registered under that code is replaced by the new
    one.  Pending callbacks are not touched. *)
Theorem create_room_registry :
  forall s sock now hostName roomNameArg numTeams random nanoid,
    let res :=
      create_room s sock now hostName roomNameArg numTeams random nanoid in
    (exists room,
        JsMap.get (rooms (server res)) (genCode random) = Some room
        /\ code room = genCode random
        /\ hostSocketId room = sock
        /\ JsMap.keys (players room) = [sock])
    /\ (forall c, c <> genCode random ->
          JsMap.get (rooms (server res)) c = JsMap.get (rooms s) c)
    /\ (JsMap.get (rooms s) (genCode random) = None ->
        forall c r,
          JsMap.get (rooms s) c = Some r ->
          JsMap.get (rooms (server res)) c = Some r)
    /\ (forall random',
          (forall i, (i < 6)%nat -> random' i = random i) ->
          genCode random' = genCode random)
    /\ pending (server res) = pending s.
Proof.
  intros s sock now hostName roomNameArg numTeams random nanoid res.
  subst res. unfold create_room. simpl.
  split; [|split; [|split; [|split]]].
  - eexists. split; [apply get_set_eq|]. simpl. auto.
  - intros c Hc. apply get_set_ne. congruence.
  - intros Hfresh c r Hget. rewrite get_set_ne; auto.
    intros <-. congruence.
  - intros random' Hext. unfold genCode. apply genCodeLoop_ext.
    intros j Hj. apply Hext. lia.
  - reflexivity.
Qed.

Lemma create_room_registry_witness :
  let s := run initServer sessionJoined in
  let zDraws (i : nat) : Q := 31 # 32 in
  let res := create_room s "x" 2000 None "" (JFin 2) zDraws sampleIds in
  genCode zDraws = "999999"
  /\ JsMap.get (rooms (server res)) "AAAAAA" = JsMap.get (rooms s) "AAAAAA"
  /\ JsMap.keys (rooms (server res)) = ["AAAAAA"; "999999"].
Proof.
  intros s zDraws res. split; [reflexivity|]. split.
  - destruct (@create_room_registry s "x" 2000 None "" (JFin 2) zDraws
                sampleIds) as (_ & Hkeep & _).
    apply Hkeep. intros H. vm_compute in H. discriminate H.
  - reflexivity.
Defined.

(** ** Team assignment *)

(** C9: the code departs from the claim.  A second [join_room] from a socket
    that already plays for a team is accepted like a first one and stores
    the team named in the new message: in the sample session player "a"
    moves from team "t1" to team "t2". *)
Theorem rejoin_switches_team :
  let s := run initServer sessionJoined in
  let res := join_room s "a" 1500 "AAAAAA" "Al" (Some "t2") false in
  teamOf s "AAAAAA" "a" = Some "t1"
  /\ verdict res = Accepted
  /\ teamOf (server res) "AAAAAA" "a" = Some "t2".
Proof. vm_compute. auto. Qed.

(** The [set_team] message itself changes nothing. *)
Lemma set_team_noop s : set_team s = mkResult s [] (Rejected Ignored).
Proof. reflexivity. Qed.

(** ** Buzz arbitration *)

(** C2, as stated, fails: skipping the bonus empties the lockout set too.
    In the sample session team "t1" is locked out, no start-tossup-reading
    follows, and yet its player takes the lock at the last event. *)
Lemma lockout_reset_by_skip_bonus :
  ~ lockout_until_next_reading (run initServer sessionLockedOut) "AAAAAA" "t1"
      sessionSkipBonus.
Proof.
  intros H. unfold lockout_until_next_reading in H.
  assert (Hn := H eq_refl eq_refl). clear H.
  vm_compute in Hn.
  destruct Hn as (_ & _ & _ & _ & _ & Hlast & _).
  discriminate Hlast.
Qed.

Lemma has_add_mono (st : JsSet.t) k t :
  JsSet.has st t = true -> JsSet.has (JsSet.add st k) t = true.
Proof.
  unfold JsSet.add. destruct (JsSet.has st k); auto.
  unfold JsSet.has. rewrite existsb_app. intros ->. reflexivity.
Qed.

Lemma lock_step_refl room : lock_step room room.
Proof. split; auto. intros ws wn wt a ic Hb. left. eauto. Qed.

Lemma lock_evolves_same s s' c : rooms s' = rooms s -> lock_evolves s s' c.
Proof.
  intros Hr. unfold lock_evolves. rewrite Hr.
  destruct (JsMap.get (rooms s) c) as [room|]; auto.
  exists room. split; auto using lock_step_refl.
Qed.

Lemma lock_evolves_set s s1 c c' room r' :
  rooms s1 = rooms s ->
  JsMap.get (rooms s) c' = Some room ->
  (c' = c -> lock_step room r') ->
  lock_evolves s (withRooms s1 (JsMap.set (rooms s1) c' r')) c.
Proof.
  intros Hr Hget Hstep. unfold lock_evolves. simpl. rewrite Hr.
  destruct (string_dec c' c) as [->|Hne].
  - rewrite get_set_eq. eauto.
  - rewrite get_set_ne by assumption.
    destruct (JsMap.get (rooms s) c) as [room0|]; auto.
    exists room0. split; auto using lock_step_refl.
Qed.

Ltac lock_step_solve :=
  split; simpl;
  [ intros; auto using has_add_mono
  | let Hb := fresh "Hb" in
    intros ? ? ? ? ? Hb; try discriminate Hb; try (left; eauto; fail) ].

Ltac evolve_leaf :=
  solve
    [ apply lock_evolves_same; reflexivity
    | eapply lock_evolves_set;
      [ solve [reflexivity | eassumption] | eassumption
      | intros ?; lock_step_solve ] ].

Lemma buzz_handler_evolves s sock now codeArg c :
  lock_evolves s (server (buzz_handler s sock now codeArg)) c.
Proof.
  unfold buzz_handler. open_handler; try evolve_leaf.
  destruct (JsMap.get (players room) sock) as [pl|]; simpl; try evolve_leaf.
  destruct (isHost pl || isSpectator pl); simpl; try evolve_leaf.
  destruct (negb (phase_eqb (phase room) TossupReading)
            && negb (phase_eqb (phase room) TossupLive)); simpl;
    try evolve_leaf.
  destruct (teamId pl) as [tid|]; simpl; try evolve_leaf.
  destruct (JsString.truthy tid); simpl; try evolve_leaf.
  destruct (JsSet.has (tossupLockedTeams room) tid) eqn:Hout; simpl;
    try evolve_leaf.
  destruct (buzz room) eqn:Hbz; simpl; try evolve_leaf.
  destruct (phase_eqb (phase room) TossupLive).
  - use_shapes. unfold stopTimer.
    eapply lock_evolves_set; [eassumption|eassumption|]. intros _.
    destruct (negb (running (timer room))); split; simpl; auto.
    + intros ws wn wt a ic [= <- <- <- <- <-]. right. rewrite Hbz. auto.
    + intros ws wn wt a ic [= <- <- <- <- <-]. right. auto.
  - eapply lock_evolves_set; [reflexivity|eassumption|]. intros _.
    split; simpl; auto.
    intros ws wn wt a ic [= <- <- <- <- <-]. right. auto.
Qed.

Lemma host_mark_answer_evolves s sock now codeArg ok c :
  lock_evolves s (server (host_mark_answer s sock now codeArg ok)) c.
Proof.
  unfold host_mark_answer. open_handler; try evolve_leaf.
  destruct (buzz room) as [|ws wn wt a ic] eqn:Hb; simpl; try evolve_leaf.
  destruct (if JsString.truthy wt then _ else _) as [team|]; simpl;
    try evolve_leaf.
  destruct ic as [interrupt|]; simpl; try evolve_leaf.
  destruct ok.
  - use_shapes. use_frames.
    unfold resetTimerFull, setTimer, clearBuzz, addScore. evolve_leaf.
  - destruct interrupt.
    + unfold clearBuzz.
      destruct (otherTeamId _ wt) as [otherId|]; simpl.
      * destruct (JsMap.get (teams room) otherId) as [other|]; simpl.
        -- use_shapes. use_frames.
           unfold resetTimerFull, setTimer, addScore. evolve_leaf.
        -- use_shapes. unfold resetTimerFull, setTimer. evolve_leaf.
      * use_shapes. unfold resetTimerFull, setTimer. evolve_leaf.
    + use_shapes. unfold resetTimerFull, setTimer, clearBuzz. evolve_leaf.
Qed.

Lemma tossupEndCallback_evolves s now code' c :
  lock_evolves s (fst (tossupEndCallback s now code')) c.
Proof.
  unfold tossupEndCallback.
  destruct (JsMap.get (rooms s) code') as [room|] eqn:Hget; simpl;
    try evolve_leaf.
  destruct (phase_eqb (phase room) TossupLive && _ && _); simpl;
    evolve_leaf.
Qed.

Lemma fireTimeout_evolves s now h c :
  lock_evolves s (fst (fireTimeout s now h)) c.
Proof.
  unfold fireTimeout.
  destruct (find _ (pending s)) as [pt|]; simpl; try evolve_leaf.
  exact (tossupEndCallback_evolves (clearTimeout s h) now (capturedCode pt) c).
Qed.

Lemma disconnectRoom_evolves s0 sock now acc entry c :
  NoDup (JsMap.keys (rooms s0)) ->
  In entry (rooms s0) ->
  code (snd entry) = fst entry ->
  server_ok (fst acc) ->
  lock_evolves s0 (fst acc) c ->
  lock_evolves s0 (fst (disconnectRoom sock now acc entry)) c.
Proof.
  destruct acc as [s effs], entry as [k room]. simpl.
  intros Hnd Hin Hcode [Hnd' _] Hev. unfold disconnectRoom. simpl.
  destruct (negb (JsMap.has (players room) sock)); simpl; auto.
  destruct (String.eqb (hostSocketId room) sock).
  - use_shapes. unfold lock_evolves in *. simpl. rewrite H, Hcode.
    destruct (string_dec k c) as [->|Hne].
    + now rewrite get_delete_eq.
    + rewrite get_delete_ne by assumption. exact Hev.
  - simpl. unfold lock_evolves in *. simpl.
    destruct (string_dec k c) as [->|Hne].
    + rewrite get_set_eq. exists room. split.
      * now apply In_get.
      * split; simpl; auto. intros ws wn wt a ic Hb. left. eauto.
    + rewrite get_set_ne by assumption. exact Hev.
Qed.

Lemma disconnect_fold_evolves s0 sock now c l :
  forall acc,
    NoDup (JsMap.keys (rooms s0)) ->
    incl l (rooms s0) ->
    Forall entry_ok l ->
    server_ok (fst acc) ->
    lock_evolves s0 (fst acc) c ->
    lock_evolves s0 (fst (fold_left (disconnectRoom sock now) l acc)) c.
Proof.
  induction l as [|e l IH]; simpl; auto.
  intros acc Hnd Hincl Hall Hok Hev. inversion Hall as [|? ? [Hc Hr] Hall']; subst.
  apply IH; auto.
  - intros x Hx. apply Hincl. now right.
  - apply disconnectRoom_ok; auto. split; auto.
  - apply disconnectRoom_evolves; auto. apply Hincl. now left.
Qed.

Lemma disconnect_evolves s sock now c :
  server_ok s -> lock_evolves s (server (disconnect s sock now)) c.
Proof.
  intros Hok. unfold disconnect.
  pose proof (@disconnect_fold_evolves s sock now c (rooms s) (s, [])
                (proj1 Hok) (incl_refl _) (proj2 Hok) Hok
                (lock_evolves_same s s c eq_refl)) as H.
  destruct (fold_left _ _ _) as [s' effs]. exact H.
Qed.

Lemma handle_message_evolves s sock now m c :
  server_ok s ->
  resetsLockout c (FromSocket sock m) = false ->
  lock_evolves s (server (handle_message s sock now m)) c.
Proof.
  intros Hok Hreset. destruct m; unfold handle_message.
  - (* create_room *)
    simpl in Hreset. apply String.eqb_neq in Hreset.
    unfold create_room, lock_evolves. simpl.
    rewrite get_set_ne by assumption.
    destruct (JsMap.get (rooms s) c) as [room|]; auto.
    exists room. split; auto using lock_step_refl.
  - unfold host_set_room_name. open_handler; try evolve_leaf.
    destruct (negb _); simpl; evolve_leaf.
  - unfold host_set_team_name. open_handler; try evolve_leaf.
    destruct (match tid with Some k => _ | None => _ end) as [t|]; simpl;
      try evolve_leaf.
    destruct (negb _); simpl; evolve_leaf.
  - unfold join_room. open_handler; try evolve_leaf.
    destruct spectate; simpl; try evolve_leaf.
    destruct tid as [k|]; simpl; try evolve_leaf.
    destruct (JsString.truthy k && JsMap.has (teams room) k); simpl;
      evolve_leaf.
  - unfold set_team. evolve_leaf.
  - (* host_start_tossup_reading *)
    simpl in Hreset. apply String.eqb_neq in Hreset.
    unfold host_start_tossup_reading. open_handler; try evolve_leaf.
    destruct (startsWithBonus (phase room)); simpl; try evolve_leaf.
    use_shapes. use_frames. simpl.
    eapply lock_evolves_set; [eassumption|eassumption|]. tauto.
  - unfold host_done_reading_tossup. open_handler; try evolve_leaf.
    destruct (startsWithBonus (phase room)); simpl; try evolve_leaf.
    use_shapes. unfold resetTimerFull, setTimer, clearBuzz. evolve_leaf.
  - apply buzz_handler_evolves.
  - unfold host_clear_buzz. open_handler; try evolve_leaf.
    unfold clearBuzz. simpl.
    destruct (phase_eqb (phase room) TossupLive && running (timer room)).
    + use_shapes. evolve_leaf.
    + evolve_leaf.
  - unfold host_set_interrupt_choice. open_handler; try evolve_leaf.
    destruct (buzz room) as [|ws wn wt a ic] eqn:Hb; simpl; try evolve_leaf.
    eapply lock_evolves_set; [reflexivity|eassumption|]. intros _.
    split; simpl; auto.
    intros ws' wn' wt' a' ic' [= <- <- <- <- <-]. left. rewrite Hb. eauto.
  - apply host_mark_answer_evolves.
  - unfold host_done_reading_bonus. open_handler; try evolve_leaf.
    destruct (negb (phase_eqb (phase room) BonusReading)
              && negb (phase_eqb (phase room) BonusLive)); simpl;
      evolve_leaf.
  - (* host_award_bonus *)
    simpl in Hreset. apply String.eqb_neq in Hreset.
    unfold host_award_bonus. open_handler; try evolve_leaf.
    destruct (negb (startsWithBonus (phase room))); simpl; try evolve_leaf.
    destruct (activeBonusTeamId room) as [tid|]; simpl; try evolve_leaf.
    destruct (if JsString.truthy tid then _ else _) as [team|]; simpl;
      try evolve_leaf.
    destruct (pointsInRange points) as [q|]; simpl; evolve_leaf.
  - (* host_skip_bonus *)
    simpl in Hreset. apply String.eqb_neq in Hreset.
    unfold host_skip_bonus. open_handler; try evolve_leaf.
    destruct (negb (startsWithBonus (phase room))); simpl; evolve_leaf.
  - now apply disconnect_evolves.
Qed.

Lemma step_evolves s now e c :
  server_ok s -> resetsLockout c e = false -> lock_evolves s (step s now e) c.
Proof.
  intros Hok Hreset. destruct e as [sock m|h]; simpl.
  - now apply handle_message_evolves.
  - apply fireTimeout_evolves.
Qed.

Lemma barred_step s now e c tid :
  server_ok s -> resetsLockout c e = false ->
  barred s c tid -> barred (step s now e) c tid.
Proof.
  intros Hok Hreset Hbar.
  pose proof (@step_evolves s now e c Hok Hreset) as Hev.
  unfold barred, lock_evolves in *.
  destruct (JsMap.get (rooms (step s now e)) c) as [room'|]; auto.
  destruct Hev as (room & Hget & Hkeep & _). rewrite Hget in Hbar. auto.
Qed.

Lemma barred_no_acquire s now e c tid :
  server_ok s -> resetsLockout c e = false ->
  barred s c tid -> acquires s c tid now e = false.
Proof.
  intros Hok Hreset Hbar.
  pose proof (@step_evolves s now e c Hok Hreset) as Hev.
  unfold acquires, holdsLock, barred, lock_evolves in *.
  destruct (JsMap.get (rooms (step s now e)) c) as [room'|];
    [|apply andb_false_r].
  destruct Hev as (room & Hget & _ & Hbuzz). rewrite Hget in *.
  destruct (buzz room') as [|ws wn wt a ic] eqn:Hb'; [apply andb_false_r|].
  destruct (Hbuzz _ _ _ _ _ eq_refl) as [[ic0 Hb]|[Hb Hfree]]; rewrite Hb.
  - destruct (String.eqb wt tid); reflexivity.
  - destruct (String.eqb wt tid) eqn:E; auto.
    apply String.eqb_eq in E. subst wt. congruence.
Qed.

Lemma buzz_accepted s sock now codeArg :
  verdict (buzz_handler s sock now codeArg) = Accepted ->
  exists room pl tid room',
    JsMap.get (rooms s) (normCode codeArg) = Some room
    /\ JsMap.get (players room) sock = Some pl
    /\ teamId pl = Some tid
    /\ buzz room = Unlocked
    /\ JsSet.has (tossupLockedTeams room) tid = false
    /\ JsMap.get (rooms (server (buzz_handler s sock now codeArg)))
         (normCode codeArg) = Some room'
    /\ buzz room' = Locked sock (playerName pl) tid now None.
Proof.
  unfold buzz_handler. open_handler; try discriminate.
  destruct (JsMap.get (players room) sock) as [pl|] eqn:Hpl; simpl;
    try discriminate.
  destruct (isHost pl || isSpectator pl); simpl; try discriminate.
  destruct (negb (phase_eqb (phase room) TossupReading)
            && negb (phase_eqb (phase room) TossupLive)); simpl;
    try discriminate.
  destruct (teamId pl) as [tid|] eqn:Htid; simpl; try discriminate.
  destruct (JsString.truthy tid); simpl; try discriminate.
  destruct (JsSet.has (tossupLockedTeams room) tid) eqn:Hout; simpl;
    try discriminate.
  destruct (buzz room) eqn:Hbz; simpl; try discriminate.
  intros _. exists room, pl, tid.
  destruct (if phase_eqb (phase room) TossupLive then _ else _) as [s1 r1].
  simpl. eexists. repeat (split; [first [reflexivity|assumption]|]).
  rewrite get_set_eq. split; reflexivity.
Qed.

(** C2, amended: a buzz is accepted only for a player whose room has its
    buzz unlocked and whose team is not in [tossupLockedTeams], and it locks
    the buzz to that player.  From a reachable state in which a team is
    locked out of a room, no event hands that team the lock of the room as
    long as no event resets the lockout: a start-tossup-reading, an
    award-bonus or a skip-bonus for that room, or a create-room that
    generates the room's code. *)
Theorem buzz_lockout :
  forall s sock now codeArg c tid evs,
    reachable s ->
    (verdict (buzz_handler s sock now codeArg) = Accepted ->
     exists room pl wt room',
       JsMap.get (rooms s) (normCode codeArg) = Some room
       /\ JsMap.get (players room) sock = Some pl
       /\ teamId pl = Some wt
       /\ buzz room = Unlocked
       /\ JsSet.has (tossupLockedTeams room) wt = false
       /\ JsMap.get (rooms (server (buzz_handler s sock now codeArg)))
            (normCode codeArg) = Some room'
       /\ buzz room' = Locked sock (playerName pl) wt now None)
    /\ (lockedOut s c tid = true ->
        forallb (fun ne => negb (resetsLockout c (snd ne))) evs = true ->
        neverAcquires s c tid evs).
Proof.
  intros s sock now codeArg c tid evs Hreach.
  split; [apply buzz_accepted|].
  intros Hout Hevs.
  assert (Hbar : barred s c tid).
  { unfold barred, lockedOut in *.
    destruct (JsMap.get (rooms s) c); auto. }
  pose proof (reachable_ok Hreach) as Hok. clear Hreach Hout.
  revert s Hbar Hok. induction evs as [|[t e] evs IH]; intros s Hbar Hok.
  - exact I.
  - simpl in Hevs. apply andb_true_iff in Hevs as [He Hevs].
    apply negb_true_iff in He. simpl. split.
    + now apply barred_no_acquire.
    + apply IH; auto.
      * now apply barred_step.
      * now apply step_ok.
Qed.

Lemma buzz_lockout_witness :
  (let s := run initServer sessionLive in
   exists room',
     JsMap.get (rooms (server (buzz_handler s "a" 3300 "AAAAAA"))) "AAAAAA"
     = Some room'
     /\ buzz room' = Locked "a" "Al" "t1" 3300 None)
  /\ neverAcquires (run initServer sessionLockedOut) "AAAAAA" "t1"
       sessionNoReset.
Proof.
  split.
  - intros s.
    destruct (@buzz_lockout s "a" 3300 "AAAAAA" "AAAAAA" "t1" []
                (reachable_run _ reachable_init)) as [Hacc _].
    destruct (Hacc eq_refl) as (room & pl & wt & room' & Hg & Hp & Ht & _ & _ & Hg' & Hb).
    exists room'. split; [exact Hg'|].
    vm_compute in Hg. injection Hg as <-.
    vm_compute in Hp. injection Hp as <-.
    vm_compute in Ht. injection Ht as <-.
    exact Hb.
  - apply (@buzz_lockout (run initServer sessionLockedOut) "h" 0 "" "AAAAAA"
             "t1" sessionNoReset (reachable_run _ reachable_init));
      reflexivity.
Defined.

(** * Further properties of the server code *)

(** ** Timer helpers *)

(** X1: stopping a timer freezes the remaining time its snapshot showed at that
    moment: whenever the stopped timer is read later, it reports that value,
    not running, with no deadline.  Stopping again changes nothing. *)
Theorem stopTimer_freezes_snapshot :
  forall room now later,
    computeTimerSnapshot (stopTimer room now) later
    = mkTimerSnapshot (mode (timer room)) false
        (snapRemainingMs (computeTimerSnapshot room now)) 0
    /\ stopTimer (stopTimer room now) later = stopTimer room now.
Proof.
  intros room now later. unfold stopTimer, computeTimerSnapshot.
  destruct room as [? ? ? ? ? ? ? ? ? ? [m [|] rem ends] ? ?]; simpl; auto.
Qed.

(** X2: the remaining time of a snapshot only counts down: between two readings
    it drops by no more than the time elapsed, a clock that reads running
    later read running before, and while it reads running the remaining time
    is exactly the distance to the deadline it reports. *)
Theorem computeTimerSnapshot_counts_down :
  forall room now1 now2,
    now1 <= now2 ->
    0 <= snapRemainingMs (computeTimerSnapshot room now1)
         - snapRemainingMs (computeTimerSnapshot room now2)
      <= now2 - now1
    /\ (snapRunning (computeTimerSnapshot room now2) = true ->
        snapRunning (computeTimerSnapshot room now1) = true)
    /\ (snapRunning (computeTimerSnapshot room now2) = true ->
        snapEndsAtMs (computeTimerSnapshot room now2) = endsAtMs (timer room)
        /\ snapRemainingMs (computeTimerSnapshot room now2)
           = endsAtMs (timer room) - now2).
Proof.
  intros room now1 now2 Hle. unfold computeTimerSnapshot.
  destruct (running (timer room)); simpl.
  - split; [lia|]. split.
    + rewrite !Z.ltb_lt. lia.
    + intros H. rewrite H. apply Z.ltb_lt in H. split; [reflexivity|lia].
  - split; [lia|]. split; [auto|discriminate].
Qed.

Lemma computeTimerSnapshot_counts_down_witness :
  exists room,
    JsMap.get (rooms (run initServer sessionLive)) "AAAAAA" = Some room
    /\ snapRemainingMs (computeTimerSnapshot room 2000) = 4300
    /\ 0 <= snapRemainingMs (computeTimerSnapshot room 2000)
            - snapRemainingMs (computeTimerSnapshot room 2500) <= 500.
Proof.
  eexists. split; [vm_compute; reflexivity|]. split; [reflexivity|].
  refine (proj1 (@computeTimerSnapshot_counts_down _ 2000 2500 _)).
  vm_compute; discriminate.
Defined.

(** X3: a timer reset to run shows, [d] milliseconds later, its full time less
    [d] (never below zero) and reads running exactly while that is positive;
    stopping it then stores that value.  A timer reset paused shows its full
    time whenever it is read. *)
Theorem resetTimerFull_elapsed :
  forall room now m d later,
    let full :=
      (match m with
       | TossupMode => tossupSeconds (settings room)
       | BonusMode => bonusSeconds (settings room)
       end) * 1000 in
    computeTimerSnapshot (resetTimerFull room now m true) (now + d)
    = mkTimerSnapshot m (0 <? full - d) (Z.max 0 (full - d))
        (if 0 <? full - d then now + full else 0)
    /\ timer (stopTimer (resetTimerFull room now m true) (now + d))
       = mkTimer m false (Z.max 0 (full - d)) 0
    /\ computeTimerSnapshot (resetTimerFull room now m false) later
       = mkTimerSnapshot m false full 0.
Proof.
  intros room now m d later full. subst full.
  unfold resetTimerFull, setTimer, stopTimer, computeTimerSnapshot. simpl.
  set (full := _ * 1000).
  replace (now + full - (now + d)) with (full - d) by lia.
  assert (E : (0 <? Z.max 0 (full - d)) = (0 <? full - d)).
  { destruct (0 <? full - d) eqn:H.
    - apply Z.ltb_lt. apply Z.ltb_lt in H. lia.
    - apply Z.ltb_ge. apply Z.ltb_ge in H. lia. }
  rewrite E. repeat split.
Qed.

(** ** Room codes *)

Lemma dropSpaces_fixed l :
  match l with [] => True | c :: _ => JsString.isSpace c = false end ->
  JsString.dropSpaces l = l.
Proof. destruct l as [|c l]; simpl; auto. now intros ->. Qed.

(** Trimming on character lists. *)
Lemma trim_list s :
  list_ascii_of_string (JsString.trim s)
  = rev (JsString.dropSpaces (rev (JsString.dropSpaces (list_ascii_of_string s)))).
Proof. unfold JsString.trim. apply list_ascii_of_string_of_list_ascii. Qed.

Lemma list_ascii_inj s1 s2 :
  list_ascii_of_string s1 = list_ascii_of_string s2 -> s1 = s2.
Proof.
  intros H. rewrite <- (string_of_list_ascii_of_string s1),
    <- (string_of_list_ascii_of_string s2). now rewrite H.
Qed.

Lemma isCode_append s1 s2 :
  isCode (s1 ++ s2) = isCode s1 && isCode s2.
Proof.
  induction s1 as [|c s1 IH]; simpl; auto.
  rewrite IH. now rewrite andb_assoc.
Qed.

Lemma length_string_append s1 s2 :
  String.length (s1 ++ s2) = (String.length s1 + String.length s2)%nat.
Proof. induction s1 as [|c s1 IH]; simpl; auto. Qed.

Lemma isCode_toUpperCase s : isCode s = true -> JsString.toUpperCase s = s.
Proof.
  induction s as [|c s IH]; simpl; auto.
  intros H. apply andb_true_iff in H as [H Hs].
  apply andb_true_iff in H as [_ Hc]. apply Ascii.eqb_eq in Hc.
  now rewrite Hc, IH.
Qed.

Lemma isCode_no_space s :
  isCode s = true ->
  Forall (fun c => JsString.isSpace c = false) (list_ascii_of_string s).
Proof.
  induction s as [|c s IH]; simpl; auto.
  intros H. apply andb_true_iff in H as [H Hs].
  apply andb_true_iff in H as [Hc _]. apply negb_true_iff in Hc. auto.
Qed.

Lemma dropSpaces_no_space l :
  Forall (fun c => JsString.isSpace c = false) l -> JsString.dropSpaces l = l.
Proof. intros H. apply dropSpaces_fixed. destruct H; auto. Qed.

Lemma isCode_normCode s : isCode s = true -> normCode s = s.
Proof.
  intros H. unfold normCode. rewrite (isCode_toUpperCase _ H).
  apply list_ascii_inj. rewrite trim_list.
  pose proof (isCode_no_space _ H) as Hf.
  rewrite (dropSpaces_no_space Hf).
  rewrite (dropSpaces_no_space (Forall_rev Hf)).
  apply rev_involutive.
Qed.

Lemma alphabetAt_code k :
  0 <= k < 32 ->
  isCode (alphabetAt k) = true /\ String.length (alphabetAt k) = 1%nat.
Proof.
  intros Hk.
  assert (E : k = Z.of_nat (Z.to_nat k)) by lia.
  assert (Hn : (Z.to_nat k < 32)%nat) by lia.
  rewrite E. generalize dependent (Z.to_nat k). clear. intros n _ Hn.
  do 32 (destruct n as [|n]; [split; reflexivity|]). lia.
Qed.

Lemma draw_index (r : Q) :
  (0 <= r)%Q -> (r < 1)%Q -> (0 <= Qfloor (r * inject_Z 32) < 32)%Z.
Proof.
  intros H0 H1. split.
  - change 0%Z with (Qfloor 0%Q). apply Qfloor_resp_le.
    destruct r as [a b]. unfold Qle in *. simpl in *. lia.
  - rewrite Zlt_Qlt. eapply Qle_lt_trans; [apply Qfloor_le|].
    destruct r as [a b]. unfold Qlt in *. simpl in *. lia.
Qed.

Lemma genCodeLoop_code random n :
  forall i acc,
    (forall j, (i <= j < i + n)%nat -> (0 <= random j)%Q /\ (random j < 1)%Q) ->
    isCode acc = true ->
    isCode (genCodeLoop random i n acc) = true
    /\ String.length (genCodeLoop random i n acc)
       = (String.length acc + n)%nat.
Proof.
  induction n as [|n IH]; intros i acc Hr Hacc; cbn [genCodeLoop].
  - split; auto.
  - destruct (Hr i) as [H0 H1]; [lia|].
    destruct (alphabetAt_code (draw_index H0 H1)) as [Hc Hl].
    change (inject_Z (Z.of_nat (String.length alphabet))) with (inject_Z 32).
    destruct (IH (S i)
                (acc ++ alphabetAt (Qfloor (random i * inject_Z 32))))
      as [Hcode Hlen].
    + intros j Hj. apply Hr. lia.
    + now rewrite isCode_append, Hacc, Hc.
    + split; auto. rewrite Hlen, length_string_append, Hl. lia.
Qed.

(** X5: when every draw of [Math.random] lies in [0, 1), the generated code has
    six characters, none of them a blank or a lower-case letter, so the
    normalisation applied to incoming codes leaves it as it is: the room
    [create_room] registers is found under the normalised form of the code
    it announced. *)
Theorem genCode_is_normal :
  forall s sock now hostName roomNameArg numTeams random nanoid,
    (forall i, (i < 6)%nat -> (0 <= random i)%Q /\ (random i < 1)%Q) ->
    String.length (genCode random) = 6%nat
    /\ isCode (genCode random) = true
    /\ normCode (genCode random) = genCode random
    /\ exists room,
         JsMap.get
           (rooms (server (create_room s sock now hostName roomNameArg
                             numTeams random nanoid)))
           (normCode (genCode random)) = Some room
         /\ code room = genCode random.
Proof.
  intros s sock now hostName roomNameArg numTeams random nanoid Hr.
  destruct (@genCodeLoop_code random 6 0 "") as [Hc Hl]; auto.
  { intros j Hj. apply Hr. lia. }
  fold (genCode random) in Hc, Hl.
  split; [exact Hl|]. split; [exact Hc|].
  rewrite (isCode_normCode _ Hc). split; [reflexivity|].
  unfold create_room. simpl. eexists. split; [apply get_set_eq|reflexivity].
Qed.

Lemma genCode_is_normal_witness :
  genCode seventhDraws = "AEKPUY"
  /\ normCode (genCode seventhDraws) = genCode seventhDraws.
Proof.
  split; [reflexivity|].
  refine (proj1 (proj2 (proj2
            (@genCode_is_normal initServer "h" 0 None "" JNaN seventhDraws
               sampleIds _)))).
  intros i Hi. unfold seventhDraws.
  do 6 (destruct i as [|i]; [split; vm_compute; congruence|]). lia.
Defined.

(** ** The team that benefits from an interrupt *)

Lemma find_first_other (tid : string) (ks : list string) :
  match find (fun id => negb (String.eqb id tid)) ks with
  | Some o =>
      o <> tid
      /\ exists pre post, ks = (pre ++ o :: post)%list /\ Forall (eq tid) pre
  | None => Forall (eq tid) ks
  end.
Proof.
  induction ks as [|k ks IH]; simpl; auto.
  destruct (String.eqb k tid) eqn:E; simpl.
  - apply String.eqb_eq in E. subst k.
    destruct (find _ ks) as [o|].
    + destruct IH as [Hne (pre & post & -> & Hpre)]. split; auto.
      exists (tid :: pre), post. split; auto.
    + auto.
  - apply String.eqb_neq in E. split; auto.
    exists [], ks. auto.
Qed.

(** X6: [otherTeamId] answers with the first team, in creation order, whose id
    differs from the given one, and never with the given id or an empty id.
    It answers nothing only when every team carries the given id or the
    first other id is empty; so in a room with at least two teams, all ids
    distinct and non-empty, it always names a team of the room. *)
Theorem otherTeamId_first_other :
  forall room tid,
    match otherTeamId room tid with
    | Some o =>
        o <> tid /\ o <> ""
        /\ JsMap.has (teams room) o = true
        /\ exists pre post,
             JsMap.keys (teams room) = (pre ++ o :: post)%list
             /\ Forall (eq tid) pre
    | None =>
        Forall (eq tid) (JsMap.keys (teams room))
        \/ exists pre post,
             JsMap.keys (teams room) = (pre ++ "" :: post)%list
             /\ Forall (eq tid) pre
    end
    /\ (NoDup (JsMap.keys (teams room)) ->
        ~ In "" (JsMap.keys (teams room)) ->
        (2 <= List.length (teams room))%nat ->
        exists o, otherTeamId room tid = Some o).
Proof.
  intros room tid. unfold otherTeamId.
  pose proof (find_first_other tid (JsMap.keys (teams room))) as H.
  destruct (find _ (JsMap.keys (teams room))) as [o|] eqn:F.
  - destruct H as [Hne (pre & post & Hk & Hpre)].
    unfold JsString.truthy. destruct (String.eqb o "") eqn:E; simpl.
    + apply String.eqb_eq in E. subst o. split.
      * right. eauto.
      * intros _ Hno _. exfalso. apply Hno. rewrite Hk.
        apply in_or_app. right. now left.
    + apply String.eqb_neq in E. split; [|eauto].
      repeat split; auto.
      * apply has_true_keys. rewrite Hk. apply in_or_app. right. now left.
      * eauto.
  - split; [now left|].
    intros Hnd _ Hlen. exfalso.
    unfold JsMap.keys in *.
    destruct (teams room) as [|[k1 t1] [|[k2 t2] rest]]; simpl in *;
      try lia.
    inversion H as [|? ? H1 H']; subst. inversion H' as [|? ? H2 _]; subst.
    inversion Hnd as [|? ? Hnot _]; subst. apply Hnot. now left.
Qed.

Lemma otherTeamId_first_other_witness :
  exists room,
    JsMap.get (rooms (run initServer sessionJoined)) "AAAAAA" = Some room
    /\ otherTeamId room "t1" = Some "t2"
    /\ otherTeamId room "t2" = Some "t1"
    /\ exists o, otherTeamId room "zz" = Some o.
Proof.
  eexists. split; [vm_compute; reflexivity|].
  split; [reflexivity|]. split; [reflexivity|].
  refine (proj2 (@otherTeamId_first_other _ "zz") _ _ _).
  - vm_compute. repeat constructor; simpl; intuition discriminate.
  - vm_compute. intuition discriminate.
  - vm_compute. lia.
Defined.

(** ** Coherence of phase, bonus team, timer and membership *)

Lemma JsSet_has_In (st : JsSet.t) k : JsSet.has st k = true <-> In k st.
Proof.
  unfold JsSet.has. rewrite existsb_exists. split.
  - intros [x [Hin E]]. apply String.eqb_eq in E. now subst.
  - intros Hin. exists k. split; auto. apply String.eqb_refl.
Qed.

Lemma JsSet_add_NoDup (st : JsSet.t) k : NoDup st -> NoDup (JsSet.add st k).
Proof.
  intros Hnd. unfold JsSet.add. destruct (JsSet.has st k) eqn:E; auto.
  apply NoDup_app; auto.
  - repeat constructor. simpl. tauto.
  - intros x Hx [<-|[]]. apply JsSet_has_In in Hx. congruence.
Qed.

Lemma JsSet_has_add (st : JsSet.t) k t :
  JsSet.has (JsSet.add st k) t = true -> t = k \/ JsSet.has st t = true.
Proof.
  unfold JsSet.add. destruct (JsSet.has st k); auto.
  rewrite !JsSet_has_In, in_app_iff. simpl. intuition.
Qed.

Lemma server_coherent_get s c r :
  server_coherent s -> JsMap.get (rooms s) c = Some r -> room_coherent r.
Proof.
  intros Hall Hget. apply get_In in Hget.
  unfold server_coherent in Hall. rewrite Forall_forall in Hall.
  exact (Hall _ Hget).
Qed.

Lemma server_coherent_set s s1 c r :
  server_coherent s -> rooms s1 = rooms s -> room_coherent r ->
  server_coherent (withRooms s1 (JsMap.set (rooms s1) c r)).
Proof.
  intros Hall Hr Hok. unfold server_coherent. simpl. rewrite Hr.
  apply Forall_set; auto.
Qed.

Lemma truthy_get_has (ts : JsMap.t Team) tid team :
  (if JsString.truthy tid then JsMap.get ts tid else None) = Some team ->
  JsString.truthy tid = true /\ JsMap.get ts tid = Some team
  /\ JsMap.has ts tid = true.
Proof.
  destruct (JsString.truthy tid); [|discriminate].
  intros H. unfold JsMap.has. rewrite H. auto.
Qed.

Lemma Forall_team_keys_set (ts : JsMap.t Team) k t :
  Forall (fun kt => teamKey (snd kt) = fst kt) ts ->
  teamKey t = k ->
  Forall (fun kt => teamKey (snd kt) = fst kt) (JsMap.set ts k t).
Proof. intros H E. apply Forall_set; auto. Qed.

Lemma team_key_of_get (ts : JsMap.t Team) k t :
  Forall (fun kt => teamKey (snd kt) = fst kt) ts ->
  JsMap.get ts k = Some t -> teamKey t = k.
Proof.
  intros H G. apply get_In in G. rewrite Forall_forall in H.
  exact (H _ G).
Qed.

Ltac coh_finish :=
  simpl in *;
  try (intros; discriminate);
  try assumption;
  try solve
    [ intuition (try congruence; try discriminate;
                 eauto using has_set_mono, JsSet_add_NoDup, NoDup_keys_set,
                   NoDup_keys_delete, Forall_delete)
    | match goal with
      | |- context [activeBonusTeamId ?r] =>
          destruct (activeBonusTeamId r); simpl in *;
          intuition (try congruence; eauto using has_set_mono)
      end
    | match goal with
      | |- context [startsWithBonus (phase ?r)] =>
          destruct (phase r); simpl in *;
          intuition (try congruence; try discriminate)
      end
    | constructor
    | apply Forall_team_keys_set;
      [ assumption
      | simpl; first [ assumption | eapply team_key_of_get; eassumption ] ]
    | let t := fresh "t" in
      let Ht := fresh "Ht" in
      intros t Ht; try apply has_set_mono;
      apply JsSet_has_add in Ht as [->|Ht]; auto
    | rewrite has_set;
      match goal with H : _ = true |- _ => rewrite H end;
      apply orb_true_r
    | apply Forall_set; [assumption | reflexivity]
    | let E := fresh "E" in
      intros ? ? ? ? ? E; injection E as <- <- <- <- <-;
      first [ assumption | eauto ] ].

Ltac coh_fields H :=
  let Hbt := fresh "Hbt" in
  let Hbu := fresh "Hbu" in
  let Hmode := fresh "Hmode" in
  let Hrun := fresh "Hrun" in
  let Hpau := fresh "Hpau" in
  let Hlt := fresh "Hlt" in
  let Hlnd := fresh "Hlnd" in
  let Hhp := fresh "Hhp" in
  let Hpnd := fresh "Hpnd" in
  let Htk := fresh "Htk" in
  let Hpk := fresh "Hpk" in
  let Hwf := fresh "Hwf" in
  destruct H as [Hbt Hbu Hmode Hrun Hpau Hlt Hlnd Hhp Hpnd Htk Hpk Hwf];
  constructor; coh_finish.

Lemma host_start_tossup_reading_coherent s sock now c :
  server_coherent s ->
  server_coherent (server (host_start_tossup_reading s sock now c)).
Proof.
  intros Hok. unfold host_start_tossup_reading. open_handler.
  destruct (startsWithBonus (phase room)) eqn:Hph; simpl; auto.
  pose proof (server_coherent_get _ Hok Hget) as Hr.
  use_shapes. use_frames. unfold resetTimerFull, setTimer, clearBuzz. simpl.
  apply server_coherent_set with (s := s); auto.
  coh_fields Hr.
Qed.

Lemma host_done_reading_tossup_coherent s sock now c :
  server_coherent s ->
  server_coherent (server (host_done_reading_tossup s sock now c)).
Proof.
  intros Hok. unfold host_done_reading_tossup. open_handler.
  destruct (startsWithBonus (phase room)) eqn:Hph; simpl; auto.
  pose proof (server_coherent_get _ Hok Hget) as Hr.
  use_shapes. unfold resetTimerFull, setTimer, clearBuzz. simpl.
  apply server_coherent_set with (s := s); auto.
  coh_fields Hr.
Qed.

Lemma host_set_room_name_coherent s sock now c rn :
  server_coherent s ->
  server_coherent (server (host_set_room_name s sock now c rn)).
Proof.
  intros Hok. unfold host_set_room_name. open_handler.
  destruct (negb _); simpl; auto.
  pose proof (server_coherent_get _ Hok Hget) as Hr.
  apply server_coherent_set with (s := s); auto.
  coh_fields Hr.
Qed.

Lemma host_set_team_name_coherent s sock now c tid nm :
  server_coherent s ->
  server_coherent (server (host_set_team_name s sock now c tid nm)).
Proof.
  intros Hok. unfold host_set_team_name. open_handler.
  destruct tid as [k|]; simpl; auto.
  destruct (JsMap.get (teams room) k) as [t|] eqn:Ht; simpl; auto.
  destruct (negb _); simpl; auto.
  pose proof (server_coherent_get _ Hok Hget) as Hr.
  apply server_coherent_set with (s := s); auto.
  coh_fields Hr.
Qed.

Lemma join_room_coherent s sock now c nm tid sp :
  server_coherent s ->
  server_coherent (server (join_room s sock now c nm tid sp)).
Proof.
  intros Hok. unfold join_room. open_handler.
  pose proof (server_coherent_get _ Hok Hget) as Hr.
  destruct sp; simpl.
  - apply server_coherent_set with (s := s); auto.
    coh_fields Hr.
  - destruct tid as [k|]; simpl; auto.
    destruct (JsString.truthy k && JsMap.has (teams room) k); simpl; auto.
    apply server_coherent_set with (s := s); auto.
    coh_fields Hr.
Qed.

Lemma buzz_handler_coherent s sock now c :
  server_coherent s -> server_coherent (server (buzz_handler s sock now c)).
Proof.
  intros Hok. unfold buzz_handler. open_handler.
  pose proof (server_coherent_get _ Hok Hget) as Hr.
  destruct (JsMap.get (players room) sock) as [pl|] eqn:Hpl0; simpl; auto.
  destruct (isHost pl || isSpectator pl); simpl; auto.
  destruct (negb (phase_eqb (phase room) TossupReading)
            && negb (phase_eqb (phase room) TossupLive)) eqn:Hph; simpl; auto.
  destruct (teamId pl) as [tid|] eqn:Htid; simpl; auto.
  destruct (JsString.truthy tid) eqn:Htr; simpl; auto.
  destruct (JsSet.has (tossupLockedTeams room) tid) eqn:Hfree; simpl; auto.
  destruct (locked (buzz room)); simpl; auto.
  assert (Hnb : startsWithBonus (phase room) = false)
    by (destruct (phase room); simpl in *; auto; discriminate).
  destruct (phase_eqb (phase room) TossupLive) eqn:Hlive.
  - use_shapes. unfold stopTimer.
    apply server_coherent_set with (s := s); auto.
    destruct (running (timer room)) eqn:Hrunning; simpl; coh_fields Hr.
  - apply server_coherent_set with (s := s); auto.
    coh_fields Hr.
Qed.

Lemma host_clear_buzz_coherent s sock now c :
  server_coherent s -> server_coherent (server (host_clear_buzz s sock now c)).
Proof.
  intros Hok. unfold host_clear_buzz. open_handler.
  pose proof (server_coherent_get _ Hok Hget) as Hr.
  unfold clearBuzz. simpl.
  destruct (phase_eqb (phase room) TossupLive && running (timer room)).
  - use_shapes. apply server_coherent_set with (s := s); auto.
    coh_fields Hr.
  - apply server_coherent_set with (s := s); auto.
    coh_fields Hr.
Qed.

Lemma host_set_interrupt_choice_coherent s sock now c i :
  server_coherent s ->
  server_coherent (server (host_set_interrupt_choice s sock now c i)).
Proof.
  intros Hok. unfold host_set_interrupt_choice. open_handler.
  pose proof (server_coherent_get _ Hok Hget) as Hr.
  destruct (buzz room) as [|ws wn wt a ic] eqn:Hb; simpl; auto.
  apply server_coherent_set with (s := s); auto.
  coh_fields Hr.
Qed.

Lemma host_mark_answer_coherent s sock now c ok :
  server_coherent s ->
  server_coherent (server (host_mark_answer s sock now c ok)).
Proof.
  intros Hok. unfold host_mark_answer. open_handler.
  pose proof (server_coherent_get _ Hok Hget) as Hr.
  destruct (buzz room) as [|ws wn wt a ic] eqn:Hb; simpl; auto.
  destruct (if JsString.truthy wt then _ else _) as [team|] eqn:Hteam;
    simpl; auto.
  apply truthy_get_has in Hteam as (Htr & Hteam & Hhas).
  destruct ic as [interrupt|]; simpl; auto.
  assert (Hnb : startsWithBonus (phase room) = false).
  { destruct (startsWithBonus (phase room)) eqn:E; auto.
    rewrite (coh_bonus_unlocked Hr E) in Hb. discriminate. }
  assert (Hkey : teamKey team = wt)
    by exact (@team_key_of_get _ _ _ (coh_team_keys Hr) Hteam).
  destruct ok.
  - use_shapes. use_frames.
    unfold resetTimerFull, setTimer, clearBuzz, addScore. simpl.
    apply server_coherent_set with (s := s); auto.
    coh_fields Hr.
  - destruct interrupt.
    + unfold clearBuzz.
      destruct (otherTeamId _ wt) as [otherId|]; simpl.
      * destruct (JsMap.get (teams room) otherId) as [other|] eqn:Hother;
          simpl.
        -- use_shapes. use_frames.
           unfold resetTimerFull, setTimer, addScore. simpl.
           apply server_coherent_set with (s := s); auto.
           coh_fields Hr.
        -- use_shapes. unfold resetTimerFull, setTimer. simpl.
           apply server_coherent_set with (s := s); auto.
           coh_fields Hr.
      * use_shapes. unfold resetTimerFull, setTimer. simpl.
        apply server_coherent_set with (s := s); auto.
        coh_fields Hr.
    + use_shapes. unfold resetTimerFull, setTimer, clearBuzz. simpl.
      apply server_coherent_set with (s := s); auto.
      coh_fields Hr.
Qed.

Lemma host_done_reading_bonus_coherent s sock now c :
  server_coherent s ->
  server_coherent (server (host_done_reading_bonus s sock now c)).
Proof.
  intros Hok. unfold host_done_reading_bonus. open_handler.
  pose proof (server_coherent_get _ Hok Hget) as Hr.
  destruct (negb (phase_eqb (phase room) BonusReading)
            && negb (phase_eqb (phase room) BonusLive)) eqn:Hph; simpl; auto.
  assert (Hb : startsWithBonus (phase room) = true)
    by (destruct (phase room); simpl in *; auto; discriminate).
  unfold resetTimerFull, setTimer. simpl.
  apply server_coherent_set with (s := s); auto.
  coh_fields Hr.
Qed.

Lemma backToLobby_coherent room now :
  room_coherent room -> room_coherent (backToLobby room now).
Proof.
  intros Hr. unfold backToLobby, resetTimerFull, setTimer, clearBuzz. simpl.
  coh_fields Hr.
Qed.

Lemma host_award_bonus_coherent s sock now c pts :
  server_coherent s ->
  server_coherent (server (host_award_bonus s sock now c pts)).
Proof.
  intros Hok. unfold host_award_bonus. open_handler.
  pose proof (server_coherent_get _ Hok Hget) as Hr.
  destruct (negb (startsWithBonus (phase room))); simpl; auto.
  destruct (activeBonusTeamId room) as [tid|] eqn:Hact; simpl; auto.
  destruct (if JsString.truthy tid then _ else _) as [team|] eqn:Hteam;
    simpl; auto.
  apply truthy_get_has in Hteam as (Htr & Hteam & Hhas).
  destruct (pointsInRange pts) as [q|]; simpl; auto.
  use_frames. apply server_coherent_set with (s := s); auto.
  apply backToLobby_coherent. unfold addScore.
  coh_fields Hr.
Qed.

Lemma host_skip_bonus_coherent s sock now c :
  server_coherent s ->
  server_coherent (server (host_skip_bonus s sock now c)).
Proof.
  intros Hok. unfold host_skip_bonus. open_handler.
  pose proof (server_coherent_get _ Hok Hget) as Hr.
  destruct (negb (startsWithBonus (phase room))); simpl; auto.
  apply server_coherent_set with (s := s); auto.
  now apply backToLobby_coherent.
Qed.

Lemma createTeams_keys nanoid n :
  forall i acc,
    Forall (fun kt => teamKey (snd kt) = fst kt) acc ->
    Forall (fun kt => teamKey (snd kt) = fst kt) (createTeams nanoid i n acc).
Proof.
  induction n as [|n IH]; simpl; auto.
  intros i acc H. apply IH. now apply Forall_team_keys_set.
Qed.

Lemma create_room_coherent s sock now hn rn n random nanoid :
  server_coherent s ->
  server_coherent (server (create_room s sock now hn rn n random nanoid)).
Proof.
  intros Hok. unfold create_room. simpl.
  apply server_coherent_set with (s := s); auto.
  constructor; simpl; auto; try (intros; discriminate).
  - constructor.
  - unfold JsMap.has. simpl. now rewrite String.eqb_refl.
  - repeat constructor. simpl. tauto.
  - apply createTeams_keys. constructor.
Qed.

Lemma disconnectRoom_coherent sock now acc entry :
  server_coherent (fst acc) -> room_coherent (snd entry) ->
  server_coherent (fst (disconnectRoom sock now acc entry)).
Proof.
  destruct acc as [s effs], entry as [k room]. simpl.
  intros Hok Hr. unfold disconnectRoom. simpl.
  destruct (negb (JsMap.has (players room) sock)); simpl; auto.
  destruct (String.eqb (hostSocketId room) sock) eqn:Hhost.
  - use_shapes. unfold server_coherent in *. simpl. rewrite H.
    now apply Forall_delete.
  - simpl. apply server_coherent_set with (s := s); auto.
    apply String.eqb_neq in Hhost.
    coh_fields Hr.
    unfold JsMap.has in *. now rewrite get_delete_ne by congruence.
Qed.

Lemma disconnect_coherent s sock now :
  server_coherent s -> server_coherent (server (disconnect s sock now)).
Proof.
  intros Hok. unfold disconnect.
  assert (H : forall l acc,
             Forall (fun kr : string * Room => room_coherent (snd kr)) l ->
             server_coherent (fst acc) ->
             server_coherent (fst (fold_left (disconnectRoom sock now) l acc))).
  { induction l as [|e l IH]; simpl; auto.
    intros acc Hall Hacc. inversion Hall; subst.
    apply IH; auto. now apply disconnectRoom_coherent. }
  specialize (H (rooms s) (s, []) Hok Hok).
  destruct (fold_left _ _ _) as [s' effs]. exact H.
Qed.

Lemma tossupEndCallback_coherent s now c :
  server_coherent s -> server_coherent (fst (tossupEndCallback s now c)).
Proof.
  intros Hok. unfold tossupEndCallback.
  destruct (JsMap.get (rooms s) c) as [room|] eqn:Hget; simpl; auto.
  pose proof (server_coherent_get _ Hok Hget) as Hr.
  destruct (phase_eqb (phase room) TossupLive) eqn:Hph; simpl; auto.
  destruct (_ && _); simpl; auto.
  apply phase_eqb_eq in Hph.
  apply server_coherent_set with (s := s); auto.
  unfold clearBuzz.
  destruct Hr as [Hbt Hbu Hmode Hrun Hpau Hlt Hlnd Hhp Hpnd Htk Hpk Hwf].
  rewrite Hph in *.
  constructor; coh_finish.
Qed.

Lemma step_coherent s now e :
  server_coherent s -> server_coherent (step s now e).
Proof.
  intros Hok. destruct e as [sock m|h]; simpl.
  - destruct m; unfold handle_message; try exact Hok;
      auto using create_room_coherent, host_set_room_name_coherent,
        host_set_team_name_coherent, join_room_coherent,
        host_start_tossup_reading_coherent,
        host_done_reading_tossup_coherent, buzz_handler_coherent,
        host_clear_buzz_coherent, host_set_interrupt_choice_coherent,
        host_mark_answer_coherent, host_done_reading_bonus_coherent,
        host_award_bonus_coherent, host_skip_bonus_coherent,
        disconnect_coherent.
  - unfold fireTimeout. destruct (find _ (pending s)); simpl; auto.
    now apply tossupEndCallback_coherent.
Qed.

Lemma reachable_coherent s : reachable s -> server_coherent s.
Proof.
  induction 1 as [|s now e _ IH].
  - constructor.
  - now apply step_coherent.
Qed.

(** X7: in every reachable state a room has an active bonus team exactly while
    its phase is a bonus phase; that team is a team of the room; during a
    bonus phase the buzz is unlocked; and the timer counts the bonus time in
    bonus phases and the toss-up time otherwise. *)
Theorem bonus_phase_coherence :
  forall s c room,
    reachable s ->
    JsMap.get (rooms s) c = Some room ->
    (startsWithBonus (phase room) = true
     <-> exists tid, activeBonusTeamId room = Some tid)
    /\ (forall tid,
          activeBonusTeamId room = Some tid ->
          exists team,
            JsMap.get (teams room) tid = Some team /\ teamKey team = tid)
    /\ (startsWithBonus (phase room) = true -> buzz room = Unlocked)
    /\ mode (timer room)
       = (if startsWithBonus (phase room) then BonusMode else TossupMode).
Proof.
  intros s c room Hreach Hget.
  pose proof (server_coherent_get _ (reachable_coherent Hreach) Hget) as Hr.
  destruct Hr as [Hbt Hbu Hmode _ _ _ _ _ _ Htk _ _].
  repeat split; auto.
  - intros Hb. destruct (activeBonusTeamId room) as [tid|]; eauto.
    congruence.
  - intros [tid Ht]. rewrite Ht in Hbt. tauto.
  - intros tid Ht. rewrite Ht in Hbt. destruct Hbt as (_ & _ & Hhas).
    apply has_true_keys, In_keys_get in Hhas as [team Hteam].
    exists team. split; auto. eapply team_key_of_get; eauto.
Qed.

Lemma bonus_phase_coherence_witness :
  exists room,
    JsMap.get (rooms (run initServer sessionBonus)) "AAAAAA" = Some room
    /\ phase room = BonusReading
    /\ activeBonusTeamId room = Some "t1"
    /\ buzz room = Unlocked
    /\ mode (timer room) = BonusMode.
Proof.
  eexists. split; [vm_compute; reflexivity|].
  split; [reflexivity|]. split; [reflexivity|].
  edestruct (@bonus_phase_coherence (run initServer sessionBonus) "AAAAAA")
    as (_ & _ & Hb & Hm).
  - exact (reachable_run _ reachable_init).
  - vm_compute; reflexivity.
  - split; [apply Hb; reflexivity|exact Hm].
Defined.

(** X8: in every reachable state a room's clock is marked running only in the
    phases tossup_live and bonus_live, so in every other phase the snapshot
    sent to clients reads stopped; a stopped clock stores no deadline and a
    remaining time that is not negative. *)
Theorem timer_runs_only_live :
  forall s c room now,
    reachable s ->
    JsMap.get (rooms s) c = Some room ->
    (running (timer room) = true ->
     phase room = TossupLive \/ phase room = BonusLive)
    /\ (phase room <> TossupLive -> phase room <> BonusLive ->
        computeTimerSnapshot room now
        = mkTimerSnapshot (mode (timer room)) false
            (remainingMs (timer room)) 0)
    /\ (running (timer room) = false ->
        endsAtMs (timer room) = 0 /\ 0 <= remainingMs (timer room)).
Proof.
  intros s c room now Hreach Hget.
  pose proof (server_coherent_get _ (reachable_coherent Hreach) Hget) as Hr.
  destruct (server_ok_get _ (reachable_ok Hreach) Hget) as [_ Hk].
  destruct Hr as [_ _ _ Hrun Hpau _ _ _ _ _ _ _].
  split; [exact Hrun|]. split.
  - intros H1 H2. unfold computeTimerSnapshot.
    destruct (running (timer room)); simpl; auto.
    destruct (Hrun eq_refl); contradiction.
  - intros H. split; [auto|apply (ok_remaining Hk)].
Qed.

Lemma timer_runs_only_live_witness :
  exists room,
    JsMap.get (rooms (run initServer sessionBonus)) "AAAAAA" = Some room
    /\ computeTimerSnapshot room 9999
       = mkTimerSnapshot BonusMode false 20000 0.
Proof.
  eexists. split; [vm_compute; reflexivity|].
  refine (proj1 (proj2 (@timer_runs_only_live
                          (run initServer sessionBonus) "AAAAAA" _ 9999
                          (reachable_run _ reachable_init) _)) _ _).
  - vm_compute; reflexivity.
  - discriminate.
  - discriminate.
Defined.

(** X9: in every reachable state the locked-out teams of a room are teams of
    the room, each listed once, and the team holding the buzz is not among
    them. *)
Theorem lockout_set_wellformed :
  forall s c room,
    reachable s ->
    JsMap.get (rooms s) c = Some room ->
    NoDup (tossupLockedTeams room)
    /\ (forall t, In t (tossupLockedTeams room) ->
          In t (JsMap.keys (teams room)))
    /\ (forall ws wn wt a ic,
          buzz room = Locked ws wn wt a ic ->
          ~ In wt (tossupLockedTeams room)).
Proof.
  intros s c room Hreach Hget.
  pose proof (server_coherent_get _ (reachable_coherent Hreach) Hget) as Hr.
  destruct Hr as [_ _ _ _ _ Hlt Hlnd _ _ _ _ Hwf].
  split; [exact Hlnd|]. split.
  - intros t Ht. apply has_true_keys, Hlt, JsSet_has_In, Ht.
  - intros ws wn wt a ic Hb Hin. apply JsSet_has_In in Hin.
    rewrite (Hwf _ _ _ _ _ Hb) in Hin. discriminate.
Qed.

Lemma lockout_set_wellformed_witness :
  exists room,
    JsMap.get (rooms (run initServer sessionLockedOut)) "AAAAAA" = Some room
    /\ tossupLockedTeams room = ["t1"]
    /\ forall t, In t (tossupLockedTeams room) ->
                 In t (JsMap.keys (teams room)).
Proof.
  eexists. split; [vm_compute; reflexivity|]. split; [reflexivity|].
  refine (proj1 (proj2 (@lockout_set_wellformed
                          (run initServer sessionLockedOut) "AAAAAA" _
                          (reachable_run _ reachable_init) _))).
  vm_compute; reflexivity.
Defined.

(** ** Disconnecting *)

Lemma disconnectRoom_get sock now acc k room c :
  NoDup (JsMap.keys (rooms (fst acc))) ->
  JsMap.get (rooms (fst acc)) k = Some room ->
  code room = k ->
  JsMap.get (rooms (fst (disconnectRoom sock now acc (k, room)))) c
  = if String.eqb k c then afterDisconnect sock room
    else JsMap.get (rooms (fst acc)) c.
Proof.
  destruct acc as [s effs]. simpl. intros Hnd Hget Hcode.
  unfold disconnectRoom, afterDisconnect. simpl.
  destruct (JsMap.has (players room) sock); simpl.
  - destruct (String.eqb (hostSocketId room) sock).
    + subst k. use_shapes. rewrite H.
      destruct (String.eqb (code room) c) eqn:Ekc.
      * apply String.eqb_eq in Ekc. subst c. now apply get_delete_eq.
      * apply String.eqb_neq in Ekc. now apply get_delete_ne.
    + simpl. destruct (String.eqb k c) eqn:E.
      * apply String.eqb_eq in E. subst c. apply get_set_eq.
      * apply String.eqb_neq in E. now apply get_set_ne.
  - destruct (String.eqb k c) eqn:E; auto.
    apply String.eqb_eq in E. now subst c.
Qed.

Lemma disconnectRoom_keys_NoDup sock now acc entry :
  NoDup (JsMap.keys (rooms (fst acc))) ->
  NoDup (JsMap.keys (rooms (fst (disconnectRoom sock now acc entry)))).
Proof.
  destruct acc as [s effs], entry as [k room]. simpl. intros Hnd.
  unfold disconnectRoom. simpl.
  destruct (negb (JsMap.has (players room) sock)); simpl; auto.
  destruct (String.eqb (hostSocketId room) sock).
  - use_shapes. rewrite H. now apply NoDup_keys_delete.
  - simpl. now apply NoDup_keys_set.
Qed.

Lemma disconnect_fold_get sock now c l :
  forall acc,
    NoDup (JsMap.keys l) ->
    NoDup (JsMap.keys (rooms (fst acc))) ->
    (forall k r, In (k, r) l ->
                 JsMap.get (rooms (fst acc)) k = Some r /\ code r = k) ->
    JsMap.get (rooms (fst (fold_left (disconnectRoom sock now) l acc))) c
    = match JsMap.get l c with
      | Some room => afterDisconnect sock room
      | None => JsMap.get (rooms (fst acc)) c
      end.
Proof.
  induction l as [|[k room] l IH]; intros acc Hndl Hnd Hbound; simpl; auto.
  inversion Hndl as [|? ? Hnot Hndl']; subst.
  destruct (Hbound k room (or_introl eq_refl)) as [Hget Hcode].
  rewrite IH; auto.
  - rewrite (@disconnectRoom_get sock now acc k room c Hnd Hget Hcode).
    destruct (String.eqb k c) eqn:E; auto.
    apply String.eqb_eq in E. subst c.
    destruct (JsMap.get l k) as [r'|] eqn:G; auto.
    exfalso. apply Hnot. apply get_In in G.
    change k with (fst (k, r')). now apply in_map.
  - now apply disconnectRoom_keys_NoDup.
  - intros k' r' Hin.
    destruct (Hbound k' r' (or_intror Hin)) as [Hget' Hcode'].
    split; auto.
    rewrite (@disconnectRoom_get sock now acc k room k' Hnd Hget Hcode).
    destruct (String.eqb k k') eqn:E; auto.
    apply String.eqb_eq in E. exfalso. apply Hnot. rewrite E.
    exact (in_map fst _ _ Hin).
Qed.

(** X10: when a socket disconnects in a reachable state, every room it hosted is
    removed from the registry, every other room it was a member of loses
    exactly that player, and every room it was not in stays as it was.
    Afterwards the socket is neither host nor member of any registered
    room. *)
Theorem disconnect_leaves_no_trace :
  forall s sock now c,
    reachable s ->
    JsMap.get (rooms (server (disconnect s sock now))) c
    = match JsMap.get (rooms s) c with
      | Some room => afterDisconnect sock room
      | None => None
      end
    /\ (forall room',
          JsMap.get (rooms (server (disconnect s sock now))) c = Some room' ->
          hostSocketId room' <> sock
          /\ JsMap.has (players room') sock = false).
Proof.
  intros s sock now c Hreach.
  pose proof (reachable_ok Hreach) as [Hnd Hall].
  pose proof (reachable_coherent Hreach) as Hcoh.
  assert (E : JsMap.get (rooms (server (disconnect s sock now))) c
              = match JsMap.get (rooms s) c with
                | Some room => afterDisconnect sock room
                | None => None
                end).
  { unfold disconnect.
    pose proof (@disconnect_fold_get sock now c (rooms s) (s, []) Hnd Hnd)
      as H.
    destruct (fold_left _ _ _) as [s' effs]. simpl in *. rewrite H.
    - destruct (JsMap.get (rooms s) c); reflexivity.
    - intros k r Hin. split; [now apply In_get|].
      rewrite Forall_forall in Hall. exact (proj1 (Hall _ Hin)). }
  split; [exact E|].
  intros room' Hget'. rewrite E in Hget'.
  destruct (JsMap.get (rooms s) c) as [room|] eqn:Hget; [|discriminate].
  pose proof (server_coherent_get _ Hcoh Hget) as Hr.
  unfold afterDisconnect in Hget'.
  destruct (JsMap.has (players room) sock) eqn:Hmem.
  - destruct (String.eqb (hostSocketId room) sock) eqn:Hhost;
      [discriminate|].
    injection Hget' as <-. simpl. apply String.eqb_neq in Hhost.
    split; auto. unfold JsMap.has.
    now rewrite get_delete_eq by apply (coh_players_nodup Hr).
  - injection Hget' as <-. split; auto.
    intros <-. rewrite (coh_host_player Hr) in Hmem. discriminate.
Qed.

Lemma disconnect_leaves_no_trace_witness :
  JsMap.get (rooms (server (disconnect (run initServer sessionBuzzed) "h" 5000)))
    "AAAAAA" = None
  /\ exists room',
       JsMap.get
         (rooms (server (disconnect (run initServer sessionBuzzed) "a" 5000)))
         "AAAAAA" = Some room'
       /\ JsMap.keys (players room') = ["h"; "b"]
       /\ JsMap.has (players room') "a" = false.
Proof.
  split.
  - rewrite (proj1 (@disconnect_leaves_no_trace
                      (run initServer sessionBuzzed) "h" 5000 "AAAAAA"
                      (reachable_run _ reachable_init))).
    reflexivity.
  - eexists. split; [vm_compute; reflexivity|]. split; [reflexivity|].
    refine (proj2 (proj2 (@disconnect_leaves_no_trace
                      (run initServer sessionBuzzed) "a" 5000 "AAAAAA"
                      (reachable_run _ reachable_init)) _ _)).
    vm_compute; reflexivity.
Defined.

(** ** The ledger in reachable states *)

Lemma last_Some_split (A : Type) (l : list A) (x : A) :
  last (map Some l) None = Some x -> exists l', l = (l' ++ [x])%list.
Proof.
  induction l as [|y l IH]; simpl; [discriminate|].
  destruct l as [|z l].
  - simpl. intros [= ->]. exists []. reflexivity.
  - intros H. destruct (IH H) as [l' E]. exists (y :: l'). simpl.
    now rewrite <- E.
Qed.

Lemma shape_replace_last ts n l row row' :
  ledger_shape ts (mkMatch n (l ++ [row])) ->
  num row' = num row ->
  row_keyed ts row' ->
  ledger_shape ts (mkMatch n (removelast (l ++ [row]) ++ [row'])).
Proof.
  intros (Hc & Hn & Hk) Hnum Hkeys. simpl in *.
  rewrite removelast_last. repeat split; simpl.
  - rewrite Hc, !length_app. reflexivity.
  - intros i r Hi.
    destruct (Nat.lt_ge_cases i (List.length l)) as [Hlt|Hge].
    + rewrite nth_error_app1 in Hi by assumption.
      apply Hn. now rewrite nth_error_app1.
    + rewrite nth_error_app2 in Hi by assumption.
      destruct (i - List.length l)%nat as [|j] eqn:E; simpl in Hi.
      * injection Hi as <-. rewrite Hnum. apply Hn.
        rewrite nth_error_app2 by assumption. now rewrite E.
      * destruct j; discriminate.
  - apply Forall_app in Hk as [Hl _]. apply Forall_app. split; auto.
Qed.

Lemma shape_append ts m row :
  ledger_shape ts m ->
  num row = tossupNumber m + 1 ->
  row_keyed ts row ->
  ledger_shape ts (mkMatch (tossupNumber m + 1) (rows m ++ [row])).
Proof.
  intros (Hc & Hn & Hk) Hnum Hkeys. repeat split; simpl.
  - rewrite Hc, length_app. simpl. lia.
  - intros i r Hi.
    destruct (Nat.lt_ge_cases i (List.length (rows m))) as [Hlt|Hge].
    + rewrite nth_error_app1 in Hi by assumption. now apply Hn.
    + rewrite nth_error_app2 in Hi by assumption.
      destruct (i - List.length (rows m))%nat as [|j] eqn:E; simpl in Hi.
      * injection Hi as <-. rewrite Hnum, Hc. lia.
      * destruct j; discriminate.
  - apply Forall_app. split; auto.
Qed.

Lemma has_same_keys (A : Type) (m m' : JsMap.t A) k :
  JsMap.keys m' = JsMap.keys m -> JsMap.has m' k = JsMap.has m k.
Proof.
  intros E.
  destruct (JsMap.has m k) eqn:H.
  - apply has_true_keys. rewrite E. now apply has_true_keys.
  - destruct (JsMap.has m' k) eqn:H'; auto.
    apply has_true_keys in H'. rewrite E in H'.
    apply has_true_keys in H'. congruence.
Qed.

Lemma row_keyed_same ts ts' row row' :
  JsMap.keys ts' = JsMap.keys ts ->
  JsMap.keys (rowTeams row') = JsMap.keys (rowTeams row) ->
  row_keyed ts row -> row_keyed ts' row'.
Proof.
  intros Et Er [Hnd Hk]. split.
  - now rewrite Er.
  - intros k.
    rewrite (@has_same_keys _ _ _ k Er), (@has_same_keys _ _ _ k Et).
    apply Hk.
Qed.

Lemma shape_same_keys ts ts' m :
  JsMap.keys ts' = JsMap.keys ts -> ledger_shape ts m -> ledger_shape ts' m.
Proof.
  intros E (Hc & Hn & Hk). repeat split; auto.
  eapply Forall_impl; [|exact Hk]. simpl. intros row H.
  eapply row_keyed_same; eauto.
Qed.

Lemma keys_set_present (V : Type) (m : JsMap.t V) k v v0 :
  JsMap.get m k = Some v0 -> JsMap.keys (JsMap.set m k v) = JsMap.keys m.
Proof.
  intros H. rewrite keys_set. unfold JsMap.has. now rewrite H.
Qed.

Lemma refresh_fold_keys (ts : JsMap.t Team) :
  forall entries,
    JsMap.keys (fold_left refreshEntry ts entries) = JsMap.keys entries.
Proof.
  induction ts as [|[k t] ts IH]; intros entries; simpl; auto.
  rewrite IH. unfold refreshEntry. simpl.
  destruct (JsMap.get entries k) eqn:G; auto.
  eapply keys_set_present; eauto.
Qed.

(** The entries [startNewTossupRow] builds: one per team, under the team's
    id, all deltas zero, the running score that of the team. *)
Lemma new_row_get (ts : JsMap.t Team) :
  NoDup (JsMap.keys ts) ->
  forall acc k,
    JsMap.get
      (fold_left
         (fun acc (kt : string * Team) =>
            JsObject.set acc (fst kt) (mkRowEntry 0 0 0 (score (snd kt))))
         ts acc) k
    = match JsMap.get ts k with
      | Some t => Some (mkRowEntry 0 0 0 (score t))
      | None => JsMap.get acc k
      end.
Proof.
  induction ts as [|[k0 t0] ts IH]; intros Hnd acc k; simpl; auto.
  inversion Hnd as [|? ? Hnot Hnd']; subst.
  rewrite IH by assumption.
  destruct (String.eqb k0 k) eqn:E.
  - apply String.eqb_eq in E. subst k0.
    assert (Hts : JsMap.get ts k = None).
    { destruct (JsMap.get ts k) eqn:G; auto. exfalso. apply Hnot.
      apply get_In in G. change k with (fst (k, t)). now apply in_map. }
    rewrite Hts, obj_get_set, String.eqb_refl. reflexivity.
  - destruct (JsMap.get ts k); auto.
    rewrite obj_get_set. simpl. now rewrite E.
Qed.

Lemma new_row_NoDup (ts : JsMap.t Team) :
  forall acc,
    NoDup (JsMap.keys acc) ->
    NoDup
      (JsMap.keys
         (fold_left
            (fun acc (kt : string * Team) =>
               JsObject.set acc (fst kt) (mkRowEntry 0 0 0 (score (snd kt))))
            ts acc)).
Proof.
  induction ts as [|[k0 t0] ts IH]; intros acc Hnd; simpl; auto.
  apply IH. now apply NoDup_keys_obj_set.
Qed.

Lemma new_row_keyed (ts : JsMap.t Team) n :
  NoDup (JsMap.keys ts) ->
  row_keyed ts
    (mkRow n
       (fold_left
          (fun acc (kt : string * Team) =>
             JsObject.set acc (fst kt) (mkRowEntry 0 0 0 (score (snd kt))))
          ts [])).
Proof.
  intros Hnd. split; simpl.
  - apply new_row_NoDup. constructor.
  - intros k. unfold JsMap.has. rewrite new_row_get by assumption.
    destruct (JsMap.get ts k); reflexivity.
Qed.

Lemma ledger_same r r' :
  room_ledger r -> matchLog r' = matchLog r -> teams r' = teams r ->
  room_ledger r'.
Proof. unfold room_ledger. now intros H -> ->. Qed.

Lemma shape_startNewTossupRow r :
  NoDup (JsMap.keys (teams r)) ->
  ledger_shape (teams r) (matchLog r) ->
  ledger_shape (teams (startNewTossupRow r)) (matchLog (startNewTossupRow r)).
Proof.
  intros Hnd Hs. unfold startNewTossupRow, ensureMatch. simpl.
  apply shape_append; auto. now apply new_row_keyed.
Qed.

Lemma shape_setCurrentRow r row row' :
  ledger_shape (teams r) (matchLog r) ->
  currentRow r = Some row ->
  num row' = num row ->
  JsMap.keys (rowTeams row') = JsMap.keys (rowTeams row) ->
  ledger_shape (teams (setCurrentRow r row')) (matchLog (setCurrentRow r row')).
Proof.
  intros Hs Hrow Hnum Hkeys. unfold currentRow, ensureMatch in Hrow.
  destruct (last_Some_split _ Hrow) as [l El].
  unfold setCurrentRow. simpl.
  destruct (matchLog r) as [n rws] eqn:Em. simpl in *. subst rws.
  apply shape_replace_last; auto.
  destruct Hs as (_ & _ & Hk).
  apply Forall_app in Hk as [_ Hk]. inversion Hk; subst.
  eapply row_keyed_same; eauto.
Qed.

Lemma shape_addRowDelta r tid f q :
  ledger_shape (teams r) (matchLog r) ->
  ledger_shape (teams (addRowDelta r tid f q)) (matchLog (addRowDelta r tid f q)).
Proof.
  intros Hs. unfold addRowDelta.
  destruct (currentRow r) as [row|] eqn:Hrow; auto.
  destruct (JsMap.get (rowTeams row) tid) as [e|] eqn:He; auto.
  eapply shape_setCurrentRow; eauto. simpl.
  eapply keys_set_present; eauto.
Qed.

Lemma ledger_refreshRowScores r :
  NoDup (JsMap.keys (teams r)) ->
  ledger_shape (teams r) (matchLog r) ->
  room_ledger (refreshRowScores r).
Proof.
  intros Hnd Hs. unfold refreshRowScores.
  destruct (currentRow r) as [row|] eqn:Hrow.
  - split.
    + eapply shape_setCurrentRow; eauto. simpl. apply refresh_fold_keys.
    + intros row' k t e Hlast Ht He.
      change (last (map Some (rows (matchLog (setCurrentRow r
                (mkRow (num row)
                   (fold_left refreshEntry (teams r) (rowTeams row)))))))
                None)
        with (currentRow (setCurrentRow r
                (mkRow (num row)
                   (fold_left refreshEntry (teams r) (rowTeams row)))))
        in Hlast.
      rewrite currentRow_setCurrentRow in Hlast. injection Hlast as <-.
      simpl in He, Ht. rewrite refresh_fold_get in He by assumption.
      destruct (JsMap.get (rowTeams row) k) as [e0|]; [|discriminate].
      rewrite Ht in He. injection He as <-. reflexivity.
  - split; auto. intros row k t e Hlast.
    unfold currentRow, ensureMatch in Hrow. congruence.
Qed.

Lemma shape_addScore r tid team q :
  JsMap.get (teams r) tid = Some team ->
  ledger_shape (teams r) (matchLog r) ->
  ledger_shape (teams (addScore r tid team q)) (matchLog (addScore r tid team q)).
Proof.
  intros Hget Hs. unfold addScore. simpl.
  eapply shape_same_keys; [|exact Hs].
  eapply keys_set_present; eauto.
Qed.

Lemma ledger_rename r k t nm :
  JsMap.get (teams r) k = Some t ->
  room_ledger r ->
  room_ledger
    (withTeams r (JsMap.set (teams r) k (mkTeam (teamKey t) nm (score t)))).
Proof.
  intros Hget [Hs Hsc]. split; simpl.
  - eapply shape_same_keys; [|exact Hs]. eapply keys_set_present; eauto.
  - intros row k' t' e Hlast Ht' He.
    destruct (string_dec k k') as [<-|Hne].
    + rewrite get_set_eq in Ht'. injection Ht' as <-. simpl. eauto.
    + rewrite get_set_ne in Ht' by assumption. eauto.
Qed.

Lemma server_ledger_get s c r :
  server_ledger s -> JsMap.get (rooms s) c = Some r -> room_ledger r.
Proof.
  intros Hall Hget. apply get_In in Hget.
  unfold server_ledger in Hall. rewrite Forall_forall in Hall.
  exact (Hall _ Hget).
Qed.

Lemma server_ledger_set s s1 c r :
  server_ledger s -> rooms s1 = rooms s -> room_ledger r ->
  server_ledger (withRooms s1 (JsMap.set (rooms s1) c r)).
Proof.
  intros Hall Hr Hok. unfold server_ledger. simpl. rewrite Hr.
  apply Forall_set; auto.
Qed.

Ltac ledger_unchanged Hr :=
  eapply server_ledger_set;
  [ eassumption
  | solve [reflexivity | eassumption]
  | eapply ledger_same; [exact Hr | reflexivity | reflexivity] ].

Lemma ledger_scored r tid team q f :
  NoDup (JsMap.keys (teams r)) ->
  JsMap.get (teams r) tid = Some team ->
  room_ledger r ->
  room_ledger (refreshRowScores (addRowDelta (addScore r tid team q) tid f q)).
Proof.
  intros Hnd Hget [Hs _]. apply ledger_refreshRowScores.
  - rewrite teams_addRowDelta. unfold addScore. simpl.
    now apply NoDup_keys_set.
  - apply shape_addRowDelta. now apply shape_addScore.
Qed.

Lemma handle_message_ledger s sock now m :
  server_ok s -> server_ledger s ->
  server_ledger (server (handle_message s sock now m)).
Proof.
  intros Hok Hled. destruct m; unfold handle_message.
  - (* create_room *)
    unfold create_room. simpl.
    apply server_ledger_set with (s := s); auto.
    split; simpl.
    + repeat split; simpl; auto. intros [|i] row; discriminate.
    + intros row k t e H. discriminate.
  - unfold host_set_room_name. open_handler.
    pose proof (server_ledger_get _ Hled Hget) as Hr.
    destruct (negb _); simpl; auto. ledger_unchanged Hr.
  - unfold host_set_team_name. open_handler.
    pose proof (server_ledger_get _ Hled Hget) as Hr.
    destruct tid as [k|]; simpl; auto.
    destruct (JsMap.get (teams room) k) as [t|] eqn:Ht; simpl; auto.
    destruct (negb _); simpl; auto.
    apply server_ledger_set with (s := s); auto.
    now apply ledger_rename.
  - unfold join_room. open_handler.
    pose proof (server_ledger_get _ Hled Hget) as Hr.
    destruct spectate; simpl; [ledger_unchanged Hr|].
    destruct tid as [k|]; simpl; auto.
    destruct (JsString.truthy k && JsMap.has (teams room) k); simpl; auto.
    ledger_unchanged Hr.
  - exact Hled.
  - (* host_start_tossup_reading *)
    unfold host_start_tossup_reading. open_handler.
    pose proof (server_ledger_get _ Hled Hget) as Hr.
    destruct (server_ok_get _ Hok Hget) as [_ Hk].
    destruct (startsWithBonus (phase room)); simpl; auto.
    use_shapes.
    apply server_ledger_set with (s := s); auto.
    apply ledger_refreshRowScores.
    + exact (ok_team_keys Hk).
    + apply shape_startNewTossupRow.
      * exact (ok_team_keys Hk).
      * exact (proj1 Hr).
  - unfold host_done_reading_tossup. open_handler.
    pose proof (server_ledger_get _ Hled Hget) as Hr.
    destruct (startsWithBonus (phase room)); simpl; auto.
    use_shapes. ledger_unchanged Hr.
  - unfold buzz_handler. open_handler.
    pose proof (server_ledger_get _ Hled Hget) as Hr.
    destruct (JsMap.get (players room) sock) as [pl|]; simpl; auto.
    destruct (isHost pl || isSpectator pl); simpl; auto.
    destruct (negb (phase_eqb (phase room) TossupReading)
              && negb (phase_eqb (phase room) TossupLive)); simpl; auto.
    destruct (teamId pl) as [tid|]; simpl; auto.
    destruct (JsString.truthy tid); simpl; auto.
    destruct (JsSet.has (tossupLockedTeams room) tid); simpl; auto.
    destruct (locked (buzz room)); simpl; auto.
    destruct (phase_eqb (phase room) TossupLive).
    + use_shapes. unfold stopTimer.
      destruct (negb (running (timer room))); ledger_unchanged Hr.
    + ledger_unchanged Hr.
  - unfold host_clear_buzz. open_handler.
    pose proof (server_ledger_get _ Hled Hget) as Hr.
    unfold clearBuzz. simpl.
    destruct (phase_eqb (phase room) TossupLive && running (timer room)).
    + use_shapes. ledger_unchanged Hr.
    + ledger_unchanged Hr.
  - unfold host_set_interrupt_choice. open_handler.
    pose proof (server_ledger_get _ Hled Hget) as Hr.
    destruct (buzz room); simpl; auto. ledger_unchanged Hr.
  - (* host_mark_answer *)
    unfold host_mark_answer. open_handler.
    pose proof (server_ledger_get _ Hled Hget) as Hr.
    destruct (server_ok_get _ Hok Hget) as [_ Hk].
    destruct (buzz room) as [|ws wn wt a ic]; simpl; auto.
    destruct (if JsString.truthy wt then _ else _) as [team|] eqn:Hteam;
      simpl; auto.
    apply truthy_get_has in Hteam as (_ & Hteam & _).
    destruct ic as [interrupt|]; simpl; auto.
    destruct correct.
    + use_shapes. apply server_ledger_set with (s := s); auto.
      eapply ledger_same;
        [exact (@ledger_scored room wt team 4 FieldTU (ok_team_keys Hk)
                  Hteam Hr)
        |reflexivity|reflexivity].
    + destruct interrupt.
      * unfold clearBuzz.
        destruct (otherTeamId _ wt) as [otherId|]; simpl.
        -- destruct (JsMap.get (teams room) otherId) as [other|] eqn:Hother;
             simpl.
           ++ use_shapes. apply server_ledger_set with (s := s); auto.
              eapply ledger_same;
                [exact (@ledger_scored
                          (withBuzz
                             (withTossupLockedTeams room
                                (JsSet.add (tossupLockedTeams room) wt))
                             Unlocked)
                          otherId other 4 FieldP (ok_team_keys Hk) Hother Hr)
                |reflexivity|reflexivity].
           ++ use_shapes. ledger_unchanged Hr.
        -- use_shapes. ledger_unchanged Hr.
      * use_shapes. ledger_unchanged Hr.
  - unfold host_done_reading_bonus. open_handler.
    pose proof (server_ledger_get _ Hled Hget) as Hr.
    destruct (negb (phase_eqb (phase room) BonusReading)
              && negb (phase_eqb (phase room) BonusLive)); simpl; auto.
    ledger_unchanged Hr.
  - (* host_award_bonus *)
    unfold host_award_bonus. open_handler.
    pose proof (server_ledger_get _ Hled Hget) as Hr.
    destruct (server_ok_get _ Hok Hget) as [_ Hk].
    destruct (negb (startsWithBonus (phase room))); simpl; auto.
    destruct (activeBonusTeamId room) as [tid|]; simpl; auto.
    destruct (if JsString.truthy tid then _ else _) as [team|] eqn:Hteam;
      simpl; auto.
    apply truthy_get_has in Hteam as (_ & Hteam & _).
    destruct (pointsInRange points) as [q|]; simpl; auto.
    apply server_ledger_set with (s := s); auto.
    eapply ledger_same;
      [exact (@ledger_scored room tid team q FieldB (ok_team_keys Hk)
                Hteam Hr)
      |reflexivity|reflexivity].
  - unfold host_skip_bonus. open_handler.
    pose proof (server_ledger_get _ Hled Hget) as Hr.
    destruct (negb (startsWithBonus (phase room))); simpl; auto.
    ledger_unchanged Hr.
  - (* disconnect *)
    unfold disconnect.
    assert (H : forall l acc,
               Forall (fun kr : string * Room => room_ledger (snd kr)) l ->
               server_ledger (fst acc) ->
               server_ledger (fst (fold_left (disconnectRoom sock now) l acc))).
    { induction l as [|[k room] l IH]; simpl; auto.
      intros acc Hall Hacc. inversion Hall as [|? ? Hr Hall']; subst.
      apply IH; auto. destruct acc as [s0 effs]. simpl in *.
      unfold disconnectRoom. simpl.
      destruct (negb (JsMap.has (players room) sock)); simpl; auto.
      destruct (String.eqb (hostSocketId room) sock).
      - use_shapes. unfold server_ledger in *. simpl. rewrite H.
        now apply Forall_delete.
      - simpl. ledger_unchanged Hr. }
    specialize (H (rooms s) (s, []) Hled Hled).
    destruct (fold_left _ _ _) as [s' effs]. exact H.
Qed.

Lemma step_ledger s now e :
  server_ok s -> server_ledger s -> server_ledger (step s now e).
Proof.
  intros Hok Hled. destruct e as [sock m|h]; simpl.
  - now apply handle_message_ledger.
  - unfold fireTimeout. destruct (find _ (pending s)); simpl; auto.
    unfold tossupEndCallback. simpl.
    destruct (JsMap.get (rooms s) (capturedCode p)) as [room|] eqn:Hget;
      simpl; auto.
    pose proof (server_ledger_get _ Hled Hget) as Hr.
    destruct (_ && _); simpl; auto.
    apply (@server_ledger_set s (clearTimeout s h));
      [exact Hled|reflexivity|].
    eapply ledger_same; [exact Hr|reflexivity|reflexivity].
Qed.

Lemma reachable_ledger s : reachable s -> server_ledger s.
Proof.
  induction 1 as [|s now e Hs IH].
  - constructor.
  - apply step_ledger; auto using reachable_ok.
Qed.

(** X11: in every reachable state the ledger of a room has as many rows as its
    toss-up counter says, numbered 1, 2, ... in order; every row has exactly
    one entry per team of the room, stored under the team's id; and the
    running scores of the last row are the current scores of the teams. *)
Theorem ledger_wellformed :
  forall s c room,
    reachable s ->
    JsMap.get (rooms s) c = Some room ->
    tossupNumber (matchLog room) = Z.of_nat (List.length (rows (matchLog room)))
    /\ (forall i row,
          nth_error (rows (matchLog room)) i = Some row ->
          num row = Z.of_nat i + 1)
    /\ (forall row,
          In row (rows (matchLog room)) ->
          NoDup (JsMap.keys (rowTeams row))
          /\ forall k,
               In k (JsMap.keys (rowTeams row))
               <-> In k (JsMap.keys (teams room)))
    /\ (forall l row k t,
          rows (matchLog room) = (l ++ [row])%list ->
          JsMap.get (teams room) k = Some t ->
          exists e,
            JsMap.get (rowTeams row) k = Some e /\ rowScore e = score t).
Proof.
  intros s c room Hreach Hget.
  destruct (server_ledger_get _ (reachable_ledger Hreach) Hget)
    as [(Hc & Hn & Hk) Hsc].
  rewrite Forall_forall in Hk.
  split; [exact Hc|]. split; [exact Hn|]. split.
  - intros row Hin. destruct (Hk _ Hin) as [Hnd Hhas]. split; auto.
    intros k. rewrite <- !has_true_keys. now rewrite Hhas.
  - intros l row k t El Ht.
    assert (Hin : In row (rows (matchLog room))).
    { rewrite El. apply in_or_app. right. now left. }
    assert (Hkey : In k (JsMap.keys (rowTeams row))).
    { apply has_true_keys. rewrite (proj2 (Hk _ Hin)).
      unfold JsMap.has. now rewrite Ht. }
    apply In_keys_get in Hkey as [e He]. exists e. split; auto.
    eapply Hsc; eauto. rewrite El. apply last_map_Some_app.
Qed.

Lemma ledger_wellformed_witness :
  exists room row,
    JsMap.get (rooms (run initServer sessionAwarded)) "AAAAAA" = Some room
    /\ rows (matchLog room) = [row]
    /\ num row = 1
    /\ JsMap.get (rowTeams row) "t1" = Some (mkRowEntry 0 4 10 14)
    /\ exists e, JsMap.get (rowTeams row) "t2" = Some e /\ rowScore e = 0%Q.
Proof.
  eexists. eexists. split; [vm_compute; reflexivity|].
  split; [reflexivity|]. split; [reflexivity|]. split; [reflexivity|].
  refine (proj2 (proj2 (proj2 (@ledger_wellformed
            (run initServer sessionAwarded) "AAAAAA" _
            (reachable_run _ reachable_init) _))) [] _ "t2"
            (mkTeam "t2" "Team B" 0) _ _);
    vm_compute; reflexivity.
Defined.

(** ** Scores are binary64 numbers *)

Lemma server_scores_get s c r :
  server_scores s -> JsMap.get (rooms s) c = Some r -> room_scores r.
Proof.
  intros Hall Hget. apply get_In in Hget.
  unfold server_scores in Hall. rewrite Forall_forall in Hall.
  exact (Hall _ Hget).
Qed.

Lemma server_scores_set s s1 c r :
  server_scores s -> rooms s1 = rooms s -> room_scores r ->
  server_scores (withRooms s1 (JsMap.set (rooms s1) c r)).
Proof.
  intros Hall Hr Hok. unfold server_scores. simpl. rewrite Hr.
  apply Forall_set; auto.
Qed.

Lemma scores_same r r' : room_scores r -> teams r' = teams r -> room_scores r'.
Proof. unfold room_scores. now intros H ->. Qed.

Lemma scores_get r k t :
  room_scores r -> JsMap.get (teams r) k = Some t ->
  (0 <= score t)%Q /\ toDouble (score t) = score t.
Proof.
  intros Hall Hget. apply get_In in Hget.
  unfold room_scores in Hall. rewrite Forall_forall in Hall.
  exact (Hall _ Hget).
Qed.

Lemma scores_rename r k t nm :
  JsMap.get (teams r) k = Some t ->
  room_scores r ->
  room_scores
    (withTeams r (JsMap.set (teams r) k (mkTeam (teamKey t) nm (score t)))).
Proof.
  intros Hget Hr. unfold room_scores. simpl.
  apply Forall_set; auto. exact (@scores_get _ _ _ Hr Hget).
Qed.

Lemma scores_scored r tid team q f :
  JsMap.get (teams r) tid = Some team ->
  (0 <= q)%Q ->
  room_scores r ->
  room_scores (refreshRowScores (addRowDelta (addScore r tid team q) tid f q)).
Proof.
  intros Hget Hq Hr. unfold room_scores.
  rewrite teams_refreshRowScores, teams_addRowDelta. unfold addScore. simpl.
  destruct (@scores_get _ _ _ Hr Hget) as [H0 Hd].
  apply Forall_set; auto. split; simpl.
  - apply toDouble_nonneg. lra.
  - now apply jsAdd_double.
Qed.

Lemma createTeams_scores nanoid n :
  forall i acc,
    Forall score_ok acc -> Forall score_ok (createTeams nanoid i n acc).
Proof.
  induction n as [|n IH]; simpl; auto.
  intros i acc Hall. apply IH. apply Forall_set; auto.
  split; simpl; [apply Qle_refl|reflexivity].
Qed.

Lemma pointsInRange_nonneg pts q : pointsInRange pts = Some q -> (0 <= q)%Q.
Proof.
  unfold pointsInRange. destruct pts as [| | |x]; try discriminate.
  destruct (Qle_bool 0 (toDouble x)) eqn:E; simpl; [|discriminate].
  destruct (Qle_bool (toDouble x) 20); [|discriminate].
  intros [= <-]. now apply Qle_bool_iff.
Qed.

Ltac scores_unchanged Hr :=
  eapply server_scores_set;
  [ eassumption
  | solve [reflexivity | eassumption]
  | eapply scores_same; [exact Hr | reflexivity] ].

Lemma handle_message_scores s sock now m :
  server_scores s ->
  server_scores (server (handle_message s sock now m)).
Proof.
  intros Hsc. destruct m; unfold handle_message.
  - (* create_room *)
    unfold create_room. simpl.
    apply server_scores_set with (s := s); auto.
    unfold room_scores. simpl. apply createTeams_scores. constructor.
  - unfold host_set_room_name. open_handler.
    pose proof (server_scores_get _ Hsc Hget) as Hr.
    destruct (negb _); simpl; auto. scores_unchanged Hr.
  - unfold host_set_team_name. open_handler.
    pose proof (server_scores_get _ Hsc Hget) as Hr.
    destruct tid as [k|]; simpl; auto.
    destruct (JsMap.get (teams room) k) as [t|] eqn:Ht; simpl; auto.
    destruct (negb _); simpl; auto.
    apply server_scores_set with (s := s); auto.
    now apply scores_rename.
  - unfold join_room. open_handler.
    pose proof (server_scores_get _ Hsc Hget) as Hr.
    destruct spectate; simpl; [scores_unchanged Hr|].
    destruct tid as [k|]; simpl; auto.
    destruct (JsString.truthy k && JsMap.has (teams room) k); simpl; auto.
    scores_unchanged Hr.
  - exact Hsc.
  - (* host_start_tossup_reading *)
    unfold host_start_tossup_reading. open_handler.
    pose proof (server_scores_get _ Hsc Hget) as Hr.
    destruct (startsWithBonus (phase room)); simpl; auto.
    use_shapes.
    apply server_scores_set with (s := s); auto.
    eapply scores_same; [exact Hr|].
    now rewrite teams_refreshRowScores.
  - unfold host_done_reading_tossup. open_handler.
    pose proof (server_scores_get _ Hsc Hget) as Hr.
    destruct (startsWithBonus (phase room)); simpl; auto.
    use_shapes. scores_unchanged Hr.
  - unfold buzz_handler. open_handler.
    pose proof (server_scores_get _ Hsc Hget) as Hr.
    destruct (JsMap.get (players room) sock) as [pl|]; simpl; auto.
    destruct (isHost pl || isSpectator pl); simpl; auto.
    destruct (negb (phase_eqb (phase room) TossupReading)
              && negb (phase_eqb (phase room) TossupLive)); simpl; auto.
    destruct (teamId pl) as [tid|]; simpl; auto.
    destruct (JsString.truthy tid); simpl; auto.
    destruct (JsSet.has (tossupLockedTeams room) tid); simpl; auto.
    destruct (locked (buzz room)); simpl; auto.
    destruct (phase_eqb (phase room) TossupLive).
    + use_shapes. unfold stopTimer.
      destruct (negb (running (timer room))); scores_unchanged Hr.
    + scores_unchanged Hr.
  - unfold host_clear_buzz. open_handler.
    pose proof (server_scores_get _ Hsc Hget) as Hr.
    unfold clearBuzz. simpl.
    destruct (phase_eqb (phase room) TossupLive && running (timer room)).
    + use_shapes. scores_unchanged Hr.
    + scores_unchanged Hr.
  - unfold host_set_interrupt_choice. open_handler.
    pose proof (server_scores_get _ Hsc Hget) as Hr.
    destruct (buzz room); simpl; auto. scores_unchanged Hr.
  - (* host_mark_answer *)
    unfold host_mark_answer. open_handler.
    pose proof (server_scores_get _ Hsc Hget) as Hr.
    destruct (buzz room) as [|ws wn wt a ic]; simpl; auto.
    destruct (if JsString.truthy wt then _ else _) as [team|] eqn:Hteam;
      simpl; auto.
    apply truthy_get_has in Hteam as (_ & Hteam & _).
    destruct ic as [interrupt|]; simpl; auto.
    assert (H4 : (0 <= 4)%Q) by discriminate.
    destruct correct.
    + use_shapes. apply server_scores_set with (s := s); auto.
      eapply scores_same;
        [exact (@scores_scored room wt team 4 FieldTU Hteam H4 Hr)
        |reflexivity].
    + destruct interrupt.
      * unfold clearBuzz.
        destruct (otherTeamId _ wt) as [otherId|]; simpl.
        -- destruct (JsMap.get (teams room) otherId) as [other|] eqn:Hother;
             simpl.
           ++ use_shapes. apply server_scores_set with (s := s); auto.
              eapply scores_same;
                [exact (@scores_scored
                          (withBuzz
                             (withTossupLockedTeams room
                                (JsSet.add (tossupLockedTeams room) wt))
                             Unlocked)
                          otherId other 4 FieldP Hother H4 Hr)
                |reflexivity].
           ++ use_shapes. scores_unchanged Hr.
        -- use_shapes. scores_unchanged Hr.
      * use_shapes. scores_unchanged Hr.
  - unfold host_done_reading_bonus. open_handler.
    pose proof (server_scores_get _ Hsc Hget) as Hr.
    destruct (negb (phase_eqb (phase room) BonusReading)
              && negb (phase_eqb (phase room) BonusLive)); simpl; auto.
    scores_unchanged Hr.
  - (* host_award_bonus *)
    unfold host_award_bonus. open_handler.
    pose proof (server_scores_get _ Hsc Hget) as Hr.
    destruct (negb (startsWithBonus (phase room))); simpl; auto.
    destruct (activeBonusTeamId room) as [tid|]; simpl; auto.
    destruct (if JsString.truthy tid then _ else _) as [team|] eqn:Hteam;
      simpl; auto.
    apply truthy_get_has in Hteam as (_ & Hteam & _).
    destruct (pointsInRange points) as [q|] eqn:Hq; simpl; auto.
    apply server_scores_set with (s := s); auto.
    eapply scores_same;
      [exact (@scores_scored room tid team q FieldB Hteam
                (pointsInRange_nonneg _ Hq) Hr)
      |reflexivity].
  - unfold host_skip_bonus. open_handler.
    pose proof (server_scores_get _ Hsc Hget) as Hr.
    destruct (negb (startsWithBonus (phase room))); simpl; auto.
    scores_unchanged Hr.
  - (* disconnect *)
    unfold disconnect.
    assert (H : forall l acc,
               Forall (fun kr : string * Room => room_scores (snd kr)) l ->
               server_scores (fst acc) ->
               server_scores (fst (fold_left (disconnectRoom sock now) l acc))).
    { induction l as [|[k room] l IH]; simpl; auto.
      intros acc Hall Hacc. inversion Hall as [|? ? Hr Hall']; subst.
      apply IH; auto. destruct acc as [s0 effs]. simpl in *.
      unfold disconnectRoom. simpl.
      destruct (negb (JsMap.has (players room) sock)); simpl; auto.
      destruct (String.eqb (hostSocketId room) sock).
      - use_shapes. unfold server_scores in *. simpl. rewrite H.
        now apply Forall_delete.
      - simpl. scores_unchanged Hr. }
    specialize (H (rooms s) (s, []) Hsc Hsc).
    destruct (fold_left _ _ _) as [s' effs]. exact H.
Qed.

Lemma step_scores s now e : server_scores s -> server_scores (step s now e).
Proof.
  intros Hsc. destruct e as [sock m|h]; simpl.
  - now apply handle_message_scores.
  - unfold fireTimeout. destruct (find _ (pending s)); simpl; auto.
    unfold tossupEndCallback. simpl.
    destruct (JsMap.get (rooms s) (capturedCode p)) as [room|] eqn:Hget;
      simpl; auto.
    pose proof (server_scores_get _ Hsc Hget) as Hr.
    destruct (_ && _); simpl; auto.
    apply (@server_scores_set s (clearTimeout s h));
      [exact Hsc|reflexivity|].
    eapply scores_same; [exact Hr|reflexivity].
Qed.

Lemma reachable_scores s : reachable s -> server_scores s.
Proof.
  induction 1 as [|s now e Hs IH].
  - constructor.
  - now apply step_scores.
Qed.

(** ** Marking an answer *)

Lemma withRowScore_same e : withRowScore e (rowScore e) = e.
Proof. now destruct e. Qed.

Lemma currentRow_last r l row :
  rows (matchLog r) = (l ++ [row])%list -> currentRow r = Some row.
Proof.
  intros E. unfold currentRow, ensureMatch. rewrite E.
  apply last_map_Some_app.
Qed.

Lemma currentRow_empty r : rows (matchLog r) = [] -> currentRow r = None.
Proof. intros E. unfold currentRow, ensureMatch. now rewrite E. Qed.

(** What one scoring step, [team.score += q; addRowDelta; refreshRowScores],
    does to the teams and to the ledger of a room. *)
Lemma scored_effect r tid team q f :
  NoDup (JsMap.keys (teams r)) ->
  room_ledger r ->
  JsMap.get (teams r) tid = Some team ->
  exists m,
    refreshRowScores (addRowDelta (addScore r tid team q) tid f q)
    = withMatchLog (addScore r tid team q) m
    /\ (forall l row,
          rows (matchLog r) = (l ++ [row])%list ->
          exists e row',
            JsMap.get (rowTeams row) tid = Some e
            /\ m = mkMatch (tossupNumber (matchLog r)) (l ++ [row'])
            /\ num row' = num row
            /\ JsMap.keys (rowTeams row') = JsMap.keys (rowTeams row)
            /\ JsMap.get (rowTeams row') tid
               = Some (withRowScore (addToField e f q)
                         (jsAdd (score team) q))
            /\ (forall k, k <> tid ->
                  JsMap.get (rowTeams row') k = JsMap.get (rowTeams row) k))
    /\ (rows (matchLog r) = [] -> m = matchLog r).
Proof.
  intros Hnd [Hshape Hscores] Hteam.
  destruct (currentRow r) as [row|] eqn:Hrow.
  - assert (Hin : In row (rows (matchLog r))).
    { unfold currentRow, ensureMatch in Hrow.
      destruct (last_Some_split _ Hrow) as [l ->].
      apply in_or_app. right. now left. }
    destruct Hshape as (_ & _ & Hk). rewrite Forall_forall in Hk.
    destruct (Hk _ Hin) as [Hrnd Hhas].
    assert (He : exists e, JsMap.get (rowTeams row) tid = Some e).
    { apply In_keys_get, has_true_keys. rewrite Hhas.
      unfold JsMap.has. now rewrite Hteam. }
    destruct He as [e He].
    assert (Hrow1 : currentRow (addScore r tid team q) = Some row)
      by exact Hrow.
    pose proof (currentRow_addRowDelta _ tid f q Hrow1 He) as Hrow2.
    unfold refreshRowScores. rewrite Hrow2.
    unfold addRowDelta. rewrite Hrow1, He.
    unfold setCurrentRow. simpl. rewrite removelast_last.
    eexists. split; [reflexivity|]. split.
    + intros l row0 El.
      assert (row0 = row).
      { rewrite (@currentRow_last _ _ _ El) in Hrow. congruence. }
      subst row0. rewrite El, removelast_last.
      exists e. eexists. split; [exact He|]. split; [reflexivity|].
      split; [reflexivity|]. simpl.
      assert (Hnd' : NoDup (JsMap.keys
                              (JsMap.set (teams r) tid
                                 (mkTeam (teamKey team) (teamName team)
                                    (jsAdd (score team) q)))))
        by now apply NoDup_keys_set.
      split; [|split].
      * rewrite refresh_fold_keys. eapply keys_set_present; eauto.
      * rewrite refresh_fold_get by assumption.
        rewrite !get_set_eq. reflexivity.
      * intros k Hne. rewrite refresh_fold_get by assumption.
        rewrite !get_set_ne by congruence.
        destruct (JsMap.get (rowTeams row) k) as [ek|] eqn:Hek; auto.
        destruct (JsMap.get (teams r) k) as [tk|] eqn:Htk.
        -- rewrite <- (Hscores row k tk ek Hrow Htk Hek).
           now rewrite withRowScore_same.
        -- now rewrite withRowScore_same.
    + intros E. rewrite (@currentRow_empty _ E) in Hrow. discriminate.
  - assert (Hrow1 : currentRow (addScore r tid team q) = None) by exact Hrow.
    rewrite (addRowDelta_no_row _ _ _ _ Hrow1).
    rewrite (refreshRowScores_no_row _ Hrow1).
    exists (matchLog r). split; [reflexivity|]. split; [|reflexivity].
    intros l row El. rewrite (@currentRow_last _ _ _ El) in Hrow. discriminate.
Qed.

Lemma otherTeamId_team room tid o :
  otherTeamId room tid = Some o ->
  o <> tid /\ exists other, JsMap.get (teams room) o = Some other.
Proof.
  unfold otherTeamId.
  pose proof (find_first_other tid (JsMap.keys (teams room))) as H.
  destruct (find _ (JsMap.keys (teams room))) as [o'|]; [|discriminate].
  destruct H as [Hne (pre & post & Hk & _)].
  destruct (JsString.truthy o'); [|discriminate].
  intros [= <-]. split; auto.
  apply In_keys_get. rewrite Hk. apply in_or_app. right. now left.
Qed.

Lemma otherTeamId_two_teams room tid :
  NoDup (JsMap.keys (teams room)) ->
  ~ In "" (JsMap.keys (teams room)) ->
  (2 <= List.length (teams room))%nat ->
  exists o, otherTeamId room tid = Some o.
Proof.
  intros Hnd Hno Hlen. unfold otherTeamId.
  pose proof (find_first_other tid (JsMap.keys (teams room))) as H.
  destruct (find _ (JsMap.keys (teams room))) as [o|].
  - destruct H as [_ (pre & post & Hk & _)].
    unfold JsString.truthy. destruct (String.eqb o "") eqn:E; simpl; eauto.
    apply String.eqb_eq in E. subst o. exfalso. apply Hno. rewrite Hk.
    apply in_or_app. right. now left.
  - exfalso. unfold JsMap.keys in *.
    destruct (teams room) as [|[k1 t1] [|[k2 t2] rest]]; simpl in *;
      try lia.
    inversion H as [|? ? H1 H']; subst. inversion H' as [|? ? H2 _]; subst.
    inversion Hnd as [|? ? Hnot _]; subst. apply Hnot. now left.
Qed.

(** C4, as stated, fails: when the host goes live without having started
    the reading of a toss-up, the ledger of the room has no row; the
    buzzing team still gets its four points, and no ledger row records
    them. *)
Lemma mark_correct_without_row :
  ~ correct_recorded_in_row (run initServer (sessionNoRow false)) "h" 3500
      "AAAAAA".
Proof.
  intros H. edestruct H as (room' & row' & e' & Hget & _ & Hrow & _).
  - vm_compute; reflexivity.
  - reflexivity.
  - reflexivity.
  - vm_compute; reflexivity.
  - vm_compute in Hget. injection Hget as <-.
    vm_compute in Hrow. discriminate Hrow.
Qed.

(** C4, amended: in a reachable state, when the host marks correct the
    answer of a locked buzz whose interrupt choice is set, the command is
    accepted; 4 is added to the buzzing team's score, as JavaScript adds
    numbers (exactly 4 more for a whole-number score up to 2^53 - 4), and no
    other team changes.  When the ledger has a
    row, the team's entry in the current row gets 4 more under [tu] and the
    new running score, and nothing else in the ledger changes; when the
    ledger has no row it stays as it is.  The room's end callback is
    cancelled; the buzz is cleared; the phase is bonus_reading with the
    buzzing team as the active bonus team; and the timer is the paused
    bonus clock. *)
Theorem mark_answer_correct :
  forall s sock now codeArg room ws wn tid a interrupt,
    reachable s ->
    JsMap.get (rooms s) (normCode codeArg) = Some room ->
    hostSocketId room = sock ->
    buzz room = Locked ws wn tid a (Some interrupt) ->
    let res := host_mark_answer s sock now codeArg true in
    verdict res = Accepted
    /\ exists team room',
         JsMap.get (teams room) tid = Some team
         /\ JsMap.get (rooms (server res)) (normCode codeArg) = Some room'
         /\ effects res = [broadcast room' now]
         /\ JsMap.get (teams room') tid
            = Some (mkTeam (teamKey team) (teamName team)
                      (jsAdd (score team) 4))
         /\ (forall n,
               score team = inject_Z n -> 0 <= n <= 2 ^ 53 - 4 ->
               jsAdd (score team) 4 = inject_Z (n + 4))
         /\ (forall k, k <> tid ->
               JsMap.get (teams room') k = JsMap.get (teams room) k)
         /\ (forall l row,
               rows (matchLog room) = (l ++ [row])%list ->
               exists e row',
                 JsMap.get (rowTeams row) tid = Some e
                 /\ matchLog room'
                    = mkMatch (tossupNumber (matchLog room)) (l ++ [row'])
                 /\ currentRow room' = Some row'
                 /\ num row' = num row
                 /\ JsMap.keys (rowTeams row') = JsMap.keys (rowTeams row)
                 /\ JsMap.get (rowTeams row') tid
                    = Some (mkRowEntry (rowP e) (jsAdd (rowTU e) 4) (rowB e)
                              (jsAdd (score team) 4))
                 /\ (forall k, k <> tid ->
                       JsMap.get (rowTeams row') k
                       = JsMap.get (rowTeams row) k))
         /\ (rows (matchLog room) = [] -> matchLog room' = matchLog room)
         /\ tossupEndTimeout room' = None
         /\ (forall h, tossupEndTimeout room = Some h ->
               ~ In h (map handle (pending (server res))))
         /\ buzz room' = Unlocked
         /\ phase room' = BonusReading
         /\ activeBonusTeamId room' = Some tid
         /\ timer room'
            = mkTimer BonusMode false (bonusSeconds (settings room) * 1000) 0.
Proof.
  intros s sock now codeArg room ws wn tid a interrupt Hreach Hget Hhost Hb res.
  destruct (winner_team _ Hreach Hget Hb) as [Htr [team Hteam]].
  destruct (server_ok_get _ (reachable_ok Hreach) Hget) as [_ Hr].
  pose proof (server_ledger_get _ (reachable_ledger Hreach) Hget) as Hled.
  subst res. unfold host_mark_answer, requireRoom, requireHost, commit.
  rewrite Hget, Hhost, String.eqb_refl, Hb, Htr, Hteam.
  destruct (@scored_effect room tid team 4 FieldTU (ok_team_keys Hr) Hled
              Hteam) as (m & Hm & Hrows).
  rewrite Hm.
  pose proof (clearTossupEndTimeout_cancels s
                (withMatchLog (addScore room tid team 4) m)) as Hcancel.
  destruct (clearTossupEndTimeout_shape s
              (withMatchLog (addScore room tid team 4) m))
    as (Hrooms & _ & Hsnd).
  destruct (clearTossupEndTimeout s _) as [s1 r4].
  simpl in Hrooms, Hsnd, Hcancel.
  subst r4. simpl. split; [reflexivity|].
  exists team. eexists. split; [reflexivity|].
  split; [apply get_set_eq|]. split; [reflexivity|].
  unfold resetTimerFull, setTimer, clearBuzz. simpl.
  split; [apply get_set_eq|].
  split.
  { intros n Hn Hrange. rewrite Hn. apply (@jsAdd_Z n 4); lia. }
  split; [intros k Hk; apply get_set_ne; congruence|].
  destruct Hrows as [Hrows Hnone].
  split.
  { intros l row El.
    destruct (Hrows l row El)
      as (e & row' & He & Hmm & Hnum & Hkeys & Htid & Hoth).
    exists e, row'. split; [exact He|]. split; [exact Hmm|].
    split; [|auto].
    unfold currentRow, ensureMatch. simpl. rewrite Hmm. simpl.
    apply last_map_Some_app. }
  split; [exact Hnone|].
  repeat split; auto.
Qed.

Lemma mark_answer_correct_witness :
  let s := run initServer (sessionClassified false) in
  let res := host_mark_answer s "h" 3500 "AAAAAA" true in
  verdict res = Accepted
  /\ exists room' row',
       JsMap.get (rooms (server res)) "AAAAAA" = Some room'
       /\ JsMap.get (teams room') "t1" = Some (mkTeam "t1" "Team A" 4)
       /\ currentRow room' = Some row'
       /\ JsMap.get (rowTeams row') "t1" = Some (mkRowEntry 0 4 0 4)
       /\ JsMap.get (rowTeams row') "t2" = Some (mkRowEntry 0 0 0 0)
       /\ phase room' = BonusReading
       /\ activeBonusTeamId room' = Some "t1"
       /\ timer room' = mkTimer BonusMode false 20000 0.
Proof.
  intros s res.
  edestruct (@mark_answer_correct s "h" 3500 "AAAAAA")
    as [Hv [team [room' (Ht & Hr & _ & Hs & _ & _ & Hrow & _ & _ & _ & _ & Hp
                         & Ha & Htm)]]].
  - exact (reachable_run _ reachable_init).
  - vm_compute; reflexivity.
  - reflexivity.
  - reflexivity.
  - split; [exact Hv|].
    vm_compute in Ht. injection Ht as <-.
    edestruct (Hrow []) as (e & row' & He & _ & Hcur & _ & _ & Htid & Hoth);
      [vm_compute; reflexivity|].
    vm_compute in He. injection He as <-.
    exists room', row'.
    split; [exact Hr|]. split; [exact Hs|]. split; [exact Hcur|].
    split; [exact Htid|].
    split; [rewrite Hoth by discriminate; vm_compute; reflexivity|].
    repeat split; assumption.
Defined.

(** C3, as stated, fails: in a room whose ledger has no row, the team that
    benefits from an interrupt gets its four points and no ledger row
    records them. *)
Lemma mark_interrupt_without_row :
  ~ interrupt_recorded_in_row (run initServer (sessionNoRow true)) "h" 3500
      "AAAAAA".
Proof.
  intros H. edestruct H as (room' & row' & e' & Hget & _ & Hrow & _).
  - vm_compute; reflexivity.
  - reflexivity.
  - reflexivity.
  - vm_compute; reflexivity.
  - vm_compute; reflexivity.
  - vm_compute in Hget. injection Hget as <-.
    vm_compute in Hrow. discriminate Hrow.
Qed.

Lemma mark_incorrect_interrupt s sock now codeArg room ws wn tid a :
  reachable s ->
  JsMap.get (rooms s) (normCode codeArg) = Some room ->
  hostSocketId room = sock ->
  buzz room = Locked ws wn tid a (Some true) ->
  let res := host_mark_answer s sock now codeArg false in
  verdict res = Accepted
  /\ exists room',
       JsMap.get (rooms (server res)) (normCode codeArg) = Some room'
       /\ effects res = [broadcast room' now]
       /\ tossupLockedTeams room' = JsSet.add (tossupLockedTeams room) tid
       /\ buzz room' = Unlocked
       /\ phase room' = TossupReading
       /\ timer room'
          = mkTimer TossupMode false (tossupSeconds (settings room) * 1000) 0
       /\ tossupEndTimeout room' = None
       /\ match otherTeamId room tid with
          | Some otherId =>
              exists other,
                JsMap.get (teams room) otherId = Some other
                /\ JsMap.get (teams room') otherId
                   = Some (mkTeam (teamKey other) (teamName other)
                             (jsAdd (score other) 4))
                /\ (forall n,
                      score other = inject_Z n -> 0 <= n <= 2 ^ 53 - 4 ->
                      jsAdd (score other) 4 = inject_Z (n + 4))
                /\ (forall k, k <> otherId ->
                      JsMap.get (teams room') k = JsMap.get (teams room) k)
                /\ (forall l row,
                      rows (matchLog room) = (l ++ [row])%list ->
                      exists e row',
                        JsMap.get (rowTeams row) otherId = Some e
                        /\ matchLog room'
                           = mkMatch (tossupNumber (matchLog room))
                               (l ++ [row'])
                        /\ currentRow room' = Some row'
                        /\ num row' = num row
                        /\ JsMap.keys (rowTeams row')
                           = JsMap.keys (rowTeams row)
                        /\ JsMap.get (rowTeams row') otherId
                           = Some (mkRowEntry (jsAdd (rowP e) 4) (rowTU e)
                                     (rowB e) (jsAdd (score other) 4))
                        /\ (forall k, k <> otherId ->
                              JsMap.get (rowTeams row') k
                              = JsMap.get (rowTeams row) k))
                /\ (rows (matchLog room) = [] ->
                    matchLog room' = matchLog room)
          | None => teams room' = teams room /\ matchLog room' = matchLog room
          end.
Proof.
  intros Hreach Hget Hhost Hb res.
  destruct (winner_team _ Hreach Hget Hb) as [Htr [team Hteam]].
  destruct (server_ok_get _ (reachable_ok Hreach) Hget) as [_ Hr].
  pose proof (server_ledger_get _ (reachable_ledger Hreach) Hget) as Hled.
  subst res. unfold host_mark_answer, requireRoom, requireHost, commit.
  rewrite Hget, Hhost, String.eqb_refl, Hb, Htr, Hteam.
  set (r2 := clearBuzz (withTossupLockedTeams room
                          (JsSet.add (tossupLockedTeams room) tid))).
  change (otherTeamId r2 tid) with (otherTeamId room tid).
  change (teams r2) with (teams room).
  destruct (otherTeamId room tid) as [otherId|] eqn:Hother.
  - destruct (otherTeamId_team _ _ Hother) as [Hne [other Hget2]].
    rewrite Hget2.
    destruct (@scored_effect r2 otherId other 4 FieldP (ok_team_keys Hr) Hled
                Hget2) as (m & Hm & Hrows).
    rewrite Hm.
    destruct (clearTossupEndTimeout_shape s
                (withMatchLog (addScore r2 otherId other 4) m))
      as (Hrooms & _ & Hsnd).
    destruct (clearTossupEndTimeout s _) as [s1 r4]. simpl in Hrooms, Hsnd.
    subst r4. simpl. split; [reflexivity|].
    eexists. split; [apply get_set_eq|]. split; [reflexivity|].
    unfold resetTimerFull, setTimer. simpl.
    repeat (split; [reflexivity|]).
    exists other. split; [reflexivity|].
    split; [apply get_set_eq|].
    split.
    { intros n Hn Hrange. rewrite Hn. apply (@jsAdd_Z n 4); lia. }
    split; [intros k Hk; apply get_set_ne; congruence|].
    change (matchLog r2) with (matchLog room) in Hrows.
    destruct Hrows as [Hrows Hnone]. split; [|exact Hnone].
    intros l row El.
    destruct (Hrows l row El)
      as (e & row' & He & Hmm & Hnum & Hkeys & Htid & Hoth).
    exists e, row'. split; [exact He|]. split; [exact Hmm|].
    split; [|auto].
    unfold currentRow, ensureMatch. simpl. rewrite Hmm. simpl.
    apply last_map_Some_app.
  - destruct (clearTossupEndTimeout_shape s r2) as (Hrooms & _ & Hsnd).
    destruct (clearTossupEndTimeout s r2) as [s1 r4]. simpl in Hrooms, Hsnd.
    subst r4. simpl. split; [reflexivity|].
    eexists. split; [apply get_set_eq|]. split; [reflexivity|].
    unfold resetTimerFull, setTimer. simpl.
    repeat split.
Qed.

Lemma mark_incorrect_no_interrupt s sock now codeArg room ws wn tid a :
  reachable s ->
  JsMap.get (rooms s) (normCode codeArg) = Some room ->
  hostSocketId room = sock ->
  buzz room = Locked ws wn tid a (Some false) ->
  let res := host_mark_answer s sock now codeArg false in
  verdict res = Accepted
  /\ exists room',
       JsMap.get (rooms (server res)) (normCode codeArg) = Some room'
       /\ effects res = [broadcast room' now]
       /\ tossupLockedTeams room' = JsSet.add (tossupLockedTeams room) tid
       /\ buzz room' = Unlocked
       /\ phase room' = TossupLive
       /\ teams room' = teams room
       /\ matchLog room' = matchLog room
       /\ timer room'
          = mkTimer TossupMode true (tossupSeconds (settings room) * 1000)
              (now + tossupSeconds (settings room) * 1000)
       /\ tossupEndTimeout room' = Some (nextHandle s)
       /\ exists rest,
            pending (server res)
            = mkPending (nextHandle s) (code room)
                (now + (tossupSeconds (settings room) * 1000 + 15)) :: rest
            /\ incl rest (pending s)
            /\ (forall h, tossupEndTimeout room = Some h ->
                  ~ In h (map handle rest)).
Proof.
  intros Hreach Hget Hhost Hb res.
  destruct (winner_team _ Hreach Hget Hb) as [Htr [team Hteam]].
  subst res. unfold host_mark_answer, requireRoom, requireHost, commit.
  rewrite Hget, Hhost, String.eqb_refl, Hb, Htr, Hteam.
  set (r4 := resetTimerFull
               (withPhase
                  (clearBuzz
                     (withTossupLockedTeams room
                        (JsSet.add (tossupLockedTeams room) tid)))
                  TossupLive) now TossupMode true).
  destruct (scheduleTossupEnd_shape s r4 now) as (Hrooms & Hsnd).
  destruct (scheduleTossupEnd_pending s r4 now) as (rest & Hp & Hincl & Hold).
  destruct (scheduleTossupEnd s r4 now) as [s1 r5].
  simpl in Hrooms, Hsnd, Hp. subst r5. simpl.
  split; [reflexivity|].
  eexists. split; [apply get_set_eq|]. split; [reflexivity|].
  simpl. repeat (split; [reflexivity|]).
  exists rest. split; [exact Hp|]. split; [exact Hincl|exact Hold].
Qed.

(** C3, amended: in a reachable state, when the host marks incorrect the
    answer of a locked buzz whose interrupt choice is set, the command is
    accepted, the buzzing team joins the locked-out teams and the buzz is
    cleared.  If the buzz was classified an interrupt, the phase is
    tossup_reading with the paused toss-up clock and no end callback; the
    first team in creation order other than the buzzing one, when the room
    has one, gets 4 added to its score, as JavaScript adds numbers (exactly
    4 more for a whole-number score up to 2^53 - 4), and no other team
    changes; when the
    ledger has a row, that team's entry in the current row gets 4 more under
    [p] and the new running score and nothing else in the ledger changes;
    when the ledger has no row it stays as it is.  A room with two or more
    teams, none with an empty id, always has such a team.  If the buzz was
    not an interrupt, teams and ledger are as before, the phase is
    tossup_live, the toss-up clock runs again from now, and a fresh end
    callback is pending for the room while the handle it held before is
    not. *)
Theorem mark_answer_incorrect :
  forall s sock now codeArg room ws wn tid a interrupt,
    reachable s ->
    JsMap.get (rooms s) (normCode codeArg) = Some room ->
    hostSocketId room = sock ->
    buzz room = Locked ws wn tid a (Some interrupt) ->
    let res := host_mark_answer s sock now codeArg false in
    verdict res = Accepted
    /\ exists room',
         JsMap.get (rooms (server res)) (normCode codeArg) = Some room'
         /\ effects res = [broadcast room' now]
         /\ tossupLockedTeams room' = JsSet.add (tossupLockedTeams room) tid
         /\ buzz room' = Unlocked
         /\ match interrupt with
            | true =>
                phase room' = TossupReading
                /\ timer room'
                   = mkTimer TossupMode false
                       (tossupSeconds (settings room) * 1000) 0
                /\ tossupEndTimeout room' = None
                /\ match otherTeamId room tid with
                   | Some otherId =>
                       exists other,
                         JsMap.get (teams room) otherId = Some other
                         /\ JsMap.get (teams room') otherId
                            = Some (mkTeam (teamKey other) (teamName other)
                                      (jsAdd (score other) 4))
                         /\ (forall n,
                               score other = inject_Z n ->
                               0 <= n <= 2 ^ 53 - 4 ->
                               jsAdd (score other) 4 = inject_Z (n + 4))
                         /\ (forall k, k <> otherId ->
                               JsMap.get (teams room') k
                               = JsMap.get (teams room) k)
                         /\ (forall l row,
                               rows (matchLog room) = (l ++ [row])%list ->
                               exists e row',
                                 JsMap.get (rowTeams row) otherId = Some e
                                 /\ matchLog room'
                                    = mkMatch (tossupNumber (matchLog room))
                                        (l ++ [row'])
                                 /\ currentRow room' = Some row'
                                 /\ num row' = num row
                                 /\ JsMap.keys (rowTeams row')
                                    = JsMap.keys (rowTeams row)
                                 /\ JsMap.get (rowTeams row') otherId
                                    = Some (mkRowEntry (jsAdd (rowP e) 4)
                                              (rowTU e) (rowB e)
                                              (jsAdd (score other) 4))
                                 /\ (forall k, k <> otherId ->
                                       JsMap.get (rowTeams row') k
                                       = JsMap.get (rowTeams row) k))
                         /\ (rows (matchLog room) = [] ->
                             matchLog room' = matchLog room)
                   | None =>
                       teams room' = teams room
                       /\ matchLog room' = matchLog room
                   end
                /\ ((2 <= List.length (teams room))%nat ->
                    ~ In "" (JsMap.keys (teams room)) ->
                    exists otherId, otherTeamId room tid = Some otherId)
            | false =>
                phase room' = TossupLive
                /\ teams room' = teams room
                /\ matchLog room' = matchLog room
                /\ timer room'
                   = mkTimer TossupMode true
                       (tossupSeconds (settings room) * 1000)
                       (now + tossupSeconds (settings room) * 1000)
                /\ tossupEndTimeout room' = Some (nextHandle s)
                /\ exists rest,
                     pending (server res)
                     = mkPending (nextHandle s) (code room)
                         (now + (tossupSeconds (settings room) * 1000 + 15))
                         :: rest
                     /\ incl rest (pending s)
                     /\ (forall h, tossupEndTimeout room = Some h ->
                           ~ In h (map handle rest))
            end.
Proof.
  intros s sock now codeArg room ws wn tid a interrupt Hreach Hget Hhost Hb.
  destruct interrupt.
  - destruct (mark_incorrect_interrupt now codeArg Hreach Hget Hhost Hb)
      as [Hv [room' (H1 & H2 & H3 & H4 & H5 & H6 & H7 & H8)]].
    split; [exact Hv|]. exists room'. repeat (split; [assumption|]).
    intros Hlen Hno. apply otherTeamId_two_teams; auto.
    destruct (server_ok_get _ (reachable_ok Hreach) Hget) as [_ Hr].
    exact (ok_team_keys Hr).
  - destruct (mark_incorrect_no_interrupt now codeArg Hreach Hget Hhost Hb)
      as [Hv [room' (H1 & H2 & H3 & H4 & H5)]].
    split; [exact Hv|]. exists room'. repeat (split; [assumption|]).
    exact H5.
Qed.

Lemma mark_answer_incorrect_witness :
  (let s := run initServer (sessionClassified true) in
   let res := host_mark_answer s "h" 3500 "AAAAAA" false in
   exists room' row',
     JsMap.get (rooms (server res)) "AAAAAA" = Some room'
     /\ tossupLockedTeams room' = ["t1"]
     /\ buzz room' = Unlocked
     /\ phase room' = TossupReading
     /\ JsMap.get (teams room') "t2" = Some (mkTeam "t2" "Team B" 4)
     /\ currentRow room' = Some row'
     /\ JsMap.get (rowTeams row') "t2" = Some (mkRowEntry 4 0 0 4))
  /\ (let s := run initServer (sessionClassified false) in
      let res := host_mark_answer s "h" 3500 "AAAAAA" false in
      exists room',
        JsMap.get (rooms (server res)) "AAAAAA" = Some room'
        /\ tossupLockedTeams room' = ["t1"]
        /\ phase room' = TossupLive
        /\ timer room' = mkTimer TossupMode true 5000 8500
        /\ tossupEndTimeout room' = Some 1%nat).
Proof.
  split; intros s res.
  - pose proof (fun room ws wn tid a =>
                  @mark_answer_incorrect s "h" 3500 "AAAAAA" room ws wn tid a
                    true (reachable_run _ reachable_init)) as H.
    cbv beta iota zeta in H.
    edestruct H
      as [_ [room' (Hr & _ & Hl & Hb & Hp & _ & _ & Hother & _)]].
    + vm_compute; reflexivity.
    + reflexivity.
    + reflexivity.
    + cbv beta iota zeta delta [otherTeamId] in Hother. simpl in Hother.
      destruct Hother as (other & Ho & Hs & _ & _ & Hrow & _).
      vm_compute in Ho. injection Ho as <-.
      edestruct (Hrow []) as (e & row' & He & _ & Hcur & _ & _ & Htid & _);
        [vm_compute; reflexivity|].
      vm_compute in He. injection He as <-.
      exists room', row'. repeat (split; [assumption|]). exact Htid.
  - pose proof (fun room ws wn tid a =>
                  @mark_answer_incorrect s "h" 3500 "AAAAAA" room ws wn tid a
                    false (reachable_run _ reachable_init)) as H.
    cbv beta iota zeta in H.
    edestruct H
      as [_ [room' (Hr & _ & Hl & _ & Hp & _ & _ & Ht & Hh & _)]].
    + vm_compute; reflexivity.
    + reflexivity.
    + reflexivity.
    + exists room'. repeat (split; [assumption|]). exact Hh.
Defined.

(** ** What never changes in a room *)

Lemma room_grows_refl room : room_grows room room.
Proof.
  repeat split; auto.
  intros k t Ht. exists t. repeat split; auto. apply Qle_refl.
Qed.

Lemma room_grows_trans r1 r2 r3 :
  room_grows r1 r2 -> room_grows r2 r3 -> room_grows r1 r3.
Proof.
  intros (Hc & Hh & Hs & Hk & Ht & Hl) (Hc' & Hh' & Hs' & Hk' & Ht' & Hl').
  repeat split; try congruence; try lia.
  intros k t Hget. destruct (Ht _ _ Hget) as (t2 & Hget2 & Hkey2 & Hle2).
  destruct (Ht' _ _ Hget2) as (t3 & Hget3 & Hkey3 & Hle3).
  exists t3. repeat split; auto; try congruence.
  eapply Qle_trans; eauto.
Qed.

Lemma room_grows_same r r' :
  code r' = code r -> hostSocketId r' = hostSocketId r ->
  settings r' = settings r -> teams r' = teams r ->
  matchLog r' = matchLog r ->
  room_grows r r'.
Proof.
  intros Hc Hh Hs Ht Hm. unfold room_grows. rewrite Hc, Hh, Hs, Ht, Hm.
  apply room_grows_refl.
Qed.

Lemma length_setCurrentRow r row row' :
  currentRow r = Some row ->
  List.length (rows (matchLog (setCurrentRow r row')))
  = List.length (rows (matchLog r)).
Proof.
  intros Hrow. unfold currentRow, ensureMatch in Hrow.
  destruct (last_Some_split _ Hrow) as [l El].
  unfold setCurrentRow. simpl. rewrite El, removelast_last, !length_app.
  reflexivity.
Qed.

Lemma room_grows_setCurrentRow r row row' :
  currentRow r = Some row -> room_grows r (setCurrentRow r row').
Proof.
  intros Hrow. pose proof (length_setCurrentRow r row' Hrow) as Hl.
  repeat split; auto; try lia.
  intros k t Ht. exists t. repeat split; auto. apply Qle_refl.
Qed.

Lemma room_grows_addRowDelta r tid f q : room_grows r (addRowDelta r tid f q).
Proof.
  unfold addRowDelta.
  destruct (currentRow r) as [row|] eqn:Hrow; [|apply room_grows_refl].
  destruct (JsMap.get (rowTeams row) tid); [|apply room_grows_refl].
  eapply room_grows_setCurrentRow; eauto.
Qed.

Lemma room_grows_refreshRowScores r : room_grows r (refreshRowScores r).
Proof.
  unfold refreshRowScores.
  destruct (currentRow r) as [row|] eqn:Hrow; [|apply room_grows_refl].
  eapply room_grows_setCurrentRow; eauto.
Qed.

Lemma room_grows_startNewTossupRow r : room_grows r (startNewTossupRow r).
Proof.
  unfold startNewTossupRow, ensureMatch. repeat split; auto.
  - intros k t Ht. exists t. repeat split; auto. apply Qle_refl.
  - simpl. rewrite length_app. lia.
Qed.

Lemma room_grows_set_team r k t t' :
  JsMap.get (teams r) k = Some t ->
  teamKey t' = teamKey t ->
  (score t <= score t')%Q ->
  room_grows r (withTeams r (JsMap.set (teams r) k t')).
Proof.
  intros Hget Hkey Hle. repeat split; auto.
  - simpl. eapply keys_set_present; eauto.
  - intros k0 t0 Ht0. simpl. destruct (string_dec k k0) as [<-|Hne].
    + rewrite get_set_eq. exists t'. repeat split; congruence.
    + rewrite get_set_ne by assumption. exists t0.
      repeat split; auto. apply Qle_refl.
Qed.

Lemma room_grows_scored r tid team q f :
  room_scores r ->
  JsMap.get (teams r) tid = Some team ->
  (0 <= q)%Q ->
  room_grows r (refreshRowScores (addRowDelta (addScore r tid team q) tid f q)).
Proof.
  intros Hr Hget Hq.
  eapply room_grows_trans; [|apply room_grows_refreshRowScores].
  eapply room_grows_trans; [|apply room_grows_addRowDelta].
  unfold addScore. eapply room_grows_set_team; eauto.
  simpl. destruct (@scores_get _ _ _ Hr Hget) as [H0 Hd].
  now apply jsAdd_ge.
Qed.

Lemma grows_at_same s s' c : rooms s' = rooms s -> grows_at s s' c.
Proof.
  intros Hr. unfold grows_at. rewrite Hr.
  destruct (JsMap.get (rooms s) c) as [room|]; auto.
  exists room. split; auto using room_grows_refl.
Qed.

Lemma grows_at_set s s1 c c' room r' :
  rooms s1 = rooms s ->
  JsMap.get (rooms s) c' = Some room ->
  room_grows room r' ->
  grows_at s (withRooms s1 (JsMap.set (rooms s1) c' r')) c.
Proof.
  intros Hr Hget Hstep. unfold grows_at. simpl. rewrite Hr.
  destruct (string_dec c' c) as [->|Hne].
  - rewrite get_set_eq. eauto.
  - rewrite get_set_ne by assumption.
    destruct (JsMap.get (rooms s) c) as [room0|]; auto.
    exists room0. split; auto using room_grows_refl.
Qed.

Ltac grows_leaf :=
  solve
    [ apply grows_at_same; reflexivity
    | eapply grows_at_set;
      [ solve [reflexivity | eassumption] | eassumption
      | first
          [ apply room_grows_same; reflexivity
          | eapply room_grows_trans;
            [ eassumption | apply room_grows_same; reflexivity ] ] ] ].

Lemma disconnect_get s sock now c :
  server_ok s ->
  JsMap.get (rooms (server (disconnect s sock now))) c
  = match JsMap.get (rooms s) c with
    | Some room => afterDisconnect sock room
    | None => None
    end.
Proof.
  intros [Hnd Hall]. unfold disconnect.
  pose proof (@disconnect_fold_get sock now c (rooms s) (s, []) Hnd Hnd) as H.
  destruct (fold_left _ _ _) as [s' effs]. simpl in *. rewrite H.
  - destruct (JsMap.get (rooms s) c); reflexivity.
  - intros k r Hin. split; [now apply In_get|].
    rewrite Forall_forall in Hall. exact (proj1 (Hall _ Hin)).
Qed.

Lemma handle_message_grows s sock now m c :
  server_ok s ->
  server_scores s ->
  createsCode c (FromSocket sock m) = false ->
  grows_at s (server (handle_message s sock now m)) c.
Proof.
  intros Hok Hsc Hcreate. destruct m; unfold handle_message.
  - (* create_room *)
    simpl in Hcreate. apply String.eqb_neq in Hcreate.
    unfold create_room, grows_at. simpl.
    rewrite get_set_ne by assumption.
    destruct (JsMap.get (rooms s) c) as [room|]; auto.
    exists room. split; auto using room_grows_refl.
  - unfold host_set_room_name. open_handler; try grows_leaf.
    destruct (negb _); simpl; grows_leaf.
  - unfold host_set_team_name. open_handler; try grows_leaf.
    destruct tid as [k|]; simpl; try grows_leaf.
    destruct (JsMap.get (teams room) k) as [t|] eqn:Ht; simpl;
      try grows_leaf.
    destruct (negb _); simpl; try grows_leaf.
    eapply grows_at_set; [reflexivity|eassumption|].
    eapply room_grows_set_team; eauto. apply Qle_refl.
  - unfold join_room. open_handler; try grows_leaf.
    destruct spectate; simpl; try grows_leaf.
    destruct tid as [k|]; simpl; try grows_leaf.
    destruct (JsString.truthy k && JsMap.has (teams room) k); simpl;
      grows_leaf.
  - unfold set_team. grows_leaf.
  - (* host_start_tossup_reading *)
    unfold host_start_tossup_reading. open_handler; try grows_leaf.
    destruct (startsWithBonus (phase room)); simpl; try grows_leaf.
    use_shapes.
    eapply grows_at_set; [eassumption|eassumption|].
    eapply room_grows_trans; [|apply room_grows_refreshRowScores].
    eapply room_grows_trans; [|apply room_grows_startNewTossupRow].
    apply room_grows_same; reflexivity.
  - unfold host_done_reading_tossup. open_handler; try grows_leaf.
    destruct (startsWithBonus (phase room)); simpl; try grows_leaf.
    use_shapes. grows_leaf.
  - unfold buzz_handler. open_handler; try grows_leaf.
    destruct (JsMap.get (players room) sock) as [pl|]; simpl;
      try grows_leaf.
    destruct (isHost pl || isSpectator pl); simpl; try grows_leaf.
    destruct (negb (phase_eqb (phase room) TossupReading)
              && negb (phase_eqb (phase room) TossupLive)); simpl;
      try grows_leaf.
    destruct (teamId pl) as [tid|]; simpl; try grows_leaf.
    destruct (JsString.truthy tid); simpl; try grows_leaf.
    destruct (JsSet.has (tossupLockedTeams room) tid); simpl;
      try grows_leaf.
    destruct (locked (buzz room)); simpl; try grows_leaf.
    destruct (phase_eqb (phase room) TossupLive).
    + use_shapes. unfold stopTimer.
      destruct (negb (running (timer room))); grows_leaf.
    + grows_leaf.
  - unfold host_clear_buzz. open_handler; try grows_leaf.
    unfold clearBuzz. simpl.
    destruct (phase_eqb (phase room) TossupLive && running (timer room)).
    + use_shapes. grows_leaf.
    + grows_leaf.
  - unfold host_set_interrupt_choice. open_handler; try grows_leaf.
    destruct (buzz room); simpl; grows_leaf.
  - (* host_mark_answer *)
    unfold host_mark_answer. open_handler; try grows_leaf.
    destruct (buzz room) as [|ws wn wt a ic]; simpl; try grows_leaf.
    destruct (if JsString.truthy wt then _ else _) as [team|] eqn:Hteam;
      simpl; try grows_leaf.
    apply truthy_get_has in Hteam as (_ & Hteam & _).
    destruct ic as [interrupt|]; simpl; try grows_leaf.
    assert (H4 : (0 <= 4)%Q) by discriminate.
    destruct correct.
    + pose proof (@room_grows_scored room wt team 4 FieldTU
                    (server_scores_get _ Hsc Hget) Hteam H4) as Hg.
      use_shapes. grows_leaf.
    + destruct interrupt.
      * unfold clearBuzz.
        destruct (otherTeamId _ wt) as [otherId|]; simpl.
        -- destruct (JsMap.get (teams room) otherId) as [other|] eqn:Hother;
             simpl.
           ++ assert (Hg : room_grows room
                     (refreshRowScores
                        (addRowDelta
                           (addScore
                              (withBuzz
                                 (withTossupLockedTeams room
                                    (JsSet.add (tossupLockedTeams room) wt))
                                 Unlocked) otherId other 4) otherId FieldP 4))).
              { eapply room_grows_trans;
                  [|apply room_grows_scored;
                     [exact (server_scores_get _ Hsc Hget)
                     |exact Hother|exact H4]].
                apply room_grows_same; reflexivity. }
              use_shapes. grows_leaf.
           ++ use_shapes. grows_leaf.
        -- use_shapes. grows_leaf.
      * use_shapes. grows_leaf.
  - unfold host_done_reading_bonus. open_handler; try grows_leaf.
    destruct (negb (phase_eqb (phase room) BonusReading)
              && negb (phase_eqb (phase room) BonusLive)); simpl;
      grows_leaf.
  - (* host_award_bonus *)
    unfold host_award_bonus. open_handler; try grows_leaf.
    destruct (negb (startsWithBonus (phase room))); simpl; try grows_leaf.
    destruct (activeBonusTeamId room) as [tid|]; simpl; try grows_leaf.
    destruct (if JsString.truthy tid then _ else _) as [team|] eqn:Hteam;
      simpl; try grows_leaf.
    apply truthy_get_has in Hteam as (_ & Hteam & _).
    destruct (pointsInRange points) as [q|] eqn:Hq; simpl; try grows_leaf.
    pose proof (@room_grows_scored room tid team q FieldB
                  (server_scores_get _ Hsc Hget) Hteam
                  (pointsInRange_nonneg _ Hq)) as Hg.
    grows_leaf.
  - unfold host_skip_bonus. open_handler; try grows_leaf.
    destruct (negb (startsWithBonus (phase room))); simpl; grows_leaf.
  - (* disconnect *)
    unfold grows_at.
    rewrite (disconnect_get sock now c Hok).
    destruct (JsMap.get (rooms s) c) as [room|] eqn:Hget; auto.
    unfold afterDisconnect.
    destruct (JsMap.has (players room) sock); [|eauto using room_grows_refl].
    destruct (String.eqb (hostSocketId room) sock); auto.
    exists room. split; auto. apply room_grows_same; reflexivity.
Qed.

Lemma step_grows s now e c :
  server_ok s -> server_scores s ->
  createsCode c e = false -> grows_at s (step s now e) c.
Proof.
  intros Hok Hsc Hcreate. destruct e as [sock m|h]; simpl.
  - now apply handle_message_grows.
  - unfold fireTimeout. destruct (find _ (pending s)) as [pt|]; simpl;
      [|grows_leaf].
    unfold tossupEndCallback. simpl.
    destruct (JsMap.get (rooms s) (capturedCode pt)) as [room|] eqn:Hget;
      simpl; [|grows_leaf].
    destruct (_ && _); simpl; [|grows_leaf].
    apply (@grows_at_set s (clearTimeout s h) c (capturedCode pt) room);
      [reflexivity|exact Hget|].
    apply room_grows_same; reflexivity.
Qed.

(** X12: along any run from a reachable state in which no [create_room] generates
    the code of a room, that room, as long as it is registered, keeps its
    code, its host and its settings; it keeps its teams, in the same order
    and under the same keys, and no team's score ever goes down; and its
    ledger never loses a row. *)
Theorem room_identity_preserved :
  forall evs s c room,
    reachable s ->
    JsMap.get (rooms s) c = Some room ->
    forallb (fun ne => negb (createsCode c (snd ne))) evs = true ->
    match JsMap.get (rooms (run s evs)) c with
    | Some room' => room_grows room room'
    | None => True
    end.
Proof.
  induction evs as [|[t e] evs IH]; intros s c room Hreach Hget Hevs.
  - simpl. rewrite Hget. apply room_grows_refl.
  - simpl in Hevs. apply andb_true_iff in Hevs as [He Hevs].
    apply negb_true_iff in He. simpl.
    pose proof (@step_grows s t e c (reachable_ok Hreach)
                  (reachable_scores Hreach) He) as Hstep.
    unfold grows_at in Hstep.
    destruct (JsMap.get (rooms (step s t e)) c) as [room1|] eqn:Hget1.
    + destruct Hstep as (room0 & Hget0 & Hg0).
      assert (room0 = room) by congruence. subst room0.
      specialize (IH (step s t e) c room1 (reachable_step t e Hreach)
                    Hget1 Hevs).
      destruct (JsMap.get (rooms (run (step s t e) evs)) c); auto.
      eapply room_grows_trans; eauto.
    + clear IH Hstep.
      assert (Hgone : forall evs' s',
                 reachable s' ->
                 JsMap.get (rooms s') c = None ->
                 forallb (fun ne => negb (createsCode c (snd ne))) evs' = true ->
                 JsMap.get (rooms (run s' evs')) c = None).
      { induction evs' as [|[t' e'] evs' IH']; intros s' Hr' Hn' Hev'; auto.
        simpl in Hev'. apply andb_true_iff in Hev' as [He' Hev'].
        apply negb_true_iff in He'. simpl. apply IH'; auto.
        - now constructor.
        - pose proof (@step_grows s' t' e' c (reachable_ok Hr')
                        (reachable_scores Hr') He') as Hs.
          unfold grows_at in Hs.
          destruct (JsMap.get (rooms (step s' t' e')) c); auto.
          destruct Hs as (r0 & Hr0 & _). congruence. }
      rewrite Hgone; auto. now constructor.
Qed.

Lemma room_identity_preserved_witness :
  let s0 := run initServer sessionJoined in
  let evs :=
    [ (1200, FromSocket "h" (HostStartTossupReading "AAAAAA"));
      (1300, FromSocket "h" (HostDoneReadingTossup "AAAAAA"));
      (3300, FromSocket "a" (BuzzMsg "AAAAAA"));
      (3400, FromSocket "h" (HostSetInterruptChoice "AAAAAA" false));
      (3500, FromSocket "h" (HostMarkAnswer "AAAAAA" true));
      (4000, FromSocket "h" (HostDoneReadingBonus "AAAAAA"));
      (9000, FromSocket "h" (HostAwardBonus "AAAAAA" (JFin 10))) ] in
  exists room,
    JsMap.get (rooms s0) "AAAAAA" = Some room
    /\ match JsMap.get (rooms (run s0 evs)) "AAAAAA" with
       | Some room' => room_grows room room'
       | None => True
       end.
Proof.
  intros s0 evs. eexists. split; [vm_compute; reflexivity|].
  apply room_identity_preserved.
  - exact (reachable_run _ reachable_init).
  - vm_compute; reflexivity.
  - reflexivity.
Defined.

(** ** Authorization *)

(** X13: a message that names a room whose code is not registered is answered
    with "Room not found." and nothing else happens; a host-only message for
    a registered room, sent by a socket that is not the room's host, is
    answered with "Host only." and nothing else happens, whatever the phase
    and the payload. *)
Theorem unauthorized_commands_rejected :
  forall s sock now m codeArg,
    (messageCode m = Some codeArg ->
     JsMap.get (rooms s) (normCode codeArg) = None ->
     handle_message s sock now m
     = mkResult s [EmitSocket sock (ErrorMsg "Room not found.")]
         (Rejected RoomNotFound))
    /\ (forall room,
          hostOnlyCode m = Some codeArg ->
          JsMap.get (rooms s) (normCode codeArg) = Some room ->
          hostSocketId room <> sock ->
          handle_message s sock now m
          = mkResult s [EmitSocket sock (ErrorMsg "Host only.")]
              (Rejected HostOnly)).
Proof.
  intros s sock now m codeArg. split.
  - intros Hm Hget.
    destruct m; simpl in Hm; try discriminate; injection Hm as ->;
      unfold handle_message, host_set_room_name, host_set_team_name,
        join_room, host_start_tossup_reading, host_done_reading_tossup,
        buzz_handler, host_clear_buzz, host_set_interrupt_choice,
        host_mark_answer, host_done_reading_bonus, host_award_bonus,
        host_skip_bonus, requireRoom;
      rewrite Hget; reflexivity.
  - intros room Hm Hget Hhost. apply String.eqb_neq in Hhost.
    destruct m; simpl in Hm; try discriminate; injection Hm as ->;
      unfold handle_message, host_set_room_name, host_set_team_name,
        host_start_tossup_reading, host_done_reading_tossup,
        host_clear_buzz, host_set_interrupt_choice,
        host_mark_answer, host_done_reading_bonus, host_award_bonus,
        host_skip_bonus, requireRoom, requireHost;
      rewrite Hget, Hhost; reflexivity.
Qed.

Lemma unauthorized_commands_rejected_witness :
  let s := run initServer sessionBuzzed in
  handle_message s "a" 3400 (HostMarkAnswer "aaaaaa" true)
  = mkResult s [EmitSocket "a" (ErrorMsg "Host only.")] (Rejected HostOnly)
  /\ handle_message s "a" 3400 (BuzzMsg "nowhere")
     = mkResult s [EmitSocket "a" (ErrorMsg "Room not found.")]
         (Rejected RoomNotFound).
Proof.
  intros s. split.
  - eapply (proj2 (@unauthorized_commands_rejected s "a" 3400
                     (HostMarkAnswer "aaaaaa" true) "aaaaaa")).
    + reflexivity.
    + vm_compute; reflexivity.
    + vm_compute; discriminate.
  - apply (proj1 (@unauthorized_commands_rejected s "a" 3400
                    (BuzzMsg "nowhere") "nowhere")); reflexivity.
Defined.

(** ** Effects of the toss-up handlers *)

Lemma fireTimeout_cancelled s now h :
  ~ In h (map handle (pending s)) -> fireTimeout s now h = (s, []).
Proof.
  intros Hnot. unfold fireTimeout.
  destruct (find _ (pending s)) as [pt|] eqn:F; auto.
  apply find_some in F as [Hin E]. apply Nat.eqb_eq in E. subst h.
  exfalso. apply Hnot. now apply in_map.
Qed.

(** X14: a buzz from a team player of a room in tossup_reading or tossup_live,
    whose team is not locked out, while the buzz is unlocked, is accepted and
    locks the buzz to that player.  In tossup_live it freezes the clock at
    the remaining time the snapshot showed and cancels the end callback, so
    that a late firing of the cancelled handle does nothing; in
    tossup_reading the timer is not touched.  Phase, teams, lockouts and
    ledger stay as they were. *)
Theorem buzz_locks_and_freezes :
  forall s sock now codeArg room pl tid,
    JsMap.get (rooms s) (normCode codeArg) = Some room ->
    JsMap.get (players room) sock = Some pl ->
    isHost pl = false -> isSpectator pl = false ->
    phase room = TossupReading \/ phase room = TossupLive ->
    teamId pl = Some tid -> tid <> "" ->
    JsSet.has (tossupLockedTeams room) tid = false ->
    buzz room = Unlocked ->
    let res := buzz_handler s sock now codeArg in
    verdict res = Accepted
    /\ exists room',
         JsMap.get (rooms (server res)) (normCode codeArg) = Some room'
         /\ effects res = [broadcast room' now]
         /\ buzz room' = Locked sock (playerName pl) tid now None
         /\ phase room' = phase room
         /\ teams room' = teams room
         /\ tossupLockedTeams room' = tossupLockedTeams room
         /\ matchLog room' = matchLog room
         /\ (phase room = TossupReading ->
             timer room' = timer room
             /\ tossupEndTimeout room' = tossupEndTimeout room
             /\ pending (server res) = pending s)
         /\ (phase room = TossupLive ->
             computeTimerSnapshot room' now
             = mkTimerSnapshot (mode (timer room)) false
                 (snapRemainingMs (computeTimerSnapshot room now)) 0
             /\ tossupEndTimeout room' = None
             /\ forall h later,
                  tossupEndTimeout room = Some h ->
                  fireTimeout (server res) later h = (server res, [])).
Proof.
  intros s sock now codeArg room pl tid Hget Hpl Hh Hsp Hph Htid Hne Hfree
    Hbz res.
  subst res. unfold buzz_handler, requireRoom, commit.
  rewrite Hget, Hpl, Hh, Hsp, Htid, Hfree, Hbz. simpl.
  assert (Htr : JsString.truthy tid = true).
  { unfold JsString.truthy. apply negb_true_iff. now apply String.eqb_neq. }
  rewrite Htr. simpl.
  destruct Hph as [Hph|Hph]; rewrite Hph; simpl.
  - split; [reflexivity|]. eexists. split; [apply get_set_eq|].
    repeat split; auto; discriminate.
  - pose proof (clearTossupEndTimeout_cancels s (stopTimer room now))
      as Hcancel.
    destruct (clearTossupEndTimeout_shape s (stopTimer room now))
      as (Hrooms & _ & Hsnd).
    destruct (clearTossupEndTimeout s (stopTimer room now)) as [s1 r1].
    simpl in Hrooms, Hsnd, Hcancel. subst r1. simpl.
    split; [reflexivity|]. eexists. split; [apply get_set_eq|].
    unfold stopTimer in *.
    destruct (negb (running (timer room))) eqn:Hrun; simpl;
      (repeat split; auto; try congruence; try discriminate).
    + unfold computeTimerSnapshot. simpl.
      apply negb_true_iff in Hrun. rewrite Hrun. reflexivity.
    + intros h later Hh'. apply fireTimeout_cancelled. simpl. auto.
    + unfold computeTimerSnapshot. simpl.
      apply negb_false_iff in Hrun. rewrite Hrun. reflexivity.
    + intros h later Hh'. apply fireTimeout_cancelled. simpl. auto.
Qed.

Lemma buzz_locks_and_freezes_witness :
  let s := run initServer sessionLive in
  let res := buzz_handler s "a" 3300 "AAAAAA" in
  exists room',
    JsMap.get (rooms (server res)) "AAAAAA" = Some room'
    /\ buzz room' = Locked "a" "Al" "t1" 3300 None
    /\ computeTimerSnapshot room' 3300
       = mkTimerSnapshot TossupMode false 3000 0
    /\ fireTimeout (server res) 6315 0 = (server res, []).
Proof.
  intros s res.
  edestruct (@buzz_locks_and_freezes s "a" 3300 "AAAAAA")
    as (_ & room' & Hg & _ & Hb & _ & _ & _ & _ & _ & Hlive).
  - vm_compute; reflexivity.
  - vm_compute; reflexivity.
  - reflexivity.
  - reflexivity.
  - right. reflexivity.
  - reflexivity.
  - discriminate.
  - reflexivity.
  - reflexivity.
  - destruct (Hlive eq_refl) as (Hsnap & _ & Hfire).
    exists room'. split; [exact Hg|]. split; [exact Hb|].
    split; [exact Hsnap|]. apply Hfire. reflexivity.
Defined.

(** X15: when the host of a room that is not in a bonus phase signals the end of
    reading, the room goes to tossup_live with the buzz cleared and the
    toss-up clock running from now, and one fresh end callback is armed,
    due 15 ms after the deadline.  If that callback fires at or after the
    deadline and nothing happened in between, the toss-up is closed with the
    clock at zero; if it fires before the deadline, the room stays as it
    was. *)
Theorem done_reading_then_timeout :
  forall s sock now codeArg room later,
    reachable s ->
    JsMap.get (rooms s) (normCode codeArg) = Some room ->
    hostSocketId room = sock ->
    startsWithBonus (phase room) = false ->
    let res := host_done_reading_tossup s sock now codeArg in
    let full := tossupSeconds (settings room) * 1000 in
    verdict res = Accepted
    /\ exists room',
         JsMap.get (rooms (server res)) (normCode codeArg) = Some room'
         /\ phase room' = TossupLive
         /\ buzz room' = Unlocked
         /\ timer room' = mkTimer TossupMode true full (now + full)
         /\ tossupEndTimeout room' = Some (nextHandle s)
         /\ (exists rest,
               pending (server res)
               = mkPending (nextHandle s) (normCode codeArg) (now + (full + 15))
                   :: rest)
         /\ (now + full <= later ->
             exists closed,
               JsMap.get
                 (rooms (fst (fireTimeout (server res) later (nextHandle s))))
                 (normCode codeArg) = Some closed
               /\ phase closed = TossupClosed
               /\ timer closed = mkTimer TossupMode false 0 0
               /\ buzz closed = Unlocked
               /\ snd (fireTimeout (server res) later (nextHandle s))
                  = [broadcast closed later])
         /\ (later < now + full ->
             rooms (fst (fireTimeout (server res) later (nextHandle s)))
             = rooms (server res)
             /\ snd (fireTimeout (server res) later (nextHandle s)) = []).
Proof.
  intros s sock now codeArg room later Hreach Hget Hhost Hnb res full.
  destruct (server_ok_get _ (reachable_ok Hreach) Hget) as [Hcode _].
  subst res. unfold host_done_reading_tossup, requireRoom, requireHost, commit.
  rewrite Hget, Hhost, String.eqb_refl, Hnb.
  set (r3 := resetTimerFull (clearBuzz (withPhase room TossupLive)) now
               TossupMode true).
  destruct (scheduleTossupEnd_shape s r3 now) as (Hrooms & Hsnd).
  destruct (scheduleTossupEnd_pending s r3 now) as (rest & Hp & _ & _).
  destruct (scheduleTossupEnd s r3 now) as [s1 r4].
  simpl in Hrooms, Hsnd, Hp. subst r4. simpl.
  split; [reflexivity|].
  eexists. split; [apply get_set_eq|].
  simpl. repeat (split; [reflexivity|]).
  fold full. rewrite Hcode in Hp.
  split; [exists rest; exact Hp|].
  unfold fireTimeout. simpl. rewrite Hp. simpl. rewrite Nat.eqb_refl. simpl.
  unfold tossupEndCallback. simpl. rewrite get_set_eq. simpl.
  fold full. split.
  - intros Hlate.
    replace (Z.max 0 (now + full - later)) with 0 by lia. simpl.
    eexists. split; [apply get_set_eq|]. repeat split.
  - intros Hearly.
    destruct (Z.max 0 (now + full - later) =? 0) eqn:E.
    + apply Z.eqb_eq in E. lia.
    + simpl. auto.
Qed.

Lemma done_reading_then_timeout_witness :
  let s0 := run initServer sessionJoined in
  let res := host_done_reading_tossup s0 "h" 1300 "AAAAAA" in
  exists closed,
    JsMap.get (rooms (fst (fireTimeout (server res) 6315 (nextHandle s0))))
      "AAAAAA" = Some closed
    /\ phase closed = TossupClosed
    /\ timer closed = mkTimer TossupMode false 0 0.
Proof.
  intros s0 res.
  edestruct (@done_reading_then_timeout s0 "h" 1300 "AAAAAA")
    as (_ & room' & _ & _ & _ & _ & _ & _ & Hlate & _).
  - exact (reachable_run _ reachable_init).
  - vm_compute; reflexivity.
  - reflexivity.
  - reflexivity.
  - destruct Hlate as (closed & Hg & Hp & Ht & _).
    + instantiate (1 := 6315). vm_compute. discriminate.
    + exists closed. repeat split; assumption.
Defined.

Lemma set_same (V : Type) (m : JsMap.t V) k v :
  JsMap.get m k = Some v -> JsMap.set m k v = m.
Proof.
  induction m as [|[k' v'] m IH]; simpl; [discriminate|].
  destruct (String.eqb k' k) eqn:E.
  - now intros [= ->].
  - intros H. now rewrite IH.
Qed.

Lemma refresh_fold_id (ts : JsMap.t Team) (entries : JsMap.t RowEntry) :
  (forall k t e,
      In (k, t) ts -> JsMap.get entries k = Some e ->
      withRowScore e (score t) = e) ->
  fold_left refreshEntry ts entries = entries.
Proof.
  induction ts as [|[k t] ts IH]; intros H; simpl; auto.
  assert (E : refreshEntry entries (k, t) = entries).
  { unfold refreshEntry. simpl.
    destruct (JsMap.get entries k) as [e|] eqn:G; auto.
    pose proof (H k t e (or_introl eq_refl) G) as He.
    unfold withRowScore in He. rewrite He. now apply set_same. }
  rewrite E. apply IH. intros k' t' e' Hin. apply H. now right.
Qed.

(** X16: when the host of a room that is not in a bonus phase starts reading a
    toss-up, the room goes to tossup_reading with no active bonus team, no
    locked-out team, the buzz cleared, the toss-up clock paused at its full
    time and the end callback cancelled; the teams are untouched, and the
    ledger gets exactly one new row, numbered one more than the counter,
    holding under the id of every team, and under no other key, an entry
    with zero deltas and the team's current score. *)
Theorem start_tossup_reading_opens_row :
  forall s sock now codeArg room,
    reachable s ->
    JsMap.get (rooms s) (normCode codeArg) = Some room ->
    hostSocketId room = sock ->
    startsWithBonus (phase room) = false ->
    let res := host_start_tossup_reading s sock now codeArg in
    let n := tossupNumber (matchLog room) + 1 in
    verdict res = Accepted
    /\ exists room',
         JsMap.get (rooms (server res)) (normCode codeArg) = Some room'
         /\ effects res = [broadcast room' now]
         /\ phase room' = TossupReading
         /\ activeBonusTeamId room' = None
         /\ tossupLockedTeams room' = []
         /\ buzz room' = Unlocked
         /\ timer room'
            = mkTimer TossupMode false (tossupSeconds (settings room) * 1000) 0
         /\ tossupEndTimeout room' = None
         /\ (forall h, tossupEndTimeout room = Some h ->
               ~ In h (map handle (pending (server res))))
         /\ teams room' = teams room
         /\ exists row',
              matchLog room' = mkMatch n (rows (matchLog room) ++ [row'])
              /\ num row' = n
              /\ NoDup (JsMap.keys (rowTeams row'))
              /\ forall k,
                   JsMap.get (rowTeams row') k
                   = match JsMap.get (teams room) k with
                     | Some t => Some (mkRowEntry 0 0 0 (score t))
                     | None => None
                     end.
Proof.
  intros s sock now codeArg room Hreach Hget Hhost Hnb res n.
  destruct (server_ok_get _ (reachable_ok Hreach) Hget) as [_ Hk].
  pose proof (ok_team_keys Hk) as Hnd.
  pose (r6 := resetTimerFull
                (clearBuzz
                   (withTossupLockedTeams
                      (withActiveBonusTeamId
                         (withPhase (withTossupEndTimeout room None)
                            TossupReading) None) [])) now TossupMode false).
  pose (entries :=
          fold_left
            (fun acc (kt : string * Team) =>
               JsObject.set acc (fst kt) (mkRowEntry 0 0 0 (score (snd kt))))
            (teams room) []).
  assert (Hm : matchLog (startNewTossupRow r6)
               = mkMatch n (rows (matchLog room) ++ [mkRow n entries]))
    by reflexivity.
  assert (Hrow : currentRow (startNewTossupRow r6) = Some (mkRow n entries)).
  { unfold currentRow, ensureMatch. rewrite Hm. simpl.
    apply last_map_Some_app. }
  assert (Hentries : forall k,
             JsMap.get entries k
             = match JsMap.get (teams room) k with
               | Some t => Some (mkRowEntry 0 0 0 (score t))
               | None => None
               end).
  { intros k. unfold entries. now rewrite new_row_get. }
  assert (Hfinal : refreshRowScores (startNewTossupRow r6)
                   = startNewTossupRow r6).
  { unfold refreshRowScores. rewrite Hrow. unfold setCurrentRow.
    rewrite Hm. simpl. rewrite removelast_last.
    rewrite refresh_fold_id.
    - rewrite <- Hm. apply withMatchLog_id.
    - intros k t e Hin He. rewrite Hentries in He.
      rewrite (In_get _ _ _ Hnd Hin) in He. injection He as <-.
      reflexivity. }
  subst res. unfold host_start_tossup_reading, requireRoom, requireHost, commit.
  rewrite Hget, Hhost, String.eqb_refl, Hnb.
  pose proof (clearTossupEndTimeout_cancels s room) as Hcancel.
  destruct (clearTossupEndTimeout_shape s room) as (Hrooms & _ & Hsnd).
  destruct (clearTossupEndTimeout s room) as [s1 r1].
  simpl in Hrooms, Hsnd, Hcancel. subst r1. cbv beta iota.
  fold r6. rewrite Hfinal.
  split; [reflexivity|].
  eexists. split; [apply get_set_eq|]. split; [reflexivity|].
  repeat (split; [solve [reflexivity | auto]|]).
  exists (mkRow n entries). split; [exact Hm|]. split; [reflexivity|].
  split; [|exact Hentries].
  apply new_row_NoDup. constructor.
Qed.

Lemma start_tossup_reading_opens_row_witness :
  let s0 := run initServer sessionAwarded in
  let res := host_start_tossup_reading s0 "h" 9500 "AAAAAA" in
  exists room' row1 row2,
    JsMap.get (rooms (server res)) "AAAAAA" = Some room'
    /\ phase room' = TossupReading
    /\ rows (matchLog room') = [row1; row2]
    /\ num row2 = 2
    /\ JsMap.get (rowTeams row2) "t1" = Some (mkRowEntry 0 0 0 14)
    /\ JsMap.get (rowTeams row2) "t2" = Some (mkRowEntry 0 0 0 0).
Proof.
  intros s0 res.
  edestruct (@start_tossup_reading_opens_row s0 "h" 9500 "AAAAAA")
    as (_ & room' & Hg & _ & Hp & _ & _ & _ & _ & _ & _ & _ & row' & Hm
        & Hn & _ & Hk).
  - exact (reachable_run _ reachable_init).
  - vm_compute; reflexivity.
  - reflexivity.
  - reflexivity.
  - exists room'. eexists. exists row'.
    split; [exact Hg|]. split; [exact Hp|].
    split; [rewrite Hm; vm_compute; reflexivity|].
    split; [exact Hn|].
    split; rewrite Hk; vm_compute; reflexivity.
Defined.

(** The row lists the ids that are array indices first: with the teams
    "Vx3k_a" and "482913" created in this order, the entries of a new row
    come as "482913", "Vx3k_a". *)
Example row_lists_index_ids_first :
  exists room row,
    JsMap.get (rooms (run initServer sessionDigitIds)) "AAAAAA" = Some room
    /\ JsMap.keys (teams room) = ["Vx3k_a"; "482913"]
    /\ currentRow room = Some row
    /\ JsMap.keys (rowTeams row) = ["482913"; "Vx3k_a"].
Proof.
  eexists. eexists. split; [vm_compute; reflexivity|].
  split; [reflexivity|]. split; reflexivity.
Qed.

(** ** Effects of the bonus handlers *)

(** X17: in a reachable state, when the host awards bonus points during a bonus
    phase, the point value of the payload is read as the nearest binary64
    number.  A value that is not finite, or that lies outside 0 to 20, is
    dropped without any change.  Otherwise the points are added to the score
    of the active bonus team, as JavaScript adds numbers (the exact sum for
    whole numbers up to 2^53), and no other team changes; when the ledger
    has a row, the team's entry in the current
    row gets the points added under [b] and the new running score, and
    nothing else in the ledger changes; when the ledger has no row it stays
    as it is; and the room returns to the lobby with no active bonus team,
    no lockouts, the buzz unlocked and the toss-up clock paused at its full
    time. *)
Theorem award_bonus_scores :
  forall s sock now codeArg room points,
    reachable s ->
    JsMap.get (rooms s) (normCode codeArg) = Some room ->
    hostSocketId room = sock ->
    startsWithBonus (phase room) = true ->
    let res := host_award_bonus s sock now codeArg points in
    (match points with
     | JFin q => ~ (0 <= toDouble q /\ toDouble q <= 20)%Q
     | _ => True
     end ->
     res = mkResult s [] (Rejected PointsOutOfRange))
    /\ (forall q,
          points = JFin q -> (0 <= toDouble q)%Q -> (toDouble q <= 20)%Q ->
          verdict res = Accepted
          /\ exists tid team room',
               activeBonusTeamId room = Some tid
               /\ JsMap.get (teams room) tid = Some team
               /\ JsMap.get (rooms (server res)) (normCode codeArg)
                  = Some room'
               /\ effects res = [broadcast room' now]
               /\ JsMap.get (teams room') tid
                  = Some (mkTeam (teamKey team) (teamName team)
                            (jsAdd (score team) (toDouble q)))
               /\ (forall n k,
                     score team = inject_Z n -> q = inject_Z k ->
                     0 <= n -> 0 <= k <= 20 -> n + k <= 2 ^ 53 ->
                     jsAdd (score team) (toDouble q) = inject_Z (n + k))
               /\ (forall k, k <> tid ->
                     JsMap.get (teams room') k = JsMap.get (teams room) k)
               /\ (forall l row,
                     rows (matchLog room) = (l ++ [row])%list ->
                     exists e row',
                       JsMap.get (rowTeams row) tid = Some e
                       /\ matchLog room'
                          = mkMatch (tossupNumber (matchLog room))
                              (l ++ [row'])
                       /\ currentRow room' = Some row'
                       /\ num row' = num row
                       /\ JsMap.keys (rowTeams row')
                          = JsMap.keys (rowTeams row)
                       /\ JsMap.get (rowTeams row') tid
                          = Some (mkRowEntry (rowP e) (rowTU e)
                                    (jsAdd (rowB e) (toDouble q))
                                    (jsAdd (score team) (toDouble q)))
                       /\ (forall k, k <> tid ->
                             JsMap.get (rowTeams row') k
                             = JsMap.get (rowTeams row) k))
               /\ (rows (matchLog room) = [] ->
                   matchLog room' = matchLog room)
               /\ phase room' = Lobby
               /\ activeBonusTeamId room' = None
               /\ tossupLockedTeams room' = []
               /\ buzz room' = Unlocked
               /\ timer room'
                  = mkTimer TossupMode false
                      (tossupSeconds (settings room) * 1000) 0).
Proof.
  intros s sock now codeArg room points Hreach Hget Hhost Hb res.
  pose proof (server_coherent_get _ (reachable_coherent Hreach) Hget) as Hc.
  destruct (server_ok_get _ (reachable_ok Hreach) Hget) as [_ Hk].
  pose proof (server_ledger_get _ (reachable_ledger Hreach) Hget) as Hled.
  assert (Hact : exists tid team,
             activeBonusTeamId room = Some tid
             /\ JsString.truthy tid = true
             /\ JsMap.get (teams room) tid = Some team).
  { pose proof (coh_bonus_team Hc) as Hbt.
    destruct (activeBonusTeamId room) as [tid|]; [|congruence].
    destruct Hbt as (_ & Htr & Hhas).
    apply has_true_keys, In_keys_get in Hhas as [team Hteam]. eauto. }
  destruct Hact as (tid & team & Hact & Htr & Hteam).
  subst res. unfold host_award_bonus, requireRoom, requireHost, commit.
  rewrite Hget, Hhost, String.eqb_refl, Hb, Hact, Htr, Hteam. simpl.
  split.
  - intros Hout.
    assert (E : pointsInRange points = None).
    { unfold pointsInRange. destruct points as [| | |q]; auto.
      destruct (Qle_bool 0 (toDouble q)) eqn:E0;
        destruct (Qle_bool (toDouble q) 20) eqn:E20; simpl; auto.
      exfalso. apply Hout. split; now apply Qle_bool_iff. }
    rewrite E. reflexivity.
  - intros q -> H0 H20.
    assert (E : pointsInRange (JFin q) = Some (toDouble q)).
    { unfold pointsInRange.
      apply Qle_bool_iff in H0. apply Qle_bool_iff in H20.
      now rewrite H0, H20. }
    rewrite E. simpl. split; [reflexivity|].
    destruct (@scored_effect room tid team (toDouble q) FieldB
                (ok_team_keys Hk) Hled Hteam) as (m & Hm & Hrows).
    rewrite Hm.
    exists tid, team. eexists. split; [reflexivity|]. split; [exact Hteam|].
    split; [apply get_set_eq|]. split; [reflexivity|].
    unfold backToLobby, resetTimerFull, setTimer, clearBuzz. simpl.
    split; [apply get_set_eq|].
    split.
    { intros n k Hn Hq Hn0 Hk0 Hsum. rewrite Hn, Hq.
      rewrite toDouble_Z by lia. apply jsAdd_Z; lia. }
    split; [intros k Hne; apply get_set_ne; congruence|].
    destruct Hrows as [Hrows Hnone].
    split.
    { intros l row El.
      destruct (Hrows l row El)
        as (e & row' & He & Hmm & Hnum & Hkeys & Htid & Hoth).
      exists e, row'. split; [exact He|]. split; [exact Hmm|].
      split; [|auto].
      unfold currentRow, ensureMatch. simpl. rewrite Hmm. simpl.
      apply last_map_Some_app. }
    split; [exact Hnone|].
    repeat split.
Qed.

Lemma award_bonus_scores_witness :
  let s0 := run initServer sessionBonus in
  (exists room' row',
      JsMap.get (rooms (server (host_award_bonus s0 "h" 9000 "AAAAAA" (JFin 10))))
        "AAAAAA" = Some room'
      /\ JsMap.get (teams room') "t1" = Some (mkTeam "t1" "Team A" 14)
      /\ currentRow room' = Some row'
      /\ JsMap.get (rowTeams row') "t1" = Some (mkRowEntry 0 4 10 14)
      /\ phase room' = Lobby)
  /\ host_award_bonus s0 "h" 9000 "AAAAAA" (JFin 21)
     = mkResult s0 [] (Rejected PointsOutOfRange).
Proof.
  intros s0. split.
  - edestruct (@award_bonus_scores s0 "h" 9000 "AAAAAA") as [_ Hin].
    + exact (reachable_run _ reachable_init).
    + vm_compute; reflexivity.
    + reflexivity.
    + reflexivity.
    + edestruct (Hin 10%Q eq_refl)
        as (_ & tid & team & room' & Ha & Ht & Hg & _ & Hs & _ & _ & Hrow
            & _ & Hp & _).
      * vm_compute. discriminate.
      * vm_compute. discriminate.
      * vm_compute in Ha. injection Ha as <-.
        vm_compute in Ht. injection Ht as <-.
        edestruct (Hrow []) as (e & row' & He & _ & Hcur & _ & _ & Htid & _);
          [vm_compute; reflexivity|].
        vm_compute in He. injection He as <-.
        exists room', row'. split; [exact Hg|]. split; [exact Hs|].
        split; [exact Hcur|]. split; [exact Htid|]. exact Hp.
  - edestruct (@award_bonus_scores s0 "h" 9000 "AAAAAA") as [Hout _].
    + exact (reachable_run _ reachable_init).
    + vm_compute; reflexivity.
    + reflexivity.
    + reflexivity.
    + apply Hout. intros [_ H]. vm_compute in H. congruence.
Defined.

(** The sum is the one JavaScript forms: a tenth of a point awarded to a
    team with 4 points gives the binary64 number nearest to 4.1, which is not
    41/10. *)
Example award_rounds_to_binary64 :
  exists room',
    JsMap.get
      (rooms (server (host_award_bonus (run initServer sessionBonus) "h" 9000
                        "AAAAAA" (JFin (1 # 10)))))
      "AAAAAA" = Some room'
    /\ JsMap.get (teams room') "t1"
       = Some (mkTeam "t1" "Team A" (2308094809027379 # 562949953421312)).
Proof. eexists. split; vm_compute; reflexivity. Qed.

(** ** Joining and naming *)

Lemma length_slice0 n s : (String.length (JsString.slice0 n s) <= n)%nat.
Proof.
  unfold JsString.slice0. revert s.
  induction n as [|n IH]; intros s; destruct s as [|c s]; simpl; try lia.
  specialize (IH s). lia.
Qed.

Lemma slice0_nonempty n s :
  s <> "" -> JsString.slice0 (S n) s <> "".
Proof. destruct s as [|c s]; simpl; [tauto|discriminate]. Qed.

Lemma orElse_nonempty s d : d <> "" -> JsString.orElse s d <> "".
Proof.
  intros Hd. unfold JsString.orElse.
  destruct (String.eqb s "") eqn:E; auto. now apply String.eqb_neq.
Qed.

(** X18: a [join_room] for a registered room is accepted when it asks to spectate
    or names a team of the room, and is rejected with "Choose a team before
    joining." otherwise.  An accepted join stores, under the sender's socket
    id, a player that is not a host, with the team asked for (none for a
    spectator) and a name that is not empty and has at most 24 characters;
    every other player and everything else in the room stay as they were. *)
Theorem join_room_registers_player :
  forall s sock now codeArg nameArg tid spectate room,
    JsMap.get (rooms s) (normCode codeArg) = Some room ->
    let res := join_room s sock now codeArg nameArg tid spectate in
    if spectate
       || match tid with
          | Some k => JsString.truthy k && JsMap.has (teams room) k
          | None => false
          end
    then
      verdict res = Accepted
      /\ exists pl room',
           JsMap.get (rooms (server res)) (normCode codeArg) = Some room'
           /\ effects res
              = [SocketJoin sock (normCode codeArg); broadcast room' now]
           /\ room' = withPlayers room (JsMap.set (players room) sock pl)
           /\ JsMap.get (players room') sock = Some pl
           /\ (forall other, other <> sock ->
                 JsMap.get (players room') other
                 = JsMap.get (players room) other)
           /\ socketId pl = sock
           /\ isHost pl = false
           /\ isSpectator pl = spectate
           /\ teamId pl = (if spectate then None else tid)
           /\ playerName pl <> ""
           /\ (String.length (playerName pl) <= 24)%nat
    else
      res
      = mkResult s
          [SocketJoin sock (normCode codeArg);
           EmitSocket sock (ErrorMsg "Choose a team before joining.")]
          (Rejected ChooseTeam).
Proof.
  intros s sock now codeArg nameArg tid spectate room Hget res.
  subst res. unfold join_room, requireRoom, commit, reject. rewrite Hget.
  assert (Hname :
            JsString.slice0 24
              (JsString.orElse
                 (JsString.trim (JsString.orElse nameArg "Player")) "Player")
            <> ""
            /\ (String.length
                  (JsString.slice0 24
                     (JsString.orElse
                        (JsString.trim (JsString.orElse nameArg "Player"))
                        "Player")) <= 24)%nat).
  { split; [|apply length_slice0].
    apply slice0_nonempty, orElse_nonempty. discriminate. }
  destruct Hname as [Hne Hlen].
  destruct spectate; simpl.
  - split; [reflexivity|]. eexists. eexists.
    split; [apply get_set_eq|]. split; [reflexivity|].
    split; [reflexivity|]. simpl.
    split; [apply get_set_eq|].
    split; [intros other Ho; apply get_set_ne; congruence|].
    repeat split; auto.
  - destruct tid as [k|]; simpl; [|reflexivity].
    destruct (JsString.truthy k && JsMap.has (teams room) k); simpl;
      [|reflexivity].
    split; [reflexivity|]. eexists. eexists.
    split; [apply get_set_eq|]. split; [reflexivity|].
    split; [reflexivity|]. simpl.
    split; [apply get_set_eq|].
    split; [intros other Ho; apply get_set_ne; congruence|].
    repeat split; auto.
Qed.

Lemma join_room_registers_player_witness :
  let s0 := run initServer sessionJoined in
  (exists room',
      JsMap.get
        (rooms (server (join_room s0 "z" 1500 " aaaaaa "
                          "   A name that is far too long to keep   "
                          (Some "t2") false)))
        "AAAAAA" = Some room'
      /\ JsMap.get (players room') "z"
         = Some (mkPlayer "z" "A name that is far too l" (Some "t2") false false))
  /\ join_room s0 "z" 1500 "AAAAAA" "Zed" (Some "t9") false
     = mkResult s0
         [SocketJoin "z" "AAAAAA";
          EmitSocket "z" (ErrorMsg "Choose a team before joining.")]
         (Rejected ChooseTeam).
Proof.
  intros s0. split.
  - eexists. split; vm_compute; reflexivity.
  - pose proof (@join_room_registers_player s0 "z" 1500 "AAAAAA" "Zed"
                  (Some "t9") false) as H.
    edestruct (JsMap.get (rooms s0) (normCode "AAAAAA")) as [room|] eqn:G;
      [|vm_compute in G; discriminate].
    specialize (H room eq_refl).
    vm_compute in G. injection G as <-.
    exact H.
Defined.

(** X19: a host renaming its room or one of its teams: the new name is the
    argument trimmed and cut to 40 (room) or 24 (team) characters; a name that
    is empty after trimming, or a team that is not in the room, leaves the
    server untouched and produces no effect.  An accepted team rename keeps
    the team's key and score, the order of the teams and every other team. *)
Theorem rename_keeps_scores :
  forall s sock now codeArg room,
    JsMap.get (rooms s) (normCode codeArg) = Some room ->
    hostSocketId room = sock ->
    (forall arg,
        let rn := JsString.slice0 40 (JsString.trim arg) in
        let res := host_set_room_name s sock now codeArg arg in
        (String.length rn <= 40)%nat
        /\ (rn = "" -> res = mkResult s [] (Rejected EmptyName))
        /\ (rn <> "" ->
            res
            = mkResult
                (withRooms s
                   (JsMap.set (rooms s) (normCode codeArg)
                      (withRoomName room rn)))
                [broadcast (withRoomName room rn) now] Accepted))
    /\ (forall tid arg,
           let nm := JsString.slice0 24 (JsString.trim arg) in
           let res := host_set_team_name s sock now codeArg tid arg in
           (String.length nm <= 24)%nat
           /\ ((forall k, tid = Some k -> JsMap.get (teams room) k = None) ->
               res = mkResult s [] (Rejected UnknownTeam))
           /\ (forall k t,
                  tid = Some k -> JsMap.get (teams room) k = Some t ->
                  (nm = "" -> res = mkResult s [] (Rejected EmptyName))
                  /\ (nm <> "" ->
                      verdict res = Accepted
                      /\ exists room',
                          JsMap.get (rooms (server res)) (normCode codeArg)
                          = Some room'
                          /\ effects res = [broadcast room' now]
                          /\ room'
                             = withTeams room
                                 (JsMap.set (teams room) k
                                    (mkTeam (teamKey t) nm (score t)))
                          /\ JsMap.keys (teams room')
                             = JsMap.keys (teams room)
                          /\ JsMap.get (teams room') k
                             = Some (mkTeam (teamKey t) nm (score t))
                          /\ (forall k', k' <> k ->
                                JsMap.get (teams room') k'
                                = JsMap.get (teams room) k')))).
Proof.
  intros s sock now codeArg room Hget Hhost. split.
  - intros arg rn res. subst res.
    split; [apply length_slice0|].
    unfold host_set_room_name, requireRoom, requireHost, commit, reject.
    rewrite Hget, Hhost, String.eqb_refl. fold rn.
    unfold JsString.truthy.
    split; intros Hrn.
    + rewrite Hrn. reflexivity.
    + apply String.eqb_neq in Hrn. rewrite Hrn. reflexivity.
  - intros tid arg nm res. subst res.
    split; [apply length_slice0|].
    unfold host_set_team_name, requireRoom, requireHost, commit, reject.
    rewrite Hget, Hhost, String.eqb_refl. fold nm.
    unfold JsString.truthy.
    split.
    + intros Hno. destruct tid as [k|]; [|reflexivity].
      rewrite (Hno k eq_refl). reflexivity.
    + intros k t -> Ht. rewrite Ht.
      split; intros Hnm.
      * rewrite Hnm. reflexivity.
      * apply String.eqb_neq in Hnm. rewrite Hnm. simpl.
        split; [reflexivity|]. eexists.
        split; [apply get_set_eq|].
        split; [reflexivity|]. split; [reflexivity|]. simpl.
        split; [|split].
        -- rewrite keys_set. unfold JsMap.has. rewrite Ht. reflexivity.
        -- apply get_set_eq.
        -- intros k' Hk'. apply get_set_ne. congruence.
Qed.

Lemma rename_keeps_scores_witness :
  let s0 := run initServer sessionAwarded in
  host_set_room_name s0 "h" 9500 "aaaaaa" "   "
  = mkResult s0 [] (Rejected EmptyName)
  /\ exists room',
       JsMap.get
         (rooms (server (host_set_team_name s0 "h" 9500 "aaaaaa" (Some "t1")
                           "  Quarks  ")))
         "AAAAAA" = Some room'
       /\ JsMap.get (teams room') "t1" = Some (mkTeam "t1" "Quarks" (14 # 1)).
Proof.
  intros s0.
  destruct (JsMap.get (rooms s0) (normCode "aaaaaa")) as [room|] eqn:G;
    [|vm_compute in G; discriminate].
  destruct (@rename_keeps_scores s0 "h" 9500 "aaaaaa" room G) as [Hroom Hteam].
  { vm_compute in G. injection G as <-. reflexivity. }
  split.
  - destruct (Hroom "   ") as (_ & Hrej & _). apply Hrej. reflexivity.
  - destruct (JsMap.get (teams room) "t1") as [t|] eqn:Gt;
      [|vm_compute in G; injection G as <-; vm_compute in Gt; discriminate].
    destruct (Hteam (Some "t1") "  Quarks  ") as (_ & _ & Hok).
    destruct (Hok "t1" t eq_refl Gt) as (_ & Hacc).
    destruct Hacc as (_ & room' & Hg & _ & _ & _ & Hnew & _).
    { vm_compute. discriminate. }
    exists room'. split; [exact Hg|].
    rewrite Hnew. vm_compute in G. injection G as <-.
    vm_compute in Gt. injection Gt as <-. reflexivity.
Defined.

(** ** Pending end callbacks *)

Lemma NoDup_map_filter (A B : Type) (f : A -> B) (p : A -> bool) l :
  NoDup (map f l) -> NoDup (map f (filter p l)).
Proof.
  induction l as [|a l IH]; simpl; intros H; auto.
  inversion H as [|? ? Hnot Hnd]; subst.
  destruct (p a); simpl; auto.
  constructor; auto.
  intros Hin. apply Hnot.
  apply in_map_iff in Hin as (x & Hx & Hin).
  apply filter_In in Hin as [Hin _].
  rewrite <- Hx. now apply in_map.
Qed.

Lemma owned_build s' rs c room' :
  rooms s' = JsMap.set rs c room' ->
  NoDup (map handle (pending s')) ->
  Forall (fun pt => (handle pt < nextHandle s')%nat) (pending s') ->
  Forall (fun pt =>
            (capturedCode pt <> c /\ callback_owned rs pt)
            \/ (capturedCode pt = c
                /\ tossupEndTimeout room' = Some (handle pt)))
         (pending s') ->
  timeouts_owned s'.
Proof.
  intros Hrooms Hnd Hlt Hown. repeat split; auto.
  eapply Forall_impl; [|exact Hown].
  intros pt [[Hne (r & Hget & Hh)]|[He Hh]]; unfold callback_owned;
    rewrite Hrooms.
  - exists r. split; auto. rewrite get_set_ne; auto.
  - exists room'. split; auto. rewrite He. apply get_set_eq.
Qed.

Lemma owned_cleared s rx s1 r1 c room :
  timeouts_owned s ->
  JsMap.get (rooms s) c = Some room ->
  tossupEndTimeout rx = tossupEndTimeout room ->
  clearTossupEndTimeout s rx = (s1, r1) ->
  rooms s1 = rooms s
  /\ nextHandle s1 = nextHandle s
  /\ NoDup (map handle (pending s1))
  /\ Forall (fun pt => (handle pt < nextHandle s)%nat) (pending s1)
  /\ Forall (fun pt => capturedCode pt <> c /\ callback_owned (rooms s) pt)
       (pending s1).
Proof.
  intros (Hnd & Hlt & Hown) Hget Hrx. unfold clearTossupEndTimeout.
  rewrite Hrx. rewrite Forall_forall in Hlt, Hown.
  destruct (tossupEndTimeout room) as [h|] eqn:Eh; intros [= <- <-]; simpl.
  - repeat split; auto.
    + now apply NoDup_map_filter.
    + apply Forall_forall. intros pt Hin.
      apply filter_In in Hin as [Hin _]. auto.
    + apply Forall_forall. intros pt Hin.
      apply filter_In in Hin as [Hin Hh].
      split; auto. intros Hc.
      destruct (Hown pt Hin) as (r & Hr & Hhr).
      rewrite Hc, Hget in Hr. injection Hr as <-.
      rewrite Eh in Hhr. injection Hhr as ->.
      rewrite Nat.eqb_refl in Hh. discriminate.
  - repeat split; auto.
    + now apply Forall_forall.
    + apply Forall_forall. intros pt Hin.
      split; auto. intros Hc.
      destruct (Hown pt Hin) as (r & Hr & Hhr).
      rewrite Hc, Hget in Hr. injection Hr as <-.
      rewrite Eh in Hhr. discriminate.
Qed.

Lemma owned_same s c room room' :
  timeouts_owned s ->
  JsMap.get (rooms s) c = Some room ->
  tossupEndTimeout room' = tossupEndTimeout room ->
  timeouts_owned (withRooms s (JsMap.set (rooms s) c room')).
Proof.
  intros (Hnd & Hlt & Hown) Hget Hsame.
  apply owned_build with (rs := rooms s) (c := c) (room' := room'); auto.
  eapply Forall_impl; [|exact Hown].
  intros pt (r & Hr & Hh). simpl.
  destruct (string_dec (capturedCode pt) c) as [Hc|Hc].
  - right. split; auto. rewrite Hc, Hget in Hr. injection Hr as <-.
    congruence.
  - left. split; auto. exists r. auto.
Qed.

Lemma owned_clear s rx s1 r1 c room room' :
  timeouts_owned s ->
  JsMap.get (rooms s) c = Some room ->
  tossupEndTimeout rx = tossupEndTimeout room ->
  clearTossupEndTimeout s rx = (s1, r1) ->
  timeouts_owned (withRooms s1 (JsMap.set (rooms s1) c room')).
Proof.
  intros Hown Hget Hrx E.
  destruct (@owned_cleared _ _ _ _ _ _ Hown Hget Hrx E) as (Hrooms & Hnext & Hnd & Hlt & Hall).
  apply owned_build with (rs := rooms s) (c := c) (room' := room'); simpl.
  - now rewrite Hrooms.
  - exact Hnd.
  - now rewrite Hnext.
  - eapply Forall_impl; [|exact Hall]. intros pt H. now left.
Qed.

Lemma owned_sched s rx now s2 r2 c room room' :
  timeouts_owned s ->
  JsMap.get (rooms s) c = Some room ->
  tossupEndTimeout rx = tossupEndTimeout room ->
  code rx = c ->
  scheduleTossupEnd s rx now = (s2, r2) ->
  tossupEndTimeout room' = Some (nextHandle s) ->
  timeouts_owned (withRooms s2 (JsMap.set (rooms s2) c room')).
Proof.
  intros Hown Hget Hrx Hcode E Hnew. unfold scheduleTossupEnd in E.
  destruct (clearTossupEndTimeout_shape s rx) as (_ & _ & Hsnd).
  destruct (clearTossupEndTimeout s rx) as [s1 r1] eqn:E1.
  simpl in Hsnd. subst r1.
  destruct (@owned_cleared _ _ _ _ _ _ Hown Hget Hrx E1) as (Hrooms & Hnext & Hnd & Hlt & Hall).
  simpl in E. injection E as <- <-.
  apply owned_build with (rs := rooms s) (c := c) (room' := room'); simpl.
  - now rewrite Hrooms.
  - constructor; auto. intros Hin.
    apply in_map_iff in Hin as (pt & Hh & Hin).
    rewrite Forall_forall in Hlt. specialize (Hlt pt Hin). lia.
  - constructor; simpl; [lia|].
    eapply Forall_impl; [|exact Hlt]. simpl. intros pt H. lia.
  - constructor; simpl.
    + right. split; [|congruence].
      destruct rx; exact Hcode.
    + eapply Forall_impl; [|exact Hall]. intros pt H. now left.
Qed.

Lemma owned_clearTimeout s h :
  timeouts_owned s -> timeouts_owned (clearTimeout s h).
Proof.
  intros (Hnd & Hlt & Hown). unfold timeouts_owned, clearTimeout. simpl.
  rewrite Forall_forall in Hlt, Hown.
  repeat split.
  - now apply NoDup_map_filter.
  - apply Forall_forall. intros pt Hin.
    apply filter_In in Hin as [Hin _]. auto.
  - apply Forall_forall. intros pt Hin.
    apply filter_In in Hin as [Hin _]. auto.
Qed.

Lemma handle_through_ledger r :
  (forall tid f q,
      tossupEndTimeout (addRowDelta r tid f q) = tossupEndTimeout r
      /\ code (addRowDelta r tid f q) = code r)
  /\ tossupEndTimeout (refreshRowScores r) = tossupEndTimeout r
  /\ code (refreshRowScores r) = code r
  /\ tossupEndTimeout (startNewTossupRow r) = tossupEndTimeout r
  /\ code (startNewTossupRow r) = code r.
Proof.
  split; [intros tid f q; destruct (addRowDelta_frame r tid f q) as [m ->]|];
    [now destruct r|].
  destruct (refreshRowScores_frame r) as [m ->].
  destruct (startNewTossupRow_frame r) as [m' ->].
  now destruct r.
Qed.

Ltac through_ledger :=
  unfold backToLobby, resetTimerFull, setTimer, clearBuzz; simpl;
  repeat match goal with
  | |- context [tossupEndTimeout (refreshRowScores ?r)] =>
      rewrite (proj1 (proj2 (handle_through_ledger r)))
  | |- context [tossupEndTimeout (addRowDelta ?r ?t ?f ?q)] =>
      rewrite (proj1 (proj1 (handle_through_ledger r) t f q))
  | |- context [tossupEndTimeout (startNewTossupRow ?r)] =>
      rewrite (proj1 (proj2 (proj2 (proj2 (handle_through_ledger r)))))
  | |- context [code (refreshRowScores ?r)] =>
      rewrite (proj1 (proj2 (proj2 (handle_through_ledger r))))
  | |- context [code (addRowDelta ?r ?t ?f ?q)] =>
      rewrite (proj2 (proj1 (handle_through_ledger r) t f q))
  | |- context [code (startNewTossupRow ?r)] =>
      rewrite (proj2 (proj2 (proj2 (proj2 (handle_through_ledger r)))))
  end;
  solve [reflexivity | simpl; assumption].

Ltac owned_leaf :=
  solve
    [ assumption
    | eapply owned_same; [eassumption | eassumption | through_ledger]
    | eapply owned_clear; [eassumption | eassumption | | eassumption];
      through_ledger
    | eapply owned_sched;
      [eassumption | eassumption | | | eassumption | through_ledger];
      through_ledger ].

Lemma disconnectRoom_owned sock now acc k room :
  timeouts_owned (fst acc) ->
  JsMap.get (rooms (fst acc)) k = Some room ->
  code room = k ->
  timeouts_owned (fst (disconnectRoom sock now acc (k, room))).
Proof.
  destruct acc as [s effs]. simpl. intros Hown Hget Hcode.
  unfold disconnectRoom. simpl.
  destruct (negb (JsMap.has (players room) sock)); simpl; auto.
  destruct (String.eqb (hostSocketId room) sock).
  - destruct (clearTossupEndTimeout_shape s
                (withPlayers room (JsMap.delete (players room) sock)))
      as (_ & _ & Hsnd).
    destruct (clearTossupEndTimeout s _) as [s1 r2] eqn:E.
    simpl in Hsnd. subst r2. simpl.
    assert (Hrx : tossupEndTimeout
                    (withPlayers room (JsMap.delete (players room) sock))
                  = tossupEndTimeout room) by reflexivity.
    destruct (@owned_cleared _ _ _ _ _ _ Hown Hget Hrx E)
      as (Hrooms & Hnext & Hnd & Hlt & Hall).
    unfold timeouts_owned. simpl. rewrite Hnext, Hrooms, Hcode.
    repeat split; auto.
    eapply Forall_impl; [|exact Hall].
    intros pt (Hne & r & Hr & Hh). exists r. split; auto.
    rewrite get_delete_ne; auto.
  - simpl. eapply owned_same; eauto.
Qed.

Lemma disconnect_fold_owned sock now l :
  forall acc,
    NoDup (JsMap.keys l) ->
    NoDup (JsMap.keys (rooms (fst acc))) ->
    (forall k r, In (k, r) l ->
                 JsMap.get (rooms (fst acc)) k = Some r /\ code r = k) ->
    timeouts_owned (fst acc) ->
    timeouts_owned (fst (fold_left (disconnectRoom sock now) l acc)).
Proof.
  induction l as [|[k room] l IH]; intros acc Hndl Hnd Hbound Hown; simpl;
    auto.
  inversion Hndl as [|? ? Hnot Hndl']; subst.
  destruct (Hbound k room (or_introl eq_refl)) as [Hget Hcode].
  apply IH; auto.
  - now apply disconnectRoom_keys_NoDup.
  - intros k' r' Hin.
    destruct (Hbound k' r' (or_intror Hin)) as [Hget' Hcode'].
    split; auto.
    rewrite (@disconnectRoom_get sock now acc k room k' Hnd Hget Hcode).
    destruct (String.eqb k k') eqn:E; auto.
    apply String.eqb_eq in E. exfalso. apply Hnot. rewrite E.
    exact (in_map fst _ _ Hin).
  - now apply disconnectRoom_owned.
Qed.

Lemma handle_message_owned s sock now m :
  server_ok s -> timeouts_owned s ->
  collides s (FromSocket sock m) = false ->
  timeouts_owned (server (handle_message s sock now m)).
Proof.
  intros Hok Hown Hfree. destruct m; unfold handle_message.
  - (* create_room *)
    simpl in Hfree. unfold create_room. simpl.
    destruct Hown as (Hnd & Hlt & Hall).
    eapply owned_build with (rs := rooms s); simpl; [reflexivity|auto|auto|].
    eapply Forall_impl; [|exact Hall].
    intros pt (r & Hr & Hh). left. split; [|exists r; auto].
    intros Hc. unfold JsMap.has in Hfree. rewrite <- Hc, Hr in Hfree.
    discriminate.
  - unfold host_set_room_name. open_handler; try owned_leaf.
    destruct (negb _); simpl; owned_leaf.
  - unfold host_set_team_name. open_handler; try owned_leaf.
    destruct tid as [k|]; simpl; try owned_leaf.
    destruct (JsMap.get (teams room) k) as [t|] eqn:Ht; simpl;
      try owned_leaf.
    destruct (negb _); simpl; owned_leaf.
  - unfold join_room. open_handler; try owned_leaf.
    destruct spectate; simpl; try owned_leaf.
    destruct tid as [k|]; simpl; try owned_leaf.
    destruct (JsString.truthy k && JsMap.has (teams room) k); simpl;
      owned_leaf.
  - unfold set_team. owned_leaf.
  - (* host_start_tossup_reading *)
    unfold host_start_tossup_reading. open_handler; try owned_leaf.
    destruct (startsWithBonus (phase room)); simpl; try owned_leaf.
    use_shapes. owned_leaf.
  - unfold host_done_reading_tossup. open_handler; try owned_leaf.
    destruct (startsWithBonus (phase room)); simpl; try owned_leaf.
    destruct (server_ok_get _ Hok Hget) as [Hc Hr].
    use_shapes. owned_leaf.
  - unfold buzz_handler. open_handler; try owned_leaf.
    destruct (JsMap.get (players room) sock) as [pl|]; simpl;
      try owned_leaf.
    destruct (isHost pl || isSpectator pl); simpl; try owned_leaf.
    destruct (negb (phase_eqb (phase room) TossupReading)
              && negb (phase_eqb (phase room) TossupLive)); simpl;
      try owned_leaf.
    destruct (teamId pl) as [tid|]; simpl; try owned_leaf.
    destruct (JsString.truthy tid); simpl; try owned_leaf.
    destruct (JsSet.has (tossupLockedTeams room) tid); simpl;
      try owned_leaf.
    destruct (locked (buzz room)); simpl; try owned_leaf.
    destruct (phase_eqb (phase room) TossupLive).
    + use_shapes. unfold stopTimer in *.
      destruct (negb (running (timer room))); owned_leaf.
    + owned_leaf.
  - unfold host_clear_buzz. open_handler; try owned_leaf.
    destruct (server_ok_get _ Hok Hget) as [Hc Hr].
    unfold clearBuzz. simpl.
    destruct (phase_eqb (phase room) TossupLive && running (timer room)).
    + use_shapes. owned_leaf.
    + owned_leaf.
  - unfold host_set_interrupt_choice. open_handler; try owned_leaf.
    destruct (buzz room); simpl; owned_leaf.
  - (* host_mark_answer *)
    unfold host_mark_answer. open_handler; try owned_leaf.
    destruct (server_ok_get _ Hok Hget) as [Hc Hr].
    destruct (buzz room) as [|ws wn wt a ic]; simpl; try owned_leaf.
    destruct (if JsString.truthy wt then _ else _) as [team|] eqn:Hteam;
      simpl; try owned_leaf.
    destruct ic as [interrupt|]; simpl; try owned_leaf.
    destruct correct.
    + use_shapes. owned_leaf.
    + destruct interrupt.
      * unfold clearBuzz.
        destruct (otherTeamId _ wt) as [otherId|]; simpl.
        -- destruct (JsMap.get (teams room) otherId) as [other|] eqn:Hother;
             simpl; use_shapes; owned_leaf.
        -- use_shapes. owned_leaf.
      * use_shapes. owned_leaf.
  - unfold host_done_reading_bonus. open_handler; try owned_leaf.
    destruct (negb (phase_eqb (phase room) BonusReading)
              && negb (phase_eqb (phase room) BonusLive)); simpl;
      owned_leaf.
  - (* host_award_bonus *)
    unfold host_award_bonus. open_handler; try owned_leaf.
    destruct (negb (startsWithBonus (phase room))); simpl; try owned_leaf.
    destruct (activeBonusTeamId room) as [tid|]; simpl; try owned_leaf.
    destruct (if JsString.truthy tid then _ else _) as [team|] eqn:Hteam;
      simpl; try owned_leaf.
    destruct (pointsInRange points) as [q|] eqn:Hq; simpl; owned_leaf.
  - unfold host_skip_bonus. open_handler; try owned_leaf.
    destruct (negb (startsWithBonus (phase room))); simpl; owned_leaf.
  - (* disconnect *)
    unfold disconnect. destruct Hok as [Hnd Hall].
    pose proof (@disconnect_fold_owned sock now (rooms s) (s, []) Hnd Hnd)
      as H.
    destruct (fold_left _ _ _) as [s' effs]. simpl in *. apply H; auto.
    intros k r Hin. split; [now apply In_get|].
    rewrite Forall_forall in Hall. exact (proj1 (Hall _ Hin)).
Qed.

Lemma fireTimeout_owned s now h :
  timeouts_owned s -> timeouts_owned (fst (fireTimeout s now h)).
Proof.
  intros Hown. unfold fireTimeout.
  destruct (find _ (pending s)) as [pt|]; simpl; auto.
  pose proof (owned_clearTimeout h Hown) as Hown'.
  unfold tossupEndCallback.
  destruct (JsMap.get (rooms (clearTimeout s h)) (capturedCode pt))
    as [room|] eqn:Hget; simpl; auto.
  destruct (phase_eqb (phase room) TossupLive && _ && _); simpl; auto.
  apply owned_same with (s := clearTimeout s h) (room := room); auto.
Qed.

Lemma run_owned evs :
  forall s,
    server_ok s -> timeouts_owned s -> collision_free s evs = true ->
    timeouts_owned (run s evs).
Proof.
  induction evs as [|[now e] evs IH]; simpl; auto.
  intros s Hok Hown Hfree.
  apply andb_true_iff in Hfree as [Hc Hfree].
  apply negb_true_iff in Hc.
  apply IH; auto using step_ok.
  destruct e as [sock m|h]; simpl.
  - now apply handle_message_owned.
  - now apply fireTimeout_owned.
Qed.

(** X20: in a run without a room-code collision, every pending end callback is
    the one its room remembers: the room registered under the code the
    callback captured holds the callback's handle in [tossupEndTimeout].
    Hence no room has two pending callbacks, a room whose
    [tossupEndTimeout] is null has none, and no callback is pending for a
    code without a room. *)
Theorem one_pending_callback_per_room :
  forall evs,
    collision_free initServer evs = true ->
    let s := run initServer evs in
    (forall pt,
        In pt (pending s) ->
        exists room,
          JsMap.get (rooms s) (capturedCode pt) = Some room
          /\ tossupEndTimeout room = Some (handle pt))
    /\ (forall pt1 pt2,
          In pt1 (pending s) -> In pt2 (pending s) ->
          capturedCode pt1 = capturedCode pt2 -> pt1 = pt2)
    /\ (forall pt,
          In pt (pending s) ->
          (handle pt < nextHandle s)%nat).
Proof.
  intros evs Hfree s.
  assert (Hown : timeouts_owned s).
  { apply run_owned; auto.
    - apply reachable_ok. constructor.
    - repeat split; simpl; constructor. }
  destruct Hown as (Hnd & Hlt & Hown).
  rewrite Forall_forall in Hlt, Hown.
  split; [exact Hown|]. split; [|exact Hlt].
  intros pt1 pt2 H1 H2 Hc.
  destruct (Hown pt1 H1) as (r1 & Hr1 & Hh1).
  destruct (Hown pt2 H2) as (r2 & Hr2 & Hh2).
  rewrite Hc, Hr2 in Hr1. injection Hr1 as <-.
  assert (Hh : handle pt1 = handle pt2) by congruence.
  clear - Hnd H1 H2 Hh.
  induction (pending s) as [|pt l IH]; [contradiction|].
  simpl in Hnd. inversion Hnd as [|? ? Hnot Hnd']; subst.
  destruct H1 as [<-|H1], H2 as [<-|H2]; auto.
  - exfalso. apply Hnot. rewrite Hh. now apply in_map.
  - exfalso. apply Hnot. rewrite <- Hh. now apply in_map.
Qed.

Lemma one_pending_callback_per_room_witness :
  exists pt,
    pending (run initServer sessionLive) = [pt]
    /\ capturedCode pt = "AAAAAA"
    /\ exists room,
         JsMap.get (rooms (run initServer sessionLive)) "AAAAAA" = Some room
         /\ tossupEndTimeout room = Some (handle pt).
Proof.
  destruct (pending (run initServer sessionLive)) as [|pt l] eqn:E;
    [vm_compute in E; discriminate|].
  assert (l = []) as -> by (vm_compute in E; now injection E).
  exists pt. split; [reflexivity|].
  split; [vm_compute in E; now injection E as <-|].
  destruct (@one_pending_callback_per_room sessionLive) as (Hown & _).
  { vm_compute. reflexivity. }
  destruct (Hown pt) as (room & Hr & Hh).
  { rewrite E. now left. }
  exists room. split; [|exact Hh].
  replace "AAAAAA" with (capturedCode pt); [exact Hr|].
  vm_compute in E. now injection E as <-.
Defined.

(** The collision hypothesis is needed: when a second room is created under
    the code of a room with a live toss-up, two callbacks are pending for
    that code. *)
Example collision_leaves_two_callbacks :
  map capturedCode (pending (run initServer sessionCollision))
  = ["AAAAAA"; "AAAAAA"].
Proof. vm_compute. reflexivity. Qed.

(** ** Accepted commands *)

Ltac bc_leaf :=
  solve
    [ intros Hv; discriminate Hv
    | intros _; eexists;
      split; [apply get_set_eq | first [left; reflexivity | right; reflexivity]] ].

Lemma accepted_stores_and_broadcasts s sock now m c :
  messageCode m = Some c ->
  verdict (handle_message s sock now m) = Accepted ->
  exists room',
    JsMap.get (rooms (server (handle_message s sock now m))) (normCode c)
    = Some room'
    /\ (effects (handle_message s sock now m) = [broadcast room' now]
        \/ effects (handle_message s sock now m)
           = [SocketJoin sock (normCode c); broadcast room' now]).
Proof.
  intros Hm. destruct m; simpl in Hm; try discriminate;
    injection Hm as ->; unfold handle_message.
  - unfold host_set_room_name. open_handler; try bc_leaf.
    destruct (negb _); simpl; bc_leaf.
  - unfold host_set_team_name. open_handler; try bc_leaf.
    destruct tid as [k|]; simpl; try bc_leaf.
    destruct (JsMap.get (teams room) k) as [t|] eqn:Ht; simpl; try bc_leaf.
    destruct (negb _); simpl; bc_leaf.
  - unfold join_room. open_handler; try bc_leaf.
    destruct spectate; simpl; try bc_leaf.
    destruct tid as [k|]; simpl; try bc_leaf.
    destruct (JsString.truthy k && JsMap.has (teams room) k); simpl; bc_leaf.
  - unfold host_start_tossup_reading. open_handler; try bc_leaf.
    destruct (startsWithBonus (phase room)); simpl; try bc_leaf.
    use_shapes. bc_leaf.
  - unfold host_done_reading_tossup. open_handler; try bc_leaf.
    destruct (startsWithBonus (phase room)); simpl; try bc_leaf.
    use_shapes. bc_leaf.
  - unfold buzz_handler. open_handler; try bc_leaf.
    destruct (JsMap.get (players room) sock) as [pl|]; simpl; try bc_leaf.
    destruct (isHost pl || isSpectator pl); simpl; try bc_leaf.
    destruct (negb (phase_eqb (phase room) TossupReading)
              && negb (phase_eqb (phase room) TossupLive)); simpl;
      try bc_leaf.
    destruct (teamId pl) as [tid|]; simpl; try bc_leaf.
    destruct (JsString.truthy tid); simpl; try bc_leaf.
    destruct (JsSet.has (tossupLockedTeams room) tid); simpl; try bc_leaf.
    destruct (locked (buzz room)); simpl; try bc_leaf.
    destruct (phase_eqb (phase room) TossupLive).
    + use_shapes. bc_leaf.
    + bc_leaf.
  - unfold host_clear_buzz. open_handler; try bc_leaf.
    destruct (phase_eqb (phase room) TossupLive && running (timer room)).
    + use_shapes. bc_leaf.
    + bc_leaf.
  - unfold host_set_interrupt_choice. open_handler; try bc_leaf.
    destruct (buzz room); simpl; bc_leaf.
  - unfold host_mark_answer. open_handler; try bc_leaf.
    destruct (buzz room) as [|ws wn wt a ic]; simpl; try bc_leaf.
    destruct (if JsString.truthy wt then _ else _) as [team|] eqn:Hteam;
      simpl; try bc_leaf.
    destruct ic as [interrupt|]; simpl; try bc_leaf.
    destruct correct.
    + use_shapes. bc_leaf.
    + destruct interrupt.
      * destruct (otherTeamId _ wt) as [otherId|]; simpl.
        -- destruct (JsMap.get (teams room) otherId) as [other|] eqn:Hother;
             simpl; use_shapes; bc_leaf.
        -- use_shapes. bc_leaf.
      * use_shapes. bc_leaf.
  - unfold host_done_reading_bonus. open_handler; try bc_leaf.
    destruct (negb (phase_eqb (phase room) BonusReading)
              && negb (phase_eqb (phase room) BonusLive)); simpl; bc_leaf.
  - unfold host_award_bonus. open_handler; try bc_leaf.
    destruct (negb (startsWithBonus (phase room))); simpl; try bc_leaf.
    destruct (activeBonusTeamId room) as [tid|]; simpl; try bc_leaf.
    destruct (if JsString.truthy tid then _ else _) as [team|] eqn:Hteam;
      simpl; try bc_leaf.
    destruct (pointsInRange points) as [q|] eqn:Hq; simpl; bc_leaf.
  - unfold host_skip_bonus. open_handler; try bc_leaf.
    destruct (negb (startsWithBonus (phase room))); simpl; bc_leaf.
Qed.

(** X21: every accepted command that names a room ends with one broadcast, on the
    room's own channel, of the public state of the room exactly as the
    command left it in the registry; the only other effect is the
    subscription of the socket by [join_room]. *)
Theorem accepted_command_broadcasts_stored_room :
  forall s sock now m c,
    reachable s ->
    messageCode m = Some c ->
    verdict (handle_message s sock now m) = Accepted ->
    exists room',
      JsMap.get (rooms (server (handle_message s sock now m))) (normCode c)
      = Some room'
      /\ code room' = normCode c
      /\ (effects (handle_message s sock now m)
          = [EmitRoom (normCode c) (StateMsg (publicState room' now))]
          \/ effects (handle_message s sock now m)
             = [SocketJoin sock (normCode c);
                EmitRoom (normCode c) (StateMsg (publicState room' now))]).
Proof.
  intros s sock now m c Hs Hm Hv.
  destruct (accepted_stores_and_broadcasts s sock now m Hm Hv)
    as (room' & Hget & Heff).
  pose proof (handle_message_ok sock now m (reachable_ok Hs)) as Hok.
  destruct (server_ok_get _ Hok Hget) as [Hc _].
  exists room'. split; auto. split; auto.
  unfold broadcast in Heff. rewrite Hc in Heff. exact Heff.
Qed.

Lemma accepted_command_broadcasts_stored_room_witness :
  exists room',
    JsMap.get
      (rooms (server (handle_message (run initServer sessionLive) "a" 3300
                        (BuzzMsg "aaaaaa"))))
      "AAAAAA" = Some room'
    /\ effects (handle_message (run initServer sessionLive) "a" 3300
                  (BuzzMsg "aaaaaa"))
       = [EmitRoom "AAAAAA" (StateMsg (publicState room' 3300))].
Proof.
  destruct (@accepted_command_broadcasts_stored_room
              (run initServer sessionLive) "a" 3300 (BuzzMsg "aaaaaa")
              "aaaaaa")
    as (room' & Hget & _ & [Heff|Heff]).
  - exact (reachable_run _ reachable_init).
  - reflexivity.
  - vm_compute. reflexivity.
  - exists room'. split; [exact Hget|exact Heff].
  - exfalso. vm_compute in Heff. discriminate.
Defined.

(** ** The phase machine *)

Lemma phase_next_refl p : phase_next p p = true.
Proof. now destruct p. Qed.

Lemma phase_step_refl room : phase_step room room.
Proof. intros HP. split; auto using phase_next_refl. Qed.

Lemma moves_at_same s s' c : rooms s' = rooms s -> moves_at s s' c.
Proof.
  intros Hr. unfold moves_at. rewrite Hr.
  destruct (JsMap.get (rooms s) c) as [room|]; auto.
  exists room. split; auto using phase_step_refl.
Qed.

Lemma moves_at_set s s1 c c' room r' :
  rooms s1 = rooms s ->
  JsMap.get (rooms s) c' = Some room ->
  phase_step room r' ->
  moves_at s (withRooms s1 (JsMap.set (rooms s1) c' r')) c.
Proof.
  intros Hr Hget Hstep. unfold moves_at. simpl. rewrite Hr.
  destruct (string_dec c' c) as [->|Hne].
  - rewrite get_set_eq. eauto.
  - rewrite get_set_ne by assumption.
    destruct (JsMap.get (rooms s) c) as [room0|]; auto.
    exists room0. split; auto using phase_step_refl.
Qed.

Ltac phase_leaf room :=
  unfold phase_step, lock_phase, clearBuzz, resetTimerFull, setTimer,
    backToLobby;
  simpl;
  destruct (buzz room) eqn:Hb_; destruct (phase room) eqn:Hp_;
  rewrite ?Hp_ in *; simpl in *; try congruence;
  intros HP;
  try (destruct (HP eq_refl) as [HH|HH]; discriminate HH);
  (split; [intros; first [discriminate | auto] | reflexivity]).

Ltac moves_leaf :=
  solve
    [ apply moves_at_same; reflexivity
    | eapply moves_at_set;
      [ solve [reflexivity | eassumption] | eassumption
      | match goal with |- phase_step ?r _ => phase_leaf r end ] ].

Lemma handle_message_moves s sock now m c :
  server_ok s ->
  createsCode c (FromSocket sock m) = false ->
  moves_at s (server (handle_message s sock now m)) c.
Proof.
  intros Hok Hcreate. destruct m; unfold handle_message.
  - (* create_room *)
    simpl in Hcreate. apply String.eqb_neq in Hcreate.
    unfold create_room, moves_at. simpl.
    rewrite get_set_ne by assumption.
    destruct (JsMap.get (rooms s) c) as [room|]; auto.
    exists room. split; auto using phase_step_refl.
  - unfold host_set_room_name. open_handler; try moves_leaf.
    destruct (negb _); simpl; moves_leaf.
  - unfold host_set_team_name. open_handler; try moves_leaf.
    destruct tid as [k|]; simpl; try moves_leaf.
    destruct (JsMap.get (teams room) k) as [t|] eqn:Ht; simpl;
      try moves_leaf.
    destruct (negb _); simpl; moves_leaf.
  - unfold join_room. open_handler; try moves_leaf.
    destruct spectate; simpl; try moves_leaf.
    destruct tid as [k|]; simpl; try moves_leaf.
    destruct (JsString.truthy k && JsMap.has (teams room) k); simpl;
      moves_leaf.
  - unfold set_team. moves_leaf.
  - (* host_start_tossup_reading *)
    unfold host_start_tossup_reading. open_handler; try moves_leaf.
    destruct (startsWithBonus (phase room)) eqn:Hbonus; simpl;
      try moves_leaf.
    use_shapes. use_frames. moves_leaf.
  - unfold host_done_reading_tossup. open_handler; try moves_leaf.
    destruct (startsWithBonus (phase room)) eqn:Hbonus; simpl;
      try moves_leaf.
    use_shapes. moves_leaf.
  - unfold buzz_handler. open_handler; try moves_leaf.
    destruct (JsMap.get (players room) sock) as [pl|]; simpl;
      try moves_leaf.
    destruct (isHost pl || isSpectator pl); simpl; try moves_leaf.
    destruct (negb (phase_eqb (phase room) TossupReading)
              && negb (phase_eqb (phase room) TossupLive)) eqn:Hphase;
      simpl; try moves_leaf.
    destruct (teamId pl) as [tid|]; simpl; try moves_leaf.
    destruct (JsString.truthy tid); simpl; try moves_leaf.
    destruct (JsSet.has (tossupLockedTeams room) tid); simpl;
      try moves_leaf.
    destruct (locked (buzz room)); simpl; try moves_leaf.
    destruct (phase_eqb (phase room) TossupLive) eqn:Hlive.
    + use_shapes. unfold stopTimer.
      destruct (negb (running (timer room))); moves_leaf.
    + moves_leaf.
  - unfold host_clear_buzz. open_handler; try moves_leaf.
    unfold clearBuzz. simpl.
    destruct (phase_eqb (phase room) TossupLive && running (timer room)).
    + use_shapes. moves_leaf.
    + moves_leaf.
  - unfold host_set_interrupt_choice. open_handler; try moves_leaf.
    destruct (buzz room) eqn:Hbuzz; simpl; moves_leaf.
  - (* host_mark_answer *)
    unfold host_mark_answer. open_handler; try moves_leaf.
    destruct (buzz room) as [|ws wn wt a ic] eqn:Hbuzz; simpl;
      try moves_leaf.
    destruct (if JsString.truthy wt then _ else _) as [team|] eqn:Hteam;
      simpl; try moves_leaf.
    destruct ic as [interrupt|]; simpl; try moves_leaf.
    destruct correct.
    + use_shapes. use_frames. moves_leaf.
    + destruct interrupt.
      * unfold clearBuzz.
        destruct (otherTeamId _ wt) as [otherId|]; simpl.
        -- destruct (JsMap.get (teams room) otherId) as [other|] eqn:Hother;
             simpl; use_shapes; use_frames; moves_leaf.
        -- use_shapes. moves_leaf.
      * use_shapes. moves_leaf.
  - unfold host_done_reading_bonus. open_handler; try moves_leaf.
    destruct (negb (phase_eqb (phase room) BonusReading)
              && negb (phase_eqb (phase room) BonusLive)) eqn:Hphase; simpl;
      moves_leaf.
  - (* host_award_bonus *)
    unfold host_award_bonus. open_handler; try moves_leaf.
    destruct (negb (startsWithBonus (phase room))) eqn:Hbonus; simpl;
      try moves_leaf.
    destruct (activeBonusTeamId room) as [tid|]; simpl; try moves_leaf.
    destruct (if JsString.truthy tid then _ else _) as [team|] eqn:Hteam;
      simpl; try moves_leaf.
    destruct (pointsInRange points) as [q|] eqn:Hq; simpl; moves_leaf.
  - unfold host_skip_bonus. open_handler; try moves_leaf.
    destruct (negb (startsWithBonus (phase room))) eqn:Hbonus; simpl;
      moves_leaf.
  - (* disconnect *)
    unfold moves_at.
    rewrite (disconnect_get sock now c Hok).
    destruct (JsMap.get (rooms s) c) as [room|] eqn:Hget; auto.
    unfold afterDisconnect.
    destruct (JsMap.has (players room) sock);
      [|eauto using phase_step_refl].
    destruct (String.eqb (hostSocketId room) sock); auto.
    exists room. split; auto. intros HP. split; [exact HP|].
    apply phase_next_refl.
Qed.

Lemma step_moves s now e c :
  server_ok s -> createsCode c e = false -> moves_at s (step s now e) c.
Proof.
  intros Hok Hcreate. destruct e as [sock m|h]; simpl.
  - now apply handle_message_moves.
  - unfold fireTimeout. destruct (find _ (pending s)) as [pt|]; simpl;
      [|moves_leaf].
    unfold tossupEndCallback. simpl.
    destruct (JsMap.get (rooms s) (capturedCode pt)) as [room|] eqn:Hget;
      simpl; [|moves_leaf].
    destruct (_ && _) eqn:Hguard; simpl; [|moves_leaf].
    apply andb_true_iff in Hguard as [Hguard _].
    apply andb_true_iff in Hguard as [Hlive _].
    apply phase_eqb_eq in Hlive.
    apply (@moves_at_set s (clearTimeout s h) c (capturedCode pt) room);
      [reflexivity|exact Hget|].
    intros _. unfold lock_phase, clearBuzz. simpl. rewrite Hlive.
    split; [intros; discriminate|reflexivity].
Qed.

Lemma reachable_lock_phase s :
  reachable s ->
  forall c r, JsMap.get (rooms s) c = Some r -> lock_phase r.
Proof.
  induction 1 as [|s now e Hs IH]; intros c r Hget.
  - discriminate.
  - destruct (createsCode c e) eqn:Hcreate.
    + destruct e as [sock m|h]; [|discriminate].
      destruct m; try discriminate.
      simpl in Hcreate. apply String.eqb_eq in Hcreate.
      simpl in Hget. unfold create_room in Hget. simpl in Hget.
      rewrite Hcreate, get_set_eq in Hget. injection Hget as <-.
      intros Hl. discriminate.
    + pose proof (@step_moves s now e c (reachable_ok Hs) Hcreate) as Hm.
      unfold moves_at in Hm. rewrite Hget in Hm.
      destruct Hm as (room & Hroom & Hstep).
      exact (proj1 (Hstep (IH _ _ Hroom))).
Qed.

(** X22: in every reachable state a buzz is locked only while the toss-up is being
    read or is live: in the lobby, after the toss-up closed and during a
    bonus no room holds a locked buzz. *)
Theorem buzz_locked_only_in_tossup :
  forall s c room,
    reachable s ->
    JsMap.get (rooms s) c = Some room ->
    locked (buzz room) = true ->
    phase room = TossupReading \/ phase room = TossupLive.
Proof.
  intros s c room Hs Hget. exact (reachable_lock_phase Hs _ Hget).
Qed.

Lemma buzz_locked_only_in_tossup_witness :
  exists room,
    JsMap.get (rooms (run initServer sessionBuzzed)) "AAAAAA" = Some room
    /\ locked (buzz room) = true
    /\ (phase room = TossupReading \/ phase room = TossupLive).
Proof.
  eexists. split; [vm_compute; reflexivity|]. split; [reflexivity|].
  refine (@buzz_locked_only_in_tossup
            (run initServer sessionBuzzed) "AAAAAA" _
            (reachable_run _ reachable_init) _ _);
    vm_compute; reflexivity.
Defined.

(** X23: one event moves the phase of a room only along these edges: from any
    phase outside a bonus to tossup_reading or tossup_live; from tossup_live
    to tossup_closed; from tossup_reading or tossup_live to bonus_reading;
    from bonus_reading to bonus_live; from either bonus phase to lobby.  In
    particular the lobby is entered only from a bonus, a toss-up closes only
    from live, and a bonus starts only from a toss-up that is read or
    live. *)
Theorem phase_transitions :
  forall s now e c room room',
    reachable s ->
    createsCode c e = false ->
    JsMap.get (rooms s) c = Some room ->
    JsMap.get (rooms (step s now e)) c = Some room' ->
    phase_next (phase room) (phase room') = true.
Proof.
  intros s now e c room room' Hs Hcreate Hget Hget'.
  pose proof (@step_moves s now e c (reachable_ok Hs) Hcreate) as Hm.
  unfold moves_at in Hm. rewrite Hget' in Hm.
  destruct Hm as (room0 & Hroom & Hstep).
  rewrite Hget in Hroom. injection Hroom as <-.
  exact (proj2 (Hstep (reachable_lock_phase Hs _ Hget))).
Qed.

Lemma phase_transitions_witness :
  exists room room',
    JsMap.get (rooms (run initServer sessionSecondLive)) "AAAAAA" = Some room
    /\ JsMap.get
         (rooms (step (run initServer sessionSecondLive) 14215
                   (TimeoutFires 1)))
         "AAAAAA" = Some room'
    /\ phase room = TossupLive
    /\ phase room' = TossupClosed
    /\ phase_next (phase room) (phase room') = true.
Proof.
  eexists. eexists.
  split; [vm_compute; reflexivity|].
  split; [vm_compute; reflexivity|].
  split; [reflexivity|]. split; [reflexivity|].
  refine (@phase_transitions
            (run initServer sessionSecondLive) 14215 (TimeoutFires 1)
            "AAAAAA" _ _ (reachable_run _ reachable_init) _ _ _);
    vm_compute; reflexivity.
Defined.
